(** * pandora / mtdr: streaming acquisition, averaging, hand-off, display
      transforms, cursors and preset aliases

    Shallow embedding of the parts of [src/mtdr/python/pymtdr.py],
    [src/mtdr/python/mtdr_mcp.py], [src/mtdr/python/mtdr_stream.py] and
    [src/mtdr/python/service_browser.py] that the specification talks
    about, followed by the properties proved about them.

    Layout: all definitions first (one module per component), then the
    lemmas and theorems. *)

From Stdlib Require Import Reals Lra Lia ZArith Bool Ascii String List.
From Stdlib Require Import Sorted DecimalString.
From Stdlib Require SpecFloat.
Import ListNotations.

(* ================================================================== *)
(** * Part I - definitions                                             *)
(* ================================================================== *)

(** ** float64 values

    Python floats and numpy float64 elements are modelled as extended
    reals: a finite real, one of the two infinities, or NaN.  Rounding,
    overflow of finite results and the sign of zero are not modelled (a
    finite result is the exact real result); what is kept is everything
    the program can observe structurally: NaN absorbs every arithmetic
    operation and fails every comparison, division by zero yields an
    infinity or NaN instead of raising (numpy semantics), and the
    logarithm of a non-positive number is not a finite number.  What
    depends on rounding is stated on the module [Binary64] further
    down, which computes as IEEE 754 does. *)
Module Float64.
Local Open Scope R_scope.

Inductive float64 : Type :=
| Fin (r : R)
| PInf
| NInf
| NaN.

Definition Rleb (a b : R) : bool := if Rle_dec a b then true else false.
Definition Rltb (a b : R) : bool := if Rlt_dec a b then true else false.
Definition Reqb (a b : R) : bool := if Req_dec_T a b then true else false.

Definition isnan (x : float64) : bool :=
  match x with NaN => true | _ => false end.

Definition is_neg (x : float64) : bool :=
  match x with Fin a => Rltb a 0 | NInf => true | _ => false end.

Definition is_zero (x : float64) : bool :=
  match x with Fin a => Reqb a 0 | _ => false end.

Definition inf_signed (neg : bool) : float64 := if neg then NInf else PInf.

Definition fneg (x : float64) : float64 :=
  match x with
  | Fin a => Fin (- a)
  | PInf => NInf
  | NInf => PInf
  | NaN => NaN
  end.

Definition fadd (x y : float64) : float64 :=
  match x, y with
  | NaN, _ | _, NaN => NaN
  | Fin a, Fin b => Fin (a + b)
  | PInf, NInf | NInf, PInf => NaN
  | PInf, _ | _, PInf => PInf
  | NInf, _ | _, NInf => NInf
  end.

Definition fsub (x y : float64) : float64 := fadd x (fneg y).

Definition fmul (x y : float64) : float64 :=
  match x, y with
  | NaN, _ | _, NaN => NaN
  | Fin a, Fin b => Fin (a * b)
  | _, _ =>
      if is_zero x || is_zero y then NaN
      else inf_signed (xorb (is_neg x) (is_neg y))
  end.

(** numpy division: [x / 0] is an infinity (or NaN for [0 / 0]) with a
    warning, never an exception. *)
Definition fdiv (x y : float64) : float64 :=
  match x, y with
  | NaN, _ | _, NaN => NaN
  | Fin a, Fin b =>
      if Reqb b 0 then (if Reqb a 0 then NaN else inf_signed (Rltb a 0))
      else Fin (a / b)
  | Fin _, _ => Fin 0
  | _, Fin b => inf_signed (xorb (is_neg x) (Rltb b 0))
  | _, _ => NaN
  end.

(** [x <= y], [x < y], [x == y]: false as soon as one side is NaN. *)
Definition fleb (x y : float64) : bool :=
  match x, y with
  | NaN, _ | _, NaN => false
  | Fin a, Fin b => Rleb a b
  | NInf, _ => true
  | _, PInf => true
  | _, _ => false
  end.

Definition fltb (x y : float64) : bool :=
  match x, y with
  | NaN, _ | _, NaN => false
  | Fin a, Fin b => Rltb a b
  | NInf, NInf => false
  | NInf, _ => true
  | PInf, _ => false
  | Fin _, PInf => true
  | Fin _, NInf => false
  end.

Definition feqb (x y : float64) : bool :=
  match x, y with
  | Fin a, Fin b => Reqb a b
  | PInf, PInf => true
  | NInf, NInf => true
  | _, _ => false
  end.

(** [np.log10]: [-inf] at zero, NaN below zero (warnings, no exception). *)
Definition flog10 (x : float64) : float64 :=
  match x with
  | Fin a =>
      if Rltb 0 a then Fin (ln a / ln 10)
      else if Reqb a 0 then NInf else NaN
  | PInf => PInf
  | NInf => NaN
  | NaN => NaN
  end.

(** [10 ** x]. *)
Definition fpow10 (x : float64) : float64 :=
  match x with
  | Fin a => Fin (Rpower 10 a)
  | PInf => PInf
  | NInf => Fin 0
  | NaN => NaN
  end.

(** An [int] used where a float is expected. *)
Definition of_nat (n : nat) : float64 := Fin (INR n).
End Float64.
Export Float64.

(** ** numpy array operations used by the program *)
Module Numpy.

Fixpoint zip_with {A B C} (f : A -> B -> C) (a : list A) (b : list B) : list C :=
  match a, b with
  | x :: a', y :: b' => f x y :: zip_with f a' b'
  | _, _ => []
  end.

(** [np.array(a) + np.array(b)] on one-dimensional arrays: elementwise
    when the lengths agree, broadcast when one side has length one,
    otherwise numpy raises [ValueError] ([None]). *)
Definition add (a b : list float64) : option (list float64) :=
  if Nat.eqb (length a) (length b) then Some (zip_with fadd a b)
  else if Nat.eqb (length a) 1 then Some (map (fadd (hd NaN a)) b)
  else if Nat.eqb (length b) 1 then Some (map (fun x => fadd x (hd NaN b)) a)
  else None.

(** [np.array(a) / n] for an [int] n. *)
Definition div_int (a : list float64) (n : nat) : list float64 :=
  map (fun x => fdiv x (of_nat n)) a.

(** The order numpy sorts and searches float arrays with: NaN last. *)
Definition less (a b : float64) : bool :=
  fltb a b || (isnan b && negb (isnan a)).

(** [np.searchsorted(a, v)] (side [left]) by its contract on an
    ascending array: the number of leading elements that are less than
    [v], that is the index [i] with [a[i-1] < v <= a[i]]. *)
Fixpoint searchsorted (a : list float64) (v : float64) : nat :=
  match a with
  | [] => 0
  | x :: a' => if less x v then S (searchsorted a' v) else 0
  end.

(** [np.min] / [np.max] of a non-empty array ([None] on an empty one,
    where numpy raises).  NaN is absorbing, as in numpy. *)
Definition fmin2 (x y : float64) : float64 :=
  if isnan x then NaN else if isnan y then NaN
  else if fleb x y then x else y.
Definition fmax2 (x y : float64) : float64 :=
  if isnan x then NaN else if isnan y then NaN
  else if fleb x y then y else x.
Definition min (a : list float64) : option float64 :=
  match a with
  | [] => None
  | x :: a' => Some (fold_left fmin2 a' x)
  end.
Definition max (a : list float64) : option float64 :=
  match a with
  | [] => None
  | x :: a' => Some (fold_left fmax2 a' x)
  end.

(** [np.arange(n, dtype=np.float64) * s]. *)
Definition arange_times (n : nat) (s : float64) : list float64 :=
  map (fun i => fmul (of_nat i) s) (seq 0 n).
End Numpy.

(** ** The hand-off queue: [queue.Queue(maxsize=10)] *)
Module HandoffQueue.
Section Queue.
Context {A : Type}.

(** [maxsize] given at [_on_connect] (line 607). *)
Definition maxsize : nat := 10.

Definition t : Type := list A.

Definition empty : t := [].

(** [put(item, block=False)]: [None] stands for [queue.Full]. *)
Definition put_nowait (q : t) (item : A) : option t :=
  if Nat.ltb (length q) maxsize then Some (q ++ [item]) else None.

(** [get_nowait()]: [None] stands for [queue.Empty]. *)
Definition get_nowait (q : t) : option (A * t) :=
  match q with
  | [] => None
  | x :: q' => Some (x, q')
  end.

(** The producer's use of the queue in [_radium_sample_stream]:
    [put(..., block=False)] under [except queue.Full: pass]. *)
Definition push (q : t) (item : A) : t :=
  match put_nowait q item with
  | Some q' => q'
  | None => q
  end.

(** Repeated [get_nowait()] until [queue.Empty], as in
    [_pop_sample_stream_queue] and [_clear_sample_stream_queue]:
    the items popped, in the order popped, and the queue left. *)
Fixpoint drain_fuel (fuel : nat) (q : t) : list A * t :=
  match fuel with
  | O => ([], q)
  | S fuel' =>
      match get_nowait q with
      | None => ([], q)
      | Some (x, q') =>
          let (xs, q'') := drain_fuel fuel' q' in (x :: xs, q'')
      end
  end.

Definition drain (q : t) : list A * t := drain_fuel (S (length q)) q.
End Queue.
Arguments t : clear implicits.
End HandoffQueue.


(** ** Ingestion and averaging: [AppWindow._radium_sample_stream] *)
Module Ingest.

(** One message of the sample stream (a [SampleStream] protobuf message). *)
Record SampleStream : Type := mkSampleStream {
  sample : list float64;
  sample_spacing_ps : float64;
  pulse_period_ns : float64;
  ref_50ohm : float64;
  ref_unit_amp : float64
}.

(** [msg.sample[:] = s]: the message keeps every other field. *)
Definition set_sample (m : SampleStream) (s : list float64) : SampleStream :=
  {| sample := s;
     sample_spacing_ps := sample_spacing_ps m;
     pulse_period_ns := pulse_period_ns m;
     ref_50ohm := ref_50ohm m;
     ref_unit_amp := ref_unit_amp m |}.

(** The test of line 747: both fields of the configuration epoch agree. *)
Definition same_epoch (a b : SampleStream) : bool :=
  feqb (sample_spacing_ps a) (sample_spacing_ps b)
  && feqb (pulse_period_ns a) (pulse_period_ns b).

(** The fields of [AppWindow] the sample-stream thread and the handlers
    below read or write, together with the thread's local counter
    [rx_count_for_avg_calc].  [signals] counts the emissions of
    [_radium_sample_stream_signal].

    The message stored in [_buffered_sample_stream] is mutated in place
    by the thread and the very same object is put on the queue.  After
    the [put] the counter is 0, so the next step that touches the
    accumulator rebinds [_buffered_sample_stream] to the new message
    before any further mutation: a queued message is never written
    again, and values can stand for the objects. *)
Record State : Type := mkState {
  _connected : bool;
  _paused : bool;
  _buffered_sample_stream : option SampleStream;
  rx_count_for_avg_calc : nat;
  _waveform_average_count : nat;
  _sample_stream_queue : HandoffQueue.t SampleStream;
  signals : nat
}.

(** Lines 743-752: the accumulator update.  The result is the message
    [_buffered_sample_stream] refers to afterwards and the new counter;
    [None] is the [ValueError] numpy raises when the two sample arrays
    cannot be broadcast together. *)
Definition accumulate (buffered : option SampleStream) (count : nat)
    (next_msg : SampleStream) : option (SampleStream * nat) :=
  match buffered with
  | None => Some (next_msg, 1)
  | Some b =>
      if Nat.eqb count 0 then Some (next_msg, 1)
      else if same_epoch b next_msg then
        match Numpy.add (sample b) (sample next_msg) with
        | Some s => Some (set_sample b s, S count)
        | None => None
        end
      else Some (next_msg, 0)
  end.

(** Field updates: the accumulator ([_buffered_sample_stream] and the
    counter), and the queue together with the signal count. *)
Definition with_accumulator (st : State) (b : option SampleStream)
    (count : nat) : State :=
  {| _connected := _connected st;
     _paused := _paused st;
     _buffered_sample_stream := b;
     rx_count_for_avg_calc := count;
     _waveform_average_count := _waveform_average_count st;
     _sample_stream_queue := _sample_stream_queue st;
     signals := signals st |}.

Definition with_queue (st : State) (q : HandoffQueue.t SampleStream)
    (sig : nat) : State :=
  {| _connected := _connected st;
     _paused := _paused st;
     _buffered_sample_stream := _buffered_sample_stream st;
     rx_count_for_avg_calc := rx_count_for_avg_calc st;
     _waveform_average_count := _waveform_average_count st;
     _sample_stream_queue := q;
     signals := sig |}.

(** Lines 754-755: the message put on the queue when the counter has
    reached the averaging factor. *)
Definition averaged (b : SampleStream) (count : nat) : SampleStream :=
  set_sample b (Numpy.div_int (sample b) count).

(** Lines 756-759: the counter is reset, then the averaged message is
    put on the queue without blocking and the consumer is signalled;
    when the queue is full, [queue.Full] skips the signal and is
    swallowed by [except queue.Full: pass]. *)
Definition emit (st : State) (avg : SampleStream) : State :=
  let st1 := with_accumulator st (Some avg) 0 in
  match HandoffQueue.put_nowait (_sample_stream_queue st) avg with
  | Some q => with_queue st1 q (S (signals st))
  | None => st1
  end.

(** Lines 738-762: what the thread does with one received message.
    [None]: an exception other than [queue.Full] left the loop (the
    thread ends).  The rate telemetry of lines 726-736 touches none of
    the fields modelled here.  A step is taken as a whole: the handlers
    below run between two steps, never inside one (the few statements
    the thread executes after releasing the lock are not interleaved
    with them). *)
Definition _radium_sample_stream_step (st : State) (next_msg : SampleStream)
    : option State :=
  if _paused st then Some st
  else
    match accumulate (_buffered_sample_stream st) (rx_count_for_avg_calc st)
            next_msg with
    | None => None
    | Some (b, count) =>
        if Nat.eqb count (_waveform_average_count st) then
          Some (emit st (averaged b count))
        else Some (with_accumulator st (Some b) count)
    end.

(** The loop [while self._connected: next_msg = next(...); ...] over the
    messages the listener delivers. *)
Fixpoint _radium_sample_stream (st : State) (msgs : list SampleStream)
    : option State :=
  match msgs with
  | [] => Some st
  | m :: msgs' =>
      if _connected st then
        match _radium_sample_stream_step st m with
        | Some st' => _radium_sample_stream st' msgs'
        | None => None
        end
      else Some st
  end.

(** [_waveform_average_map]. *)
Definition _waveform_average_map : list (string * nat) :=
  [ ("No Averaging", 1); ("x2 Averaging", 2); ("x4 Averaging", 4);
    ("x8 Averaging", 8); ("x16 Averaging", 16); ("x32 Averaging", 32);
    ("x64 Averaging", 64); ("x128 Averaging", 128) ]%string.

(** [_on_waveform_average_changed]; [count] is the value the map gives
    for the combo box's current text.  The thread's counter is not
    touched. *)
Definition _on_waveform_average_changed (st : State) (count : nat) : State :=
  {| _connected := _connected st;
     _paused := _paused st;
     _buffered_sample_stream := None;
     rx_count_for_avg_calc := rx_count_for_avg_calc st;
     _waveform_average_count := count;
     _sample_stream_queue := _sample_stream_queue st;
     signals := signals st |}.

(** [_clear_sample_stream_queue]. *)
Definition _clear_sample_stream_queue (st : State) : State :=
  with_queue st (snd (HandoffQueue.drain (_sample_stream_queue st))) (signals st).

(** [_on_play_pause_plot_updates], restricted to the fields modelled
    (the rest is button text, tooltips and a [GetState] request). *)
Definition _on_play_pause_plot_updates (st : State) : State :=
  if negb (_connected st) then st
  else
    let st' := {| _connected := _connected st;
                  _paused := negb (_paused st);
                  _buffered_sample_stream := _buffered_sample_stream st;
                  rx_count_for_avg_calc := rx_count_for_avg_calc st;
                  _waveform_average_count := _waveform_average_count st;
                  _sample_stream_queue := _sample_stream_queue st;
                  signals := signals st |} in
    if _paused st' then _clear_sample_stream_queue st' else st'.

(** The state [_on_connect] leaves (lines 604-608) once the connection
    is up, with the averaging factor currently selected, and the
    thread's counter as initialised at line 722. *)
Definition _on_connect (average_count : nat) : State :=
  {| _connected := true;
     _paused := false;
     _buffered_sample_stream := None;
     rx_count_for_avg_calc := 0;
     _waveform_average_count := average_count;
     _sample_stream_queue := HandoffQueue.empty;
     signals := 0 |}.

(** *** Vocabulary for the properties below *)

(** The elementwise running sum the thread keeps in the buffered
    message: the samples [s] so far, then each message of [rest] added. *)
Definition sum_into (s : list float64) (rest : list SampleStream) : list float64 :=
  fold_left (fun acc g => Numpy.zip_with fadd acc (sample g)) rest s.

(** A message the accumulation started by [f] takes in: it passes the
    epoch test of line 747 against [f] and has as many samples. *)
Definition joins (f g : SampleStream) : Prop :=
  same_epoch f g = true /\ length (sample g) = length (sample f).

(** The first message [f] of an accumulation with the elementwise sum of
    [f :: rest] divided by their number as its samples. *)
Definition mean_of (f : SampleStream) (rest : list SampleStream) : SampleStream :=
  averaged (set_sample f (sum_into (sample f) rest)) (S (length rest)).

(** [x] added to itself [k] times: [(k + 1)] copies of [x] summed. *)
Fixpoint times (k : nat) (x : float64) : float64 :=
  match k with
  | O => x
  | S k' => fadd (times k' x) x
  end.

(** *** Sample messages used in the concrete evaluations below *)

(** A message with finite fields. *)
Definition message (samples : list R) (spacing period ref50 amp : R)
    : SampleStream :=
  {| sample := map Fin samples;
     sample_spacing_ps := Fin spacing;
     pulse_period_ns := Fin period;
     ref_50ohm := Fin ref50;
     ref_unit_amp := Fin amp |}.

(** Two messages of one epoch whose reference levels differ. *)
Definition msg_first : SampleStream := message [1; 2]%R 1 16 0 1.
Definition msg_last : SampleStream := message [3; 4]%R 1 16 5 1.

(** A message of the epoch (1 ps, 16 ns), and two of the epoch
    (2 ps, 32 ns). *)
Definition msg_old : SampleStream := message [7]%R 1 16 0 1.
Definition msg_new : SampleStream := message [10]%R 2 32 0 1.
Definition msg_next : SampleStream := message [4]%R 2 32 0 1.

End Ingest.

(** ** The display transform engine: [AppWindow._convert_y_to] *)
Module Transform.

(** [AppWindow._DisplayMode]. *)
Inductive _DisplayMode : Type :=
| S_N
| IMPEDANCE
| IMPEDANCE_LOG_SCALE
| RHO.

Definition _DisplayMode_eqb (a b : _DisplayMode) : bool :=
  match a, b with
  | S_N, S_N | IMPEDANCE, IMPEDANCE
  | IMPEDANCE_LOG_SCALE, IMPEDANCE_LOG_SCALE | RHO, RHO => true
  | _, _ => false
  end.

(** [impedance[impedance <= 0] = np.nan] on an array, and
    [if impedance <= 0: impedance = np.nan] on a scalar: the same
    function of each element. *)
Definition nan_if_nonpositive (impedance : float64) : float64 :=
  if fleb impedance (Fin 0) then NaN else impedance.

Section WithLog.
(** [np.log10], kept as a parameter so that one can say on which
    arguments the result of a conversion depends. *)
Variable log10 : float64 -> float64.

(** The body of [_convert_y_to] on one element.  The source has a
    scalar and an array branch for the NaN replacement; both compute
    the function below on each element. *)
Definition convert_elem_with (x : float64) (in_mode out_mode : _DisplayMode)
    (ref_50ohm ref_unit_amp : float64) : float64 :=
  match in_mode with
  | S_N =>
      match out_mode with
      | RHO => fdiv (fsub x ref_50ohm) ref_unit_amp
      | IMPEDANCE | IMPEDANCE_LOG_SCALE =>
          let reflection_coeff := fdiv (fsub x ref_50ohm) ref_unit_amp in
          let impedance :=
            fdiv (fmul (Fin 50) (fadd (Fin 1) reflection_coeff))
                 (fsub (Fin 1) reflection_coeff) in
          match out_mode with
          | IMPEDANCE_LOG_SCALE => log10 (nan_if_nonpositive impedance)
          | _ => impedance
          end
      | S_N => x
      end
  | RHO =>
      match out_mode with
      | S_N => fadd (fmul x ref_unit_amp) ref_50ohm
      | IMPEDANCE | IMPEDANCE_LOG_SCALE =>
          let sample_array_sn := fadd (fmul x ref_unit_amp) ref_50ohm in
          let reflection_coeff :=
            fdiv (fsub sample_array_sn ref_50ohm) ref_unit_amp in
          let impedance :=
            fdiv (fmul (Fin 50) (fadd (Fin 1) reflection_coeff))
                 (fsub (Fin 1) reflection_coeff) in
          match out_mode with
          | IMPEDANCE_LOG_SCALE => log10 (nan_if_nonpositive impedance)
          | _ => impedance
          end
      | RHO => x
      end
  | IMPEDANCE =>
      match out_mode with
      | S_N =>
          let reflection_coeff := fdiv (fsub x (Fin 50)) (fadd x (Fin 50)) in
          fadd (fmul reflection_coeff ref_unit_amp) ref_50ohm
      | RHO => fdiv (fsub x (Fin 50)) (fadd x (Fin 50))
      | IMPEDANCE_LOG_SCALE => log10 (nan_if_nonpositive x)
      | IMPEDANCE => x
      end
  | IMPEDANCE_LOG_SCALE =>
      match out_mode with
      | S_N =>
          let z := fpow10 x in
          let reflection_coeff := fdiv (fsub z (Fin 50)) (fadd z (Fin 50)) in
          fadd (fmul reflection_coeff ref_unit_amp) ref_50ohm
      | RHO =>
          let z := fpow10 x in
          fdiv (fsub z (Fin 50)) (fadd z (Fin 50))
      | IMPEDANCE => fpow10 x
      | IMPEDANCE_LOG_SCALE => x
      end
  end.
End WithLog.

Definition convert_elem : float64 -> _DisplayMode -> _DisplayMode ->
    float64 -> float64 -> float64 :=
  convert_elem_with flog10.

(** [_convert_y_to] on a sample array. *)
Definition _convert_y_to (sample_array : list float64)
    (in_mode out_mode : _DisplayMode) (ref_50ohm ref_unit_amp : float64)
    : list float64 :=
  map (fun x => convert_elem x in_mode out_mode ref_50ohm ref_unit_amp)
      sample_array.

End Transform.

(** ** The cursor model *)
Module Cursor.

(** What a Python expression evaluates to here: [None], a float, or an
    uncaught [IndexError]. *)
Inductive readout : Type :=
| PyNone
| PyFloat (v : float64)
| PyIndexError.

(** [a[i]] for [i >= 0] and [a[-1]]. *)
Definition index (a : list float64) (i : nat) : option float64 := nth_error a i.
Definition index_last (a : list float64) : option float64 :=
  match a with
  | [] => None
  | _ => Some (last a NaN)
  end.

Definition of_index (o : option float64) : readout :=
  match o with
  | Some v => PyFloat v
  | None => PyIndexError
  end.

(** [_update_vcursor_readouts.y_at_x] (lines 1037-1048); the three
    fields of [self] it reads are arguments. *)
Definition y_at_x (_last_x_as_array _last_y_as_array : option (list float64))
    (_y_axis_is_in_log_scale : bool) (xq : float64) : readout :=
  match _last_x_as_array, _last_y_as_array with
  | Some xs, Some ys =>
      if Nat.eqb (length xs) 0 then PyNone
      else
        let idx := Numpy.searchsorted xs xq in
        if Nat.leb idx 0 then of_index (index ys 0)
        else if Nat.leb (length xs) idx then of_index (index_last ys)
        else
          match index xs (idx - 1), index xs idx,
                index ys (idx - 1), index ys idx with
          | Some x0, Some x1, Some y0, Some y1 =>
              if feqb x1 x0 then PyFloat y0
              else
                let t := fdiv (fsub xq x0) (fsub x1 x0) in
                let v := fadd y0 (fmul t (fsub y1 y0)) in
                if _y_axis_is_in_log_scale then PyFloat (fpow10 v)
                else PyFloat v
          | _, _, _, _ => PyIndexError
          end
  | _, _ => PyNone
  end.

(** [AppWindow._CursorBehaviorWhenClipped]. *)
Inductive _CursorBehaviorWhenClipped : Type :=
| USE_MIN
| USE_MAX.

(** A [pyqtgraph.InfiniteLine]: its position, the bounds given by
    [setBounds] (none at construction) and its visibility.  pyqtgraph
    is not part of the repository; the three methods below follow
    [InfiniteLine.setPos]/[setBounds] of the library: a new position is
    first raised to the lower bound, then lowered to the upper bound
    (Python's [max] and [min]), and [setBounds] re-applies the current
    position. *)
Record InfiniteLine : Type := mkLine {
  value : float64;
  maxRange : option (float64 * float64);
  isVisible : bool
}.

Definition py_max (a b : float64) : float64 := if fltb a b then b else a.
Definition py_min (a b : float64) : float64 := if fltb b a then b else a.

Definition setValue (c : InfiniteLine) (v : float64) : InfiniteLine :=
  {| value := match maxRange c with
              | Some (lo, hi) => py_min (py_max v lo) hi
              | None => v
              end;
     maxRange := maxRange c;
     isVisible := isVisible c |}.

Definition setBounds (c : InfiniteLine) (lo hi : float64) : InfiniteLine :=
  setValue {| value := value c; maxRange := Some (lo, hi);
              isVisible := isVisible c |} (value c).

Definition setVisible (c : InfiniteLine) (b : bool) : InfiniteLine :=
  {| value := value c; maxRange := maxRange c; isVisible := b |}.

(** [np.nanmin] / [np.nanmax]: NaN elements are skipped; NaN when there
    is nothing else; [None] on an empty array (numpy raises). *)
Definition nan_filter (a : list float64) : list float64 :=
  filter (fun x => negb (isnan x)) a.
Definition nanmin (a : list float64) : option float64 :=
  match a with
  | [] => None
  | _ => match Numpy.min (nan_filter a) with
         | Some m => Some m
         | None => Some NaN
         end
  end.
Definition nanmax (a : list float64) : option float64 :=
  match a with
  | [] => None
  | _ => match Numpy.max (nan_filter a) with
         | Some m => Some m
         | None => Some NaN
         end
  end.

(** The clamp of [_toggle_cursor] once the range is known. *)
Definition clip (c : InfiniteLine) (lo hi : float64) (out_of_range : bool)
    (when_clipped : _CursorBehaviorWhenClipped) : InfiniteLine :=
  if out_of_range then
    match when_clipped with
    | USE_MIN => setValue c lo
    | USE_MAX => setValue c hi
    end
  else c.

(** [_toggle_cursor] (lines 991-1018) on the cursor it is given; the
    readout refresh at its end changes no cursor.  [None]: numpy raised
    on an empty array. *)
Definition _toggle_cursor (_last_x_as_array _last_y_as_array : option (list float64))
    (cursor : InfiniteLine) (vertical state : bool)
    (when_clipped : _CursorBehaviorWhenClipped) : option InfiniteLine :=
  let cursor := setVisible cursor state in
  if vertical then
    match state, _last_x_as_array with
    | true, Some xs =>
        match Numpy.min xs, Numpy.max xs with
        | Some min_x, Some max_x =>
            let pos := value cursor in
            Some (clip cursor min_x max_x
                    (fltb pos min_x || fltb max_x pos) when_clipped)
        | _, _ => None
        end
    | _, _ => Some cursor
    end
  else
    match state, _last_y_as_array with
    | true, Some ys =>
        match nanmin ys, nanmax ys with
        | Some min_y, Some max_y =>
            let pos := value cursor in
            Some (clip cursor min_y max_y
                    (fltb pos min_y || fltb max_y pos || isnan pos)
                    when_clipped)
        | _, _ => None
        end
    | _, _ => Some cursor
    end.

(** The two checkbox handlers of lines 540-541. *)
Definition toggle_vcursor1 (last_x last_y : option (list float64))
    (c : InfiniteLine) (state : bool) : option InfiniteLine :=
  _toggle_cursor last_x last_y c true state USE_MIN.
Definition toggle_vcursor2 (last_x last_y : option (list float64))
    (c : InfiniteLine) (state : bool) : option InfiniteLine :=
  _toggle_cursor last_x last_y c true state USE_MAX.

(** Lines 1160-1163, for one cursor:
    [if c.value() < min_x: c.setValue(min_x)
     elif c.value() > max_x: c.setValue(max_x)]. *)
Definition restrict_value (c : InfiniteLine) (min_x max_x : float64) : InfiniteLine :=
  if fltb (value c) min_x then setValue c min_x
  else if fltb max_x (value c) then setValue c max_x
  else c.

(** Lines 1147 and 1154-1163 of [_update_scatter_plot]: the new x-array
    of a displayed message with [n] samples, and what happens to the two
    vertical cursors. *)
Definition _update_scatter_plot_cursors (n : nat) (sample_spacing_ps : float64)
    (vcursor1 vcursor2 : InfiniteLine)
    : list float64 * InfiniteLine * InfiniteLine :=
  let _last_x_as_array := Numpy.arange_times n sample_spacing_ps in
  if Nat.ltb 0 (length _last_x_as_array) then
    let min_x := Fin 0 in
    let max_x := last _last_x_as_array NaN in
    let c1 := setBounds vcursor1 min_x max_x in
    let c2 := setBounds vcursor2 min_x max_x in
    (_last_x_as_array, restrict_value c1 min_x max_x,
     restrict_value c2 min_x max_x)
  else (_last_x_as_array, vcursor1, vcursor2).

(** *** Vocabulary and sample data for the properties below *)

(** The bounds of a cursor, if any, contain [v]. *)
Definition admits (c : InfiniteLine) (v : R) : Prop :=
  match maxRange c with
  | None => True
  | Some (Fin lo, Fin hi) => (lo <= v <= hi)%R
  | Some _ => False
  end.

(** A displayed waveform in log space: x in ps, y the decimal logarithm
    of the impedance. *)
Definition xs_demo : list float64 := [Fin 0; Fin 10].
Definition ys_demo : list float64 := [Fin 2; Fin 3].

(** The two vertical cursors as constructed (lines 532-535). *)
Definition vcursor1_init : InfiniteLine :=
  {| value := Fin 1000; maxRange := None; isVisible := true |}.
Definition vcursor2_init : InfiniteLine :=
  {| value := Fin 2000; maxRange := None; isVisible := true |}.

End Cursor.

(** ** Preset aliases: [MTDRMCPServer._normalize_preset]

    Python strings are modelled as sequences of code points below 256. *)
Module Preset.
Local Open Scope string_scope.

(** The values of [radium_public_pb2.TDRConfigurationPreset] the alias
    table uses. *)
Inductive TDRConfigurationPreset : Type :=
| TDR_CONFIGURATION_PRESET_PULSE_PERIOD_3P2_NS_SAMPLE_SPACING_0P2_PS
| TDR_CONFIGURATION_PRESET_PULSE_PERIOD_6P4_NS_SAMPLE_SPACING_0P4_PS
| TDR_CONFIGURATION_PRESET_PULSE_PERIOD_12P8_NS_SAMPLE_SPACING_0P8_PS
| TDR_CONFIGURATION_PRESET_PULSE_PERIOD_16P0_NS_SAMPLE_SPACING_1P0_PS
| TDR_CONFIGURATION_PRESET_PULSE_PERIOD_32P0_NS_SAMPLE_SPACING_2P0_PS
| TDR_CONFIGURATION_PRESET_PULSE_PERIOD_64P0_NS_SAMPLE_SPACING_4P0_PS
| TDR_CONFIGURATION_PRESET_PULSE_PERIOD_80P0_NS_SAMPLE_SPACING_5P0_PS
| TDR_CONFIGURATION_PRESET_PULSE_PERIOD_128P0_NS_SAMPLE_SPACING_8P0_PS
| TDR_CONFIGURATION_PRESET_PULSE_PERIOD_160P0_NS_SAMPLE_SPACING_10P0_PS
| TDR_CONFIGURATION_PRESET_PULSE_PERIOD_16P0_NS_SAMPLE_SPACING_50P0_PS
| TDR_CONFIGURATION_PRESET_PULSE_PERIOD_16P0_NS_SAMPLE_SPACING_100P0_PS.

(** [self._PRESET_ALIASES], in insertion order. *)
Definition _PRESET_ALIASES : list (string * TDRConfigurationPreset) :=
  [ ("3.2ns/0.2ps", TDR_CONFIGURATION_PRESET_PULSE_PERIOD_3P2_NS_SAMPLE_SPACING_0P2_PS);
    ("6.4ns/0.4ps", TDR_CONFIGURATION_PRESET_PULSE_PERIOD_6P4_NS_SAMPLE_SPACING_0P4_PS);
    ("12.8ns/0.8ps", TDR_CONFIGURATION_PRESET_PULSE_PERIOD_12P8_NS_SAMPLE_SPACING_0P8_PS);
    ("16.0ns/1.0ps", TDR_CONFIGURATION_PRESET_PULSE_PERIOD_16P0_NS_SAMPLE_SPACING_1P0_PS);
    ("32.0ns/2.0ps", TDR_CONFIGURATION_PRESET_PULSE_PERIOD_32P0_NS_SAMPLE_SPACING_2P0_PS);
    ("64.0ns/4.0ps", TDR_CONFIGURATION_PRESET_PULSE_PERIOD_64P0_NS_SAMPLE_SPACING_4P0_PS);
    ("80.0ns/5.0ps", TDR_CONFIGURATION_PRESET_PULSE_PERIOD_80P0_NS_SAMPLE_SPACING_5P0_PS);
    ("128.0ns/8.0ps", TDR_CONFIGURATION_PRESET_PULSE_PERIOD_128P0_NS_SAMPLE_SPACING_8P0_PS);
    ("160.0ns/10.0ps", TDR_CONFIGURATION_PRESET_PULSE_PERIOD_160P0_NS_SAMPLE_SPACING_10P0_PS);
    ("16.0ns/50.0ps", TDR_CONFIGURATION_PRESET_PULSE_PERIOD_16P0_NS_SAMPLE_SPACING_50P0_PS);
    ("16.0ns/100.0ps", TDR_CONFIGURATION_PRESET_PULSE_PERIOD_16P0_NS_SAMPLE_SPACING_100P0_PS) ].

(** [d.keys()], [k in d] and [d[k]]. *)
Definition keys {V} (d : list (string * V)) : list string := map fst d.

Fixpoint lookup {V} (d : list (string * V)) (k : string) : option V :=
  match d with
  | [] => None
  | (k', v) :: d' => if String.eqb k k' then Some v else lookup d' k
  end.

(** *** [str.strip], [str.lower] *)

Definition code (c : ascii) : nat := nat_of_ascii c.

Definition is_space (c : ascii) : bool :=
  let n := code c in
  (Nat.leb 9 n && Nat.leb n 13) || (Nat.leb 28 n && Nat.leb n 32)
  || Nat.eqb n 133 || Nat.eqb n 160.

Definition lower_char (c : ascii) : ascii :=
  let n := code c in
  if (Nat.leb 65 n && Nat.leb n 90)
     || (Nat.leb 192 n && Nat.leb n 222 && negb (Nat.eqb n 215))
  then ascii_of_nat (n + 32) else c.

Fixpoint lower (s : string) : string :=
  match s with
  | EmptyString => EmptyString
  | String c s' => String (lower_char c) (lower s')
  end.

Fixpoint lstrip (s : string) : string :=
  match s with
  | EmptyString => EmptyString
  | String c s' => if is_space c then lstrip s' else s
  end.

Fixpoint rev_string (s acc : string) : string :=
  match s with
  | EmptyString => acc
  | String c s' => rev_string s' (String c acc)
  end.

Definition rstrip (s : string) : string :=
  rev_string (lstrip (rev_string s EmptyString)) EmptyString.

Definition strip (s : string) : string := rstrip (lstrip s).

(** *** [re.findall(r"(\d+(?:\.\d+)?)", s)] *)

Definition is_digit (c : ascii) : bool :=
  Nat.leb 48 (code c) && Nat.leb (code c) 57.

(** The longest prefix of digits and what follows it. *)
Fixpoint span_digits (s : string) : string * string :=
  match s with
  | EmptyString => (EmptyString, EmptyString)
  | String c s' =>
      if is_digit c then
        let (d, r) := span_digits s' in (String c d, r)
      else (EmptyString, s)
  end.

(** Leftmost matches, each as long as possible, scanning on after each
    match; [fuel] bounds the number of scanning steps. *)
Fixpoint findall_fuel (fuel : nat) (s : string) : list string :=
  match fuel with
  | O => []
  | S fuel' =>
      match s with
      | EmptyString => []
      | String c s' =>
          if is_digit c then
            let (d1, r1) := span_digits s in
            match r1 with
            | String "." r2 =>
                let (d2, r3) := span_digits r2 in
                match d2 with
                | EmptyString => d1 :: findall_fuel fuel' r1
                | _ => (d1 ++ "." ++ d2) :: findall_fuel fuel' r3
                end
            | _ => d1 :: findall_fuel fuel' r1
            end
          else findall_fuel fuel' s'
      end
  end.

Definition findall (s : string) : list string :=
  findall_fuel (S (String.length s)) s.

(** *** [float(token)] and [f"{x:.1f}"]

    A token is [digits] or [digits.digits].  The float it denotes is the
    binary64 number nearest to the decimal (ties to even), kept as
    [m * 2^e], or infinity when the decimal is too large. *)
Inductive pyfloat : Type :=
| Finite (m : Z) (e : Z)
| Infinity.

Fixpoint digits_value (s : string) (acc : Z) : Z :=
  match s with
  | EmptyString => acc
  | String c s' => digits_value s' (10 * acc + Z.of_nat (code c - 48))%Z
  end.

(** [a / b] rounded to the nearest integer, ties to even
    ([0 <= a], [0 < b]). *)
Definition round_half_even (a b : Z) : Z :=
  let q := (a / b)%Z in
  let r := (a mod b)%Z in
  if (2 * r <? b)%Z then q
  else if (b <? 2 * r)%Z then (q + 1)%Z
  else if Z.even q then q else (q + 1)%Z.

(** [a / (b * 2^e)] rounded to the nearest integer, ties to even. *)
Definition round_scaled (a b e : Z) : Z :=
  if (0 <=? e)%Z then round_half_even a (b * 2 ^ e)
  else round_half_even (a * 2 ^ (- e)) b.

(** The binary64 number nearest to [a / b] ([0 <= a], [0 < b]). *)
Definition nearest_binary64 (a b : Z) : pyfloat :=
  if (a =? 0)%Z then Finite 0 0
  else
    let l := (Z.log2 a - Z.log2 b)%Z in
    (* floor (log2 (a / b)) is [l] or [l - 1] *)
    let top := if (0 <=? l)%Z then (b * 2 ^ l <=? a)%Z
               else (b <=? a * 2 ^ (- l))%Z in
    let e := ((if top then l else l - 1) - 52)%Z in
    let e := Z.max e (-1074) in
    let m := round_scaled a b e in
    if (1024 <=? e + Z.log2 m)%Z && negb (m =? 0)%Z then Infinity
    else Finite m e.

Definition split_token (s : string) : string * string :=
  let (d1, r) := span_digits s in
  match r with
  | String "." d2 => (d1, d2)
  | _ => (d1, EmptyString)
  end.

Definition float_of_token (s : string) : pyfloat :=
  let (d1, d2) := split_token s in
  nearest_binary64 (digits_value (d1 ++ d2) 0)
                   (10 ^ Z.of_nat (String.length d2)).

Definition decimal (n : Z) : string :=
  NilZero.string_of_uint (N.to_uint (Z.to_N n)).

(** [f"{x:.1f}"] for [x >= 0]: the exact binary value rounded to one
    decimal, ties to even. *)
Definition format_1f (x : pyfloat) : string :=
  match x with
  | Infinity => "inf"
  | Finite m e =>
      let t := if (0 <=? e)%Z then (10 * m * 2 ^ e)%Z
               else round_half_even (10 * m) (2 ^ (- e)) in
      decimal (t / 10) ++ "." ++ decimal (t mod 10)
  end.

(** *** [sorted] on strings and [', '.join] *)

Fixpoint insert_sorted (x : string) (l : list string) : list string :=
  match l with
  | [] => [x]
  | y :: l' => if String.leb x y then x :: l else y :: insert_sorted x l'
  end.

Fixpoint sorted (l : list string) : list string :=
  match l with
  | [] => []
  | x :: l' => insert_sorted x (sorted l')
  end.

Definition join (sep : string) (l : list string) : string :=
  String.concat sep l.

(** *** [_normalize_preset]

    [inr msg] is the [ValueError(msg)] the function raises. *)
Definition unrecognized (s : string) : string :=
  "Unrecognized preset '" ++ s ++ "'. Try one of: "
    ++ join ", " (sorted (keys _PRESET_ALIASES)).

Definition _normalize_preset (s : string) : TDRConfigurationPreset + string :=
  let s0 := lower (strip s) in
  match lookup _PRESET_ALIASES s0 with
  | Some p => inl p
  | None =>
      let nums := map float_of_token (findall s0) in
      match nums with
      | ns :: ps :: _ =>
          let key := format_1f ns ++ "ns/" ++ format_1f ps ++ "ps" in
          match lookup _PRESET_ALIASES key with
          | Some p => inl p
          | None => inr (unrecognized s)
          end
      | _ => inr (unrecognized s)
      end
  end.

(** The requests [configure_tdr_preset] sends to the instrument. *)
Inductive rpc : Type :=
| ConfigureTDRPreset (preset : TDRConfigurationPreset)
| GetTDRConfiguration.

(** [configure_tdr_preset]: the requests issued, in order, and the
    [ValueError] that leaves the function, if any.  [_connect] only
    creates the channel and stub. *)
Definition configure_tdr_preset (preset : string) : list rpc * option string :=
  match _normalize_preset preset with
  | inr msg => ([], Some msg)
  | inl enum_val => ([ConfigureTDRPreset enum_val; GetTDRConfiguration], None)
  end.

End Preset.

(** ** IEEE 754 binary64

    The module [Float64] above computes with exact reals.  Where a
    property depends on how float64 rounds, the arithmetic is taken
    here from the Standard Library's specification of IEEE 754
    ([SpecFloat]: round to nearest, ties to even, signed zeros,
    infinities and NaN) at 53 bits of precision, which is what numpy
    and Python compute with. *)
Module Binary64.
Import SpecFloat.

Definition prec : Z := 53.
Definition emax : Z := 1024.

Definition binary64 : Type := spec_float.

Definition add : binary64 -> binary64 -> binary64 := SFadd prec emax.
Definition sub : binary64 -> binary64 -> binary64 := SFsub prec emax.
Definition mul : binary64 -> binary64 -> binary64 := SFmul prec emax.
Definition div : binary64 -> binary64 -> binary64 := SFdiv prec emax.

(** A Python [int] as a float64 (exact below 2^53). *)
Definition of_int (z : Z) : binary64 := binary_normalize prec emax z 0 false.

(** The float64 a decimal literal such as [0.003] denotes: the nearest
    one, as [float] computes it. *)
Definition of_literal (s : string) : binary64 :=
  match Preset.float_of_token s with
  | Preset.Finite m e => binary_normalize prec emax m e false
  | Preset.Infinity => S754_infinity false
  end.

(** The real number a finite float64 is; 0 for the others. *)
Definition to_R (x : binary64) : R :=
  match x with
  | S754_finite s m e =>
      match e with
      | Zneg p => (IZR (cond_Zopp s (Zpos m)) / IZR (Z.pow_pos 2 p))%R
      | _ => IZR (cond_Zopp s (Zpos m) * 2 ^ e)
      end
  | _ => 0%R
  end.

(** *** The averaging of [_radium_sample_stream] in binary64

    Line 748, [np.array(buffered.sample) + np.array(msg.sample)] on
    arrays of one length, repeated for each message of [rest], and
    line 755, [np.array(buffered.sample) / rx_count_for_avg_calc]. *)
Definition sum_into (s : list binary64) (rest : list (list binary64))
    : list binary64 :=
  fold_left (Numpy.zip_with add) rest s.

Definition div_int (a : list binary64) (n : nat) : list binary64 :=
  map (fun x => div x (of_int (Z.of_nat n))) a.

Definition mean_of (f : list binary64) (rest : list (list binary64))
    : list binary64 :=
  div_int (sum_into f rest) (S (length rest)).

(** *** Two branches of [_convert_y_to] in binary64, on one element

    Lines 783-784 (S_n to impedance) and 815-816 (impedance to S_n). *)
Definition sn_to_impedance (x ref_50ohm ref_unit_amp : binary64) : binary64 :=
  let reflection_coeff := div (sub x ref_50ohm) ref_unit_amp in
  div (mul (of_int 50) (add (of_int 1) reflection_coeff))
      (sub (of_int 1) reflection_coeff).

Definition impedance_to_sn (x ref_50ohm ref_unit_amp : binary64) : binary64 :=
  let reflection_coeff := div (sub x (of_int 50)) (add x (of_int 50)) in
  add (mul reflection_coeff ref_unit_amp) ref_50ohm.

End Binary64.

(** ** The quick-look script: [mtdr_stream.radium_sample_stream] *)
Module Stream.

(** The loop of [radium_sample_stream] over the messages the listener
    delivers before it fails: each message is offered to the queue with
    [put(next_msg, block=False)] under [except queue.Full: pass].  The
    rate log touches nothing else. *)
Definition radium_sample_stream {A : Type}
    (sample_stream_queue : HandoffQueue.t A) (msgs : list A)
    : HandoffQueue.t A :=
  fold_left HandoffQueue.push msgs sample_stream_queue.

End Stream.

(** ** The display side of [AppWindow]: what the consumer keeps *)
Module View.
Import Ingest Transform Cursor.

(** The fields of [AppWindow] that [_update_scatter_plot],
    [_pop_sample_stream_queue] and [_on_clear_display] read or write.
    [_y_display_mode] is [self._y_display.mode]; the data handed to the
    scatter item is [_last_x_as_array] and [_last_y_as_array].  The
    title, the axis ranges and the autorange requests are presentation
    only and are left out. *)
Record State : Type := mkView {
  _last_displayed_sample_stream : option SampleStream;
  _last_x_as_array : option (list float64);
  _last_y_as_array : option (list float64);
  _y_display_mode : _DisplayMode;
  _prev_displayed_sample_spacing_ps : option float64;
  _prev_displayed_pulse_period_ns : option float64;
  _prev_displayed_mode : option _DisplayMode;
  _vcursor1 : InfiniteLine;
  _vcursor2 : InfiniteLine;
  _hcursor1 : InfiniteLine;
  _hcursor2 : InfiniteLine;
  _sample_stream_count : nat
}.

(** [self._prev_displayed_mode != display_mode]. *)
Definition mode_differs (prev : option _DisplayMode) (mode : _DisplayMode) : bool :=
  match prev with
  | None => true
  | Some p => negb (_DisplayMode_eqb p mode)
  end.

(** Lines 1172-1177 for one horizontal cursor: its value, as a float64
    scalar, converted from the previous mode to the new one and set. *)
Definition convert_hcursor (c : InfiniteLine) (prev mode : _DisplayMode)
    (ref_50ohm ref_unit_amp : float64) : InfiniteLine :=
  setValue c (convert_elem (value c) prev mode ref_50ohm ref_unit_amp).

(** [_update_scatter_plot] (lines 1129-1183). *)
Definition _update_scatter_plot (v : State) : State :=
  match _last_displayed_sample_stream v with
  | None => v
  | Some m =>
      let display_mode := _y_display_mode v in
      let '(xs, c1, c2) :=
        _update_scatter_plot_cursors (length (sample m)) (sample_spacing_ps m)
          (_vcursor1 v) (_vcursor2 v) in
      let ys := _convert_y_to (sample m) S_N display_mode
                  (ref_50ohm m) (ref_unit_amp m) in
      let convert_h :=
        match mode_differs (_prev_displayed_mode v) display_mode,
              _prev_displayed_mode v with
        | true, Some prev => true
        | _, _ => false
        end in
      let prev := match _prev_displayed_mode v with
                  | Some p => p
                  | None => display_mode
                  end in
      {| _last_displayed_sample_stream := Some m;
         _last_x_as_array := Some xs;
         _last_y_as_array := Some ys;
         _y_display_mode := display_mode;
         _prev_displayed_sample_spacing_ps := Some (sample_spacing_ps m);
         _prev_displayed_pulse_period_ns := Some (pulse_period_ns m);
         _prev_displayed_mode := Some display_mode;
         _vcursor1 := c1;
         _vcursor2 := c2;
         _hcursor1 :=
           if convert_h
           then convert_hcursor (_hcursor1 v) prev display_mode
                  (ref_50ohm m) (ref_unit_amp m)
           else _hcursor1 v;
         _hcursor2 :=
           if convert_h
           then convert_hcursor (_hcursor2 v) prev display_mode
                  (ref_50ohm m) (ref_unit_amp m)
           else _hcursor2 v;
         _sample_stream_count := _sample_stream_count v |}
  end.

(** [self._y_display] given another mode, as the first line of
    [_on_display_select_changed] does before the plot is redrawn with
    [_update_scatter_plot]. *)
Definition with_display_mode (v : State) (mode : _DisplayMode) : State :=
  {| _last_displayed_sample_stream := _last_displayed_sample_stream v;
     _last_x_as_array := _last_x_as_array v;
     _last_y_as_array := _last_y_as_array v;
     _y_display_mode := mode;
     _prev_displayed_sample_spacing_ps := _prev_displayed_sample_spacing_ps v;
     _prev_displayed_pulse_period_ns := _prev_displayed_pulse_period_ns v;
     _prev_displayed_mode := _prev_displayed_mode v;
     _vcursor1 := _vcursor1 v;
     _vcursor2 := _vcursor2 v;
     _hcursor1 := _hcursor1 v;
     _hcursor2 := _hcursor2 v;
     _sample_stream_count := _sample_stream_count v |}.

(** The view as [__init__] and the reset of [_on_connect] leave it:
    nothing displayed, the display in Sn, the cursors where lines
    534-535 and 549-550 put them, hidden as their unchecked check boxes
    ask. *)
Definition initial : State :=
  {| _last_displayed_sample_stream := None;
     _last_x_as_array := None;
     _last_y_as_array := None;
     _y_display_mode := S_N;
     _prev_displayed_sample_spacing_ps := None;
     _prev_displayed_pulse_period_ns := None;
     _prev_displayed_mode := None;
     _vcursor1 := setVisible vcursor1_init false;
     _vcursor2 := setVisible vcursor2_init false;
     _hcursor1 := {| value := Fin (71 / 100)%R; maxRange := None; isVisible := false |};
     _hcursor2 := {| value := Fin (6 / 10)%R; maxRange := None; isVisible := false |};
     _sample_stream_count := 0 |}.

(** One message taken from the queue (lines 1190-1192). *)
Definition display (v : State) (m : SampleStream) : State :=
  _update_scatter_plot
    {| _last_displayed_sample_stream := Some m;
       _last_x_as_array := _last_x_as_array v;
       _last_y_as_array := _last_y_as_array v;
       _y_display_mode := _y_display_mode v;
       _prev_displayed_sample_spacing_ps := _prev_displayed_sample_spacing_ps v;
       _prev_displayed_pulse_period_ns := _prev_displayed_pulse_period_ns v;
       _prev_displayed_mode := _prev_displayed_mode v;
       _vcursor1 := _vcursor1 v;
       _vcursor2 := _vcursor2 v;
       _hcursor1 := _hcursor1 v;
       _hcursor2 := _hcursor2 v;
       _sample_stream_count := S (_sample_stream_count v) |}.

(** [_pop_sample_stream_queue] (lines 1185-1193): the loop
    [while True: if self._paused: return; try: get_nowait ... except
    queue.Empty: return], [fuel] bounding its iterations. *)
Fixpoint pop_loop (fuel : nat) (st : Ingest.State) (v : State)
    : Ingest.State * State :=
  match fuel with
  | O => (st, v)
  | S fuel' =>
      if _paused st then (st, v)
      else
        match HandoffQueue.get_nowait (_sample_stream_queue st) with
        | None => (st, v)
        | Some (m, q) =>
            pop_loop fuel' (with_queue st q (signals st)) (display v m)
        end
  end.

Definition _pop_sample_stream_queue (st : Ingest.State) (v : State)
    : Ingest.State * State :=
  pop_loop (S (length (_sample_stream_queue st))) st v.

(** [_on_clear_display] (lines 868-881): the queue is emptied, the
    buffered message and the displayed data are dropped.  The thread's
    counter is not touched. *)
Definition _on_clear_display (st : Ingest.State) (v : State)
    : Ingest.State * State :=
  let st1 := _clear_sample_stream_queue st in
  (with_accumulator st1 None (rx_count_for_avg_calc st1),
   {| _last_displayed_sample_stream := None;
      _last_x_as_array := None;
      _last_y_as_array := None;
      _y_display_mode := _y_display_mode v;
      _prev_displayed_sample_spacing_ps := _prev_displayed_sample_spacing_ps v;
      _prev_displayed_pulse_period_ns := _prev_displayed_pulse_period_ns v;
      _prev_displayed_mode := _prev_displayed_mode v;
      _vcursor1 := _vcursor1 v;
      _vcursor2 := _vcursor2 v;
      _hcursor1 := _hcursor1 v;
      _hcursor2 := _hcursor2 v;
      _sample_stream_count := _sample_stream_count v |}).

(** The vertical cursor readout of [_update_vcursor_readouts] for a
    cursor at [xq]. *)
Definition vcursor_readout (v : State) (log_scale : bool) (xq : float64) : readout :=
  y_at_x (_last_x_as_array v) (_last_y_as_array v) log_scale xq.

(** What can happen to the application between two steps of the
    sample-stream thread, and the steps themselves. *)
Inductive event : Type :=
| Received (m : SampleStream)
| AverageChanged (count : nat)
| PlayPause
| ClearDisplay
| FrameReady.

(** [None]: the sample-stream thread died on an exception. *)
Definition handle (a : Ingest.State * State) (e : event)
    : option (Ingest.State * State) :=
  let (st, v) := a in
  match e with
  | Received m =>
      if _connected st then
        match _radium_sample_stream_step st m with
        | Some st' => Some (st', v)
        | None => None
        end
      else Some (st, v)
  | AverageChanged count => Some (_on_waveform_average_changed st count, v)
  | PlayPause => Some (_on_play_pause_plot_updates st, v)
  | ClearDisplay => Some (_on_clear_display st v)
  | FrameReady => Some (_pop_sample_stream_queue st v)
  end.

Fixpoint run (a : Ingest.State * State) (es : list event)
    : option (Ingest.State * State) :=
  match es with
  | [] => Some a
  | e :: es' =>
      match handle a e with
      | Some a' => run a' es'
      | None => None
      end
  end.

(** An averaging factor the combo box offers. *)
Definition offered (count : nat) : Prop :=
  In count (map snd _waveform_average_map).

(** The events that change the averaging factor only to an offered one. *)
Definition admissible (e : event) : Prop :=
  match e with
  | AverageChanged count => offered count
  | _ => True
  end.

(** The accumulator never holds more messages than the averaging factor
    asks for, and the queue stays within its capacity. *)
Definition accumulator_ok (st : Ingest.State) : Prop :=
  1 <= _waveform_average_count st
  /\ (_buffered_sample_stream st = None
      \/ rx_count_for_avg_calc st < _waveform_average_count st)
  /\ length (_sample_stream_queue st) <= HandoffQueue.maxsize.

End View.

(** ** Connecting: [AppWindow._on_connect] *)
Module Connection.
Local Open Scope string_scope.

(** [s.split(sep)] for a one-character separator. *)
Fixpoint split (sep : ascii) (s : string) : list string :=
  match s with
  | EmptyString => [EmptyString]
  | String c s' =>
      if Ascii.eqb c sep then EmptyString :: split sep s'
      else
        match split sep s' with
        | h :: t => String c h :: t
        | [] => [String c EmptyString]
        end
  end.

(** [version_dict] (lines 627-633): the first four dot-separated parts
    of the version id, [""] for a missing one. *)
Definition version_part (id : string) (i : nat) : string :=
  nth i (split "." id) "".

(** The test of line 634 negated: [False] is the [ValueError]
    "Device version mismatch". *)
Definition version_supported (id : string) : bool :=
  negb (negb (String.eqb (version_part id 0) "0")
        && negb (String.eqb (version_part id 3) "dev")).

(** What the instrument answers during a connection attempt: [false]
    and [None] stand for a failed or timed-out request. *)
Record device : Type := mkDevice {
  nitrogen_is_ready : bool;
  version_id : option string;
  radium_is_ready : bool
}.

(** What [_on_connect] does to the outside, in order. *)
Inductive action : Type :=
| CancelListeners
| JoinThreads
| NitrogenIsReady
| GetVersionId
| RadiumIsReady
| ListenToStateEvent
| ListenToSampleStream
| ListenToLedState
| StartThreads.

(** Lines 603-612: the connection dependent state, reset whatever
    follows.  The averaging factor, the displayed message and the
    cursors are kept. *)
Definition reset_ingest (st : Ingest.State) : Ingest.State :=
  {| Ingest._connected := false;
     Ingest._paused := false;
     Ingest._buffered_sample_stream := None;
     Ingest.rx_count_for_avg_calc := 0;
     Ingest._waveform_average_count := Ingest._waveform_average_count st;
     Ingest._sample_stream_queue := HandoffQueue.empty;
     Ingest.signals := 0 |}.

Definition reset_view (v : View.State) : View.State :=
  {| View._last_displayed_sample_stream := View._last_displayed_sample_stream v;
     View._last_x_as_array := View._last_x_as_array v;
     View._last_y_as_array := View._last_y_as_array v;
     View._y_display_mode := View._y_display_mode v;
     View._prev_displayed_sample_spacing_ps := None;
     View._prev_displayed_pulse_period_ns := None;
     View._prev_displayed_mode := None;
     View._vcursor1 := View._vcursor1 v;
     View._vcursor2 := View._vcursor2 v;
     View._hcursor1 := View._hcursor1 v;
     View._hcursor2 := View._hcursor2 v;
     View._sample_stream_count := 0 |}.

Definition set_connected (st : Ingest.State) : Ingest.State :=
  {| Ingest._connected := true;
     Ingest._paused := false;
     Ingest._buffered_sample_stream := Ingest._buffered_sample_stream st;
     Ingest.rx_count_for_avg_calc := Ingest.rx_count_for_avg_calc st;
     Ingest._waveform_average_count := Ingest._waveform_average_count st;
     Ingest._sample_stream_queue := Ingest._sample_stream_queue st;
     Ingest.signals := Ingest.signals st |}.

(** The outcome of [_on_connect]: what was done, the state left, the
    flag [_running] and the value returned. *)
Record outcome : Type := mkOutcome {
  actions : list action;
  ingest : Ingest.State;
  view : View.State;
  _running : bool;
  returned : bool
}.

(** Lines 624-648: the [try] block, up to the first failure. *)
Definition attempt (dev : device) : list action * bool :=
  if nitrogen_is_ready dev then
    match version_id dev with
    | None => ([NitrogenIsReady; GetVersionId], false)
    | Some id =>
        if version_supported id then
          if radium_is_ready dev then
            ([NitrogenIsReady; GetVersionId; RadiumIsReady;
              ListenToStateEvent; ListenToSampleStream; ListenToLedState],
             true)
          else ([NitrogenIsReady; GetVersionId; RadiumIsReady], false)
        else ([NitrogenIsReady; GetVersionId], false)
    end
  else ([NitrogenIsReady], false).

(** [_on_connect] (lines 585-674). *)
Definition _on_connect (st : Ingest.State) (v : View.State) (ip : string)
    (dev : device) : outcome :=
  let teardown :=
    if Ingest._connected st then [CancelListeners; JoinThreads] else [] in
  let st0 := reset_ingest st in
  let v0 := reset_view v in
  if String.eqb ip "" then
    {| actions := teardown; ingest := st0; view := v0;
       _running := false; returned := false |}
  else
    let (done, ok) := attempt dev in
    if ok then
      {| actions := teardown ++ done ++ [StartThreads];
         ingest := set_connected st0; view := v0;
         _running := true; returned := true |}
    else
      {| actions := teardown ++ done; ingest := st0; view := v0;
         _running := false; returned := false |}.

End Connection.

(** ** The tool wrapper: [MTDRMCPServer.get_one_sample_stream] *)
Module Tools.
Import Ingest.

(** [round(x, 1)] on a float, in the exact arithmetic of [Float64]: the
    nearest multiple of one tenth, ties to the even one (Python returns
    the float64 nearest to that multiple); infinities and NaN are
    returned as they are. *)
Definition round_half_even_R (a : R) : Z :=
  let n := Int_part a in
  let f := frac_part a in
  if Rlt_dec f (1 / 2) then n
  else if Rlt_dec (1 / 2) f then (n + 1)%Z
  else if Z.even n then n else (n + 1)%Z.

Definition round1 (x : float64) : float64 :=
  match x with
  | Fin a => Fin (IZR (round_half_even_R (10 * a)) / 10)
  | _ => x
  end.

(** The built-in [min] and [max] over a non-empty sequence: the first
    element, replaced by each later one that compares smaller (larger). *)
Definition builtin_min (first : float64) (rest : list float64) : float64 :=
  fold_left Cursor.py_min rest first.
Definition builtin_max (first : float64) (rest : list float64) : float64 :=
  fold_left Cursor.py_max rest first.

(** [sum(xs)]: starts from the integer 0. *)
Definition builtin_sum (xs : list float64) : float64 :=
  fold_left fadd xs (Fin 0).

Record summary : Type := mkSummary {
  smin : float64;
  smax : float64;
  smean : float64
}.

(** The dictionary returned; [summary = None] stands for the three
    [None] entries, [samples = None] for the absent key. *)
Record reply : Type := mkReply {
  count : nat;
  stats : option summary;
  reply_sample_spacing_ps : float64;
  reply_pulse_period_ns : float64;
  reply_ref_50ohm : float64;
  reply_ref_unit_amp : float64;
  samples : option (list float64)
}.

(** [get_one_sample_stream] once [next] has delivered [msg]
    (lines 143-172). *)
Definition get_one_sample_stream (msg : SampleStream) (include_samples : bool)
    (max_samples : nat) : reply :=
  match sample msg with
  | [] =>
      {| count := 0; stats := None;
         reply_sample_spacing_ps := sample_spacing_ps msg;
         reply_pulse_period_ns := pulse_period_ns msg;
         reply_ref_50ohm := ref_50ohm msg;
         reply_ref_unit_amp := ref_unit_amp msg;
         samples := None |}
  | x :: xs =>
      let n := length (sample msg) in
      {| count := n;
         stats := Some {| smin := builtin_min x xs;
                          smax := builtin_max x xs;
                          smean := fdiv (builtin_sum (sample msg)) (of_nat n) |};
         reply_sample_spacing_ps := sample_spacing_ps msg;
         reply_pulse_period_ns := pulse_period_ns msg;
         reply_ref_50ohm := ref_50ohm msg;
         reply_ref_unit_amp := ref_unit_amp msg;
         samples := if include_samples then Some (map round1 (sample msg))
                    else None |}
  end.

End Tools.

(** ** The TDR preset combo: [AppWindow._on_tdr_preset_changed] *)
Module PresetCombo.
Import Preset.
Local Open Scope string_scope.

(** [self._tdr_cfg_preset_map], in insertion order. *)
Definition _tdr_cfg_preset_map : list (string * option TDRConfigurationPreset) :=
  [ ("--", None);
    ("Custom", None);
    ("3.2ns/0.2ps", Some TDR_CONFIGURATION_PRESET_PULSE_PERIOD_3P2_NS_SAMPLE_SPACING_0P2_PS);
    ("6.4ns/0.4ps", Some TDR_CONFIGURATION_PRESET_PULSE_PERIOD_6P4_NS_SAMPLE_SPACING_0P4_PS);
    ("12.8ns/0.8ps", Some TDR_CONFIGURATION_PRESET_PULSE_PERIOD_12P8_NS_SAMPLE_SPACING_0P8_PS);
    ("16.0ns/1.0ps", Some TDR_CONFIGURATION_PRESET_PULSE_PERIOD_16P0_NS_SAMPLE_SPACING_1P0_PS);
    ("32.0ns/2.0ps", Some TDR_CONFIGURATION_PRESET_PULSE_PERIOD_32P0_NS_SAMPLE_SPACING_2P0_PS);
    ("64.0ns/4.0ps", Some TDR_CONFIGURATION_PRESET_PULSE_PERIOD_64P0_NS_SAMPLE_SPACING_4P0_PS);
    ("80.0ns/5.0ps", Some TDR_CONFIGURATION_PRESET_PULSE_PERIOD_80P0_NS_SAMPLE_SPACING_5P0_PS);
    ("128.0ns/8.0ps", Some TDR_CONFIGURATION_PRESET_PULSE_PERIOD_128P0_NS_SAMPLE_SPACING_8P0_PS);
    ("160.0ns/10.0ps", Some TDR_CONFIGURATION_PRESET_PULSE_PERIOD_160P0_NS_SAMPLE_SPACING_10P0_PS);
    ("16.0ns/50.0ps", Some TDR_CONFIGURATION_PRESET_PULSE_PERIOD_16P0_NS_SAMPLE_SPACING_50P0_PS);
    ("16.0ns/100.0ps", Some TDR_CONFIGURATION_PRESET_PULSE_PERIOD_16P0_NS_SAMPLE_SPACING_100P0_PS) ].

(** [d.get(k)] on a dictionary whose values may be [None]. *)
Definition get (d : list (string * option TDRConfigurationPreset)) (k : string)
    : option TDRConfigurationPreset :=
  match lookup d k with
  | Some v => v
  | None => None
  end.

(** [_on_tdr_preset_changed] (lines 766-775): the requests sent. *)
Definition _on_tdr_preset_changed (_connected : bool) (preset_name : string)
    : list rpc :=
  if negb _connected then []
  else
    match get _tdr_cfg_preset_map preset_name with
    | Some preset_enum => [ConfigureTDRPreset preset_enum]
    | None => []
    end.

End PresetCombo.

(** ** The service browser: [ServiceBrowserDialog] *)
Module Browser.
Local Open Scope string_scope.

(** A dictionary value of a service entry: a string, or the integer
    port of a discovered service. *)
Inductive value : Type :=
| Str (s : string)
| Int (n : Z).

Definition value_eqb (a b : value) : bool :=
  match a, b with
  | Str s, Str t => String.eqb s t
  | Int n, Int m => Z.eqb n m
  | _, _ => false
  end.

(** A service entry: the dictionary with the five keys ["name"],
    ["host"], ["ip"], ["port"] and ["txt"] built in [MDNSWorker.refresh]
    and in [_populate]. *)
Record service : Type := mkService {
  name : string;
  host : string;
  ip : string;
  port : value;
  txt : string
}.

(** [entry[key]]; [None] is the [KeyError]. *)
Definition getitem (entry : service) (key : string) : option value :=
  if String.eqb key "name" then Some (Str (name entry))
  else if String.eqb key "host" then Some (Str (host entry))
  else if String.eqb key "ip" then Some (Str (ip entry))
  else if String.eqb key "port" then Some (port entry)
  else if String.eqb key "txt" then Some (Str (txt entry))
  else None.

(** [merged[key]["name"] += ' | ' + entry["name"]]. *)
Definition append_name (e : service) (n : string) : service :=
  {| name := name e ++ " | " ++ n;
     host := host e; ip := ip e; port := port e; txt := txt e |}.

(** One iteration of the loop of [_trim_service_list] on the
    dictionary [merged], kept in insertion order. *)
Fixpoint merge_entry (merged : list (value * service)) (key : value)
    (entry : service) : list (value * service) :=
  match merged with
  | [] => [(key, entry)]
  | (k, e) :: rest =>
      if value_eqb k key then
        (k, match name entry with
            | EmptyString => e
            | _ => append_name e (name entry)
            end) :: rest
      else (k, e) :: merge_entry rest key entry
  end.

Fixpoint trim_loop (merged : list (value * service))
    (service_list : list service) (trim_by_key : string)
    : option (list (value * service)) :=
  match service_list with
  | [] => Some merged
  | entry :: rest =>
      match getitem entry trim_by_key with
      | None => None
      | Some key => trim_loop (merge_entry merged key entry) rest trim_by_key
      end
  end.

(** [_trim_service_list] (lines 173-182). *)
Definition _trim_service_list (service_list : list service)
    (trim_by_key : string) : option (list service) :=
  option_map (map snd) (trim_loop [] service_list trim_by_key).

(** The entry [_populate] makes of a manually entered address. *)
Definition manual_entry (address : string) : service :=
  {| name := ""; host := ""; ip := address; port := Str ""; txt := "" |}.

(** The fields of the dialog [_populate] and [_on_add_entry] use, and
    the rows of the table. *)
Record State : Type := mkDialog {
  _prev_auto_discovered_services : list service;
  _manual_entry_services : list string;
  rows : list service
}.

(** [_populate] (lines 184-216): the rows shown. *)
Definition _populate (d : State) (auto_discovered_services : list service)
    : option State :=
  let all_services :=
    (auto_discovered_services ++ map manual_entry (_manual_entry_services d))%list in
  match _trim_service_list all_services "ip" with
  | None => None
  | Some all_services' =>
      Some {| _prev_auto_discovered_services := auto_discovered_services;
              _manual_entry_services := _manual_entry_services d;
              rows := all_services' |}
  end.

(** [_on_add_entry] (lines 244-249) with the text and the button of
    the input dialog. *)
Definition _on_add_entry (d : State) (address : string) (ok : bool)
    : option State :=
  if ok && negb (String.eqb address "") then
    _populate
      {| _prev_auto_discovered_services := _prev_auto_discovered_services d;
         _manual_entry_services := (_manual_entry_services d ++ [address])%list;
         rows := rows d |}
      (_prev_auto_discovered_services d)
  else Some d.

(** Every key of [merged] is the address of its entry, as it is while
    [_trim_service_list] trims by ["ip"]. *)
Definition keyed_by_ip (merged : list (value * service)) : Prop :=
  Forall (fun ke => fst ke = Str (ip (snd ke))) merged.

(** A dialog with one discovered instrument and one address entered by
    hand. *)
Definition dialog_demo : State :=
  {| _prev_auto_discovered_services :=
       [ {| name := "mtdr"; host := "mtdr.local."; ip := "192.168.1.92";
            port := Int 50052; txt := "" |} ];
     _manual_entry_services := ["10.0.0.7"];
     rows := [] |}.

(** The first occurrences of the elements of a list, in order. *)
Fixpoint first_occurrences (seen l : list string) : list string :=
  match l with
  | [] => []
  | x :: l' =>
      if existsb (String.eqb x) seen then first_occurrences seen l'
      else x :: first_occurrences (x :: seen) l'
  end.

End Browser.

(** ** The zoom axis: [_update_zoom_mode], [keyPressEvent],
    [keyReleaseEvent] *)
Module Zoom.
Local Open Scope string_scope.

(** The two zoom check boxes and the two fields of [AppWindow]. *)
Record State : Type := mkZoom {
  zoom_x_checked : bool;
  zoom_y_checked : bool;
  _zoom_axis : string;
  _zoom_axis_store : string
}.

(** The state the constructor leaves (lines 190-191, 509-510). *)
Definition initial : State :=
  {| zoom_x_checked := true; zoom_y_checked := true;
     _zoom_axis := "both"; _zoom_axis_store := "both" |}.

(** [_update_zoom_mode] (lines 1215-1221). *)
Definition _update_zoom_mode (st : State) : State :=
  let x := zoom_x_checked st in
  let y := zoom_y_checked st in
  {| zoom_x_checked := x; zoom_y_checked := y;
     _zoom_axis := if x && negb y then "x"
                   else if y && negb x then "y"
                   else if y && x then "both"
                   else "none";
     _zoom_axis_store := _zoom_axis_store st |}.

(** [QCheckBox.setChecked]: when the state changes, [stateChanged] is
    emitted and its slot [_update_zoom_mode] runs at once. *)
Definition setChecked_x (st : State) (b : bool) : State :=
  if Bool.eqb (zoom_x_checked st) b then st
  else _update_zoom_mode
         {| zoom_x_checked := b; zoom_y_checked := zoom_y_checked st;
            _zoom_axis := _zoom_axis st;
            _zoom_axis_store := _zoom_axis_store st |}.

Definition setChecked_y (st : State) (b : bool) : State :=
  if Bool.eqb (zoom_y_checked st) b then st
  else _update_zoom_mode
         {| zoom_x_checked := zoom_x_checked st; zoom_y_checked := b;
            _zoom_axis := _zoom_axis st;
            _zoom_axis_store := _zoom_axis_store st |}.

(** A click of the user on a check box. *)
Definition click_x (st : State) : State := setChecked_x st (negb (zoom_x_checked st)).
Definition click_y (st : State) : State := setChecked_y st (negb (zoom_y_checked st)).

Inductive key : Type :=
| Key_X
| Key_Y
| Key_Shift
| Key_other.

(** The first two statements of each branch of [keyPressEvent]. *)
Definition store_and_set (st : State) (axis : string) : State :=
  {| zoom_x_checked := zoom_x_checked st; zoom_y_checked := zoom_y_checked st;
     _zoom_axis := axis; _zoom_axis_store := _zoom_axis st |}.

(** [keyPressEvent] (lines 1307-1330). *)
Definition keyPressEvent (st : State) (k : key) : State :=
  match k with
  | Key_X => setChecked_y (setChecked_x (store_and_set st "x") true) false
  | Key_Y => setChecked_y (setChecked_x (store_and_set st "y") false) true
  | Key_Shift => setChecked_y (setChecked_x (store_and_set st "both") true) true
  | Key_other => st
  end.

(** [keyReleaseEvent] (lines 1333-1345). *)
Definition keyReleaseEvent (st : State) (k : key) : State :=
  match k with
  | Key_other => st
  | _ =>
      let st1 := {| zoom_x_checked := zoom_x_checked st;
                    zoom_y_checked := zoom_y_checked st;
                    _zoom_axis := _zoom_axis_store st;
                    _zoom_axis_store := _zoom_axis_store st |} in
      if String.eqb (_zoom_axis st1) "none"
      then setChecked_y (setChecked_x st1 false) false
      else if String.eqb (_zoom_axis st1) "x"
      then setChecked_y (setChecked_x st1 true) false
      else if String.eqb (_zoom_axis st1) "y"
      then setChecked_y (setChecked_x st1 false) true
      else setChecked_y (setChecked_x st1 true) true
  end.

(** The check boxes and [_zoom_axis] agree. *)
Definition consistent (st : State) : Prop :=
  _zoom_axis st = _zoom_axis (_update_zoom_mode st).

(** What the user can do. *)
Inductive input : Type :=
| ClickX
| ClickY
| Press (k : key)
| Release (k : key).

Definition react (st : State) (i : input) : State :=
  match i with
  | ClickX => click_x st
  | ClickY => click_y st
  | Press k => keyPressEvent st k
  | Release k => keyReleaseEvent st k
  end.

End Zoom.

(* ================================================================== *)
(** * Part II - properties                                             *)
(* ================================================================== *)

(** ** The hand-off queue *)
Section QueueFacts.
Context {A : Type}.
Implicit Types (q : HandoffQueue.t A) (x : A) (l : list A).

Lemma put_nowait_room q x :
  length q < HandoffQueue.maxsize ->
  HandoffQueue.put_nowait q x = Some (q ++ [x]).
Proof.
  intros H. unfold HandoffQueue.put_nowait.
  apply Nat.ltb_lt in H. now rewrite H.
Qed.

Lemma put_nowait_full q x :
  HandoffQueue.maxsize <= length q ->
  HandoffQueue.put_nowait q x = None.
Proof.
  intros H. unfold HandoffQueue.put_nowait.
  apply Nat.ltb_ge in H. now rewrite H.
Qed.

Lemma push_room q x :
  length q < HandoffQueue.maxsize -> HandoffQueue.push q x = q ++ [x].
Proof.
  intros H. unfold HandoffQueue.push. now rewrite put_nowait_room.
Qed.

Lemma push_full q x :
  HandoffQueue.maxsize <= length q -> HandoffQueue.push q x = q.
Proof.
  intros H. unfold HandoffQueue.push. now rewrite put_nowait_full.
Qed.

(** Pushing never reorders or removes what is queued. *)
Lemma push_prefix q x : exists tl, HandoffQueue.push q x = q ++ tl.
Proof.
  destruct (Nat.lt_ge_cases (length q) HandoffQueue.maxsize) as [H | H].
  - exists [x]. now apply push_room.
  - exists []. rewrite app_nil_r. now apply push_full.
Qed.

Lemma push_length_le q x :
  length q <= HandoffQueue.maxsize ->
  length (HandoffQueue.push q x) <= HandoffQueue.maxsize.
Proof.
  intros H.
  destruct (Nat.lt_ge_cases (length q) HandoffQueue.maxsize) as [Hlt | Hge].
  - rewrite push_room by assumption. rewrite length_app. cbn. lia.
  - now rewrite push_full.
Qed.

Lemma fold_push_room l : forall q,
  length q + length l <= HandoffQueue.maxsize ->
  fold_left HandoffQueue.push l q = q ++ l.
Proof.
  induction l as [| x l IH]; intros q H; cbn [fold_left].
  - now rewrite app_nil_r.
  - cbn [length] in H. rewrite push_room by lia.
    rewrite IH.
    + now rewrite <- app_assoc.
    + rewrite length_app. cbn. lia.
Qed.

Lemma drain_fuel_all : forall fuel q,
  length q < fuel -> HandoffQueue.drain_fuel fuel q = (q, []).
Proof.
  induction fuel as [| fuel IH]; intros q H; [lia |].
  destruct q as [| x q]; cbn; [reflexivity |].
  cbn in H. rewrite IH by lia. reflexivity.
Qed.

(** The drain loop terminates with the queue empty and yields the
    queued items oldest first. *)
Lemma drain_all q : HandoffQueue.drain q = (q, []).
Proof. unfold HandoffQueue.drain. apply drain_fuel_all. lia. Qed.

(** Offering [maxsize + 1] items to the empty queue with the producer's
    non-blocking push: the first [maxsize] are queued, the last [put]
    meets [queue.Full] and leaves the queue as it was, and draining
    yields the first [maxsize] items in the order they were offered. *)
Lemma queue_overflow l x :
  length l = HandoffQueue.maxsize ->
  fold_left HandoffQueue.push l HandoffQueue.empty = l
  /\ HandoffQueue.put_nowait l x = None
  /\ fold_left HandoffQueue.push (l ++ [x]) HandoffQueue.empty = l
  /\ HandoffQueue.drain
       (fold_left HandoffQueue.push (l ++ [x]) HandoffQueue.empty) = (l, []).
Proof.
  intros Hlen.
  assert (Hl : fold_left HandoffQueue.push l HandoffQueue.empty = l).
  { unfold HandoffQueue.empty. rewrite fold_push_room; [reflexivity |].
    cbn. lia. }
  assert (Hx : fold_left HandoffQueue.push (l ++ [x]) HandoffQueue.empty = l).
  { rewrite fold_left_app, Hl. cbn. apply push_full. lia. }
  repeat split.
  - exact Hl.
  - apply put_nowait_full. lia.
  - exact Hx.
  - rewrite Hx. apply drain_all.
Qed.

End QueueFacts.

(** ** float64 arithmetic *)
Section FloatFacts.
Local Open Scope R_scope.

Lemma Reqb_true a b : a = b -> Reqb a b = true.
Proof. intros H. unfold Reqb. now destruct (Req_dec_T a b). Qed.

Lemma Reqb_false a b : a <> b -> Reqb a b = false.
Proof. intros H. unfold Reqb. now destruct (Req_dec_T a b). Qed.

Lemma Rltb_true a b : a < b -> Rltb a b = true.
Proof. intros H. unfold Rltb. now destruct (Rlt_dec a b). Qed.

Lemma Rltb_false a b : b <= a -> Rltb a b = false.
Proof. intros H. unfold Rltb. destruct (Rlt_dec a b); [lra | reflexivity]. Qed.

Lemma Rleb_true a b : a <= b -> Rleb a b = true.
Proof. intros H. unfold Rleb. now destruct (Rle_dec a b). Qed.

Lemma Rleb_false a b : b < a -> Rleb a b = false.
Proof. intros H. unfold Rleb. destruct (Rle_dec a b); [lra | reflexivity]. Qed.

Lemma INR_S_neq_0 n : INR (S n) <> 0.
Proof. apply not_0_INR. discriminate. Qed.

Lemma feqb_refl x : isnan x = false -> feqb x x = true.
Proof. destruct x; cbn; intros H; try easy. now apply Reqb_true. Qed.

Lemma fdiv_Fin a b : b <> 0 -> fdiv (Fin a) (Fin b) = Fin (a / b).
Proof. intros H. cbn. now rewrite Reqb_false. Qed.

(** NaN absorbs every arithmetic operation. *)
Lemma fadd_NaN_l y : fadd NaN y = NaN.
Proof. reflexivity. Qed.
Lemma fadd_NaN_r x : fadd x NaN = NaN.
Proof. now destruct x. Qed.
Lemma fsub_NaN_l y : fsub NaN y = NaN.
Proof. reflexivity. Qed.
Lemma fsub_NaN_r x : fsub x NaN = NaN.
Proof. now destruct x. Qed.
Lemma fmul_NaN_l y : fmul NaN y = NaN.
Proof. reflexivity. Qed.
Lemma fmul_NaN_r x : fmul x NaN = NaN.
Proof. now destruct x. Qed.
Lemma fdiv_NaN_l y : fdiv NaN y = NaN.
Proof. reflexivity. Qed.
Lemma fdiv_NaN_r x : fdiv x NaN = NaN.
Proof. now destruct x. Qed.

End FloatFacts.

(** Evaluation of comparisons between concrete reals. *)
Ltac float_step :=
  match goal with
  | |- context [Reqb ?a ?b] =>
      first [ rewrite (Reqb_true a b) by lra | rewrite (Reqb_false a b) by lra ]
  | |- context [Rltb ?a ?b] =>
      first [ rewrite (Rltb_true a b) by lra | rewrite (Rltb_false a b) by lra ]
  | |- context [Rleb ?a ?b] =>
      first [ rewrite (Rleb_true a b) by lra | rewrite (Rleb_false a b) by lra ]
  end.
Ltac float_eval := cbn; repeat (float_step; cbn).

(** ** Ingestion and averaging *)
Section IngestFacts.
Import Ingest.

Lemma zip_with_length {A B C} (h : A -> B -> C) : forall a b,
  length a = length b -> length (Numpy.zip_with h a b) = length a.
Proof.
  induction a as [| x a IH]; intros [| y b] H; cbn in *; try lia.
  rewrite IH; lia.
Qed.

Lemma add_same_length a b :
  length a = length b -> Numpy.add a b = Some (Numpy.zip_with fadd a b).
Proof.
  intros H. unfold Numpy.add. now rewrite H, Nat.eqb_refl.
Qed.

Lemma accumulate_fresh buffered count f :
  buffered = None \/ count = 0 -> accumulate buffered count f = Some (f, 1).
Proof.
  unfold accumulate. intros [-> | ->]; [reflexivity |]. now destruct buffered.
Qed.

Lemma accumulate_same_epoch b s count g :
  count <> 0 -> same_epoch b g = true -> length s = length (sample g) ->
  accumulate (Some (set_sample b s)) count g
  = Some (set_sample b (Numpy.zip_with fadd s (sample g)), S count).
Proof.
  intros Hc He Hl. unfold accumulate. apply Nat.eqb_neq in Hc. rewrite Hc.
  change (same_epoch (set_sample b s) g) with (same_epoch b g). rewrite He.
  cbn [sample set_sample]. now rewrite add_same_length.
Qed.

(** The branch of lines 750-752: the epoch test fails while a sum is
    being accumulated. *)
Lemma accumulate_other_epoch b count g :
  count <> 0 -> same_epoch b g = false ->
  accumulate (Some b) count g = Some (g, 0).
Proof.
  intros Hc He. unfold accumulate. apply Nat.eqb_neq in Hc. now rewrite Hc, He.
Qed.

Lemma emit_queue st avg :
  _sample_stream_queue (emit st avg) = HandoffQueue.push (_sample_stream_queue st) avg.
Proof.
  unfold emit, HandoffQueue.push. now destruct HandoffQueue.put_nowait.
Qed.

Lemma emit_fields st avg :
  _connected (emit st avg) = _connected st
  /\ _paused (emit st avg) = _paused st
  /\ _buffered_sample_stream (emit st avg) = Some avg
  /\ rx_count_for_avg_calc (emit st avg) = 0
  /\ _waveform_average_count (emit st avg) = _waveform_average_count st.
Proof. unfold emit. now destruct HandoffQueue.put_nowait. Qed.

(** While the counter stays below the averaging factor, matching
    messages are only added into the buffered message: nothing is put
    on the queue and no signal is emitted. *)
Lemma run_accumulating f : forall rest st s,
  _connected st = true -> _paused st = false ->
  _buffered_sample_stream st = Some (set_sample f s) ->
  length s = length (sample f) ->
  rx_count_for_avg_calc st <> 0 ->
  rx_count_for_avg_calc st + length rest < _waveform_average_count st ->
  Forall (joins f) rest ->
  _radium_sample_stream st rest
  = Some (with_accumulator st (Some (set_sample f (sum_into s rest)))
            (rx_count_for_avg_calc st + length rest)).
Proof.
  induction rest as [| g rest IH]; intros st s Hc Hp Hb Hs Hk Hn HF.
  - cbn. destruct st; cbn in *. subst. now rewrite Nat.add_0_r.
  - inversion HF as [| ? ? [He Hg] HF']; subst. cbn [length] in Hn.
    cbn [_radium_sample_stream]. rewrite Hc. unfold _radium_sample_stream_step.
    rewrite Hp, Hb, accumulate_same_epoch by congruence.
    destruct (Nat.eqb_spec (S (rx_count_for_avg_calc st))
                (_waveform_average_count st)) as [E | _]; [lia |].
    rewrite IH with (s := Numpy.zip_with fadd s (sample g)); cbn; try easy.
    + now rewrite Nat.add_succ_r.
    + rewrite zip_with_length; congruence.
    + lia.
Qed.

(** The matching messages that complete the factor: the last of them
    makes the thread emit the average. *)
Lemma run_completing f : forall rest st s,
  _connected st = true -> _paused st = false ->
  _buffered_sample_stream st = Some (set_sample f s) ->
  length s = length (sample f) ->
  rx_count_for_avg_calc st <> 0 ->
  rest <> [] ->
  rx_count_for_avg_calc st + length rest = _waveform_average_count st ->
  Forall (joins f) rest ->
  _radium_sample_stream st rest
  = Some (emit st (averaged (set_sample f (sum_into s rest))
                     (_waveform_average_count st))).
Proof.
  induction rest as [| g rest IH]; intros st s Hc Hp Hb Hs Hk Hne Hn HF;
    [congruence |].
  inversion HF as [| ? ? [He Hg] HF']; subst. cbn [length] in Hn.
  cbn [_radium_sample_stream]. rewrite Hc. unfold _radium_sample_stream_step.
  rewrite Hp, Hb, accumulate_same_epoch by congruence.
  destruct rest as [| g' rest].
  - cbn [length] in Hn. rewrite Nat.add_1_r in Hn.
    rewrite Hn, Nat.eqb_refl. reflexivity.
  - destruct (Nat.eqb_spec (S (rx_count_for_avg_calc st))
                (_waveform_average_count st)) as [E | _];
      [cbn [length] in Hn; lia |].
    rewrite IH with (s := Numpy.zip_with fadd s (sample g)); cbn; try easy.
    + rewrite zip_with_length; congruence.
    + cbn in Hn. lia.
Qed.

(** A whole averaging window, from a state in which no accumulation is
    in progress: [f] starts it, the messages of [rest] join it, and the
    averaging factor is their number. *)
Lemma run_window st f rest :
  _connected st = true -> _paused st = false ->
  _buffered_sample_stream st = None \/ rx_count_for_avg_calc st = 0 ->
  _waveform_average_count st = S (length rest) ->
  Forall (joins f) rest ->
  _radium_sample_stream st (f :: rest) = Some (emit st (mean_of f rest)).
Proof.
  intros Hc Hp Hfresh Hn HF.
  cbn [_radium_sample_stream]. rewrite Hc. unfold _radium_sample_stream_step.
  rewrite Hp, accumulate_fresh by exact Hfresh.
  destruct rest as [| g rest].
  - rewrite Hn. cbn. reflexivity.
  - destruct (Nat.eqb_spec 1 (_waveform_average_count st)) as [E | _];
      [cbn in Hn; lia |].
    destruct f as [fs f1 f2 f3 f4].
    rewrite run_completing
      with (f := mkSampleStream fs f1 f2 f3 f4) (s := fs); cbn; try easy.
    unfold mean_of. rewrite Hn. reflexivity.
Qed.

(** Before the window is complete nothing reaches the queue. *)
Lemma run_window_prefix st f rest k :
  _connected st = true -> _paused st = false ->
  _buffered_sample_stream st = None \/ rx_count_for_avg_calc st = 0 ->
  _waveform_average_count st = S (length rest) ->
  Forall (joins f) rest ->
  k <= length rest ->
  exists stk,
    _radium_sample_stream st (firstn k (f :: rest)) = Some stk
    /\ _sample_stream_queue stk = _sample_stream_queue st
    /\ signals stk = signals st
    /\ rx_count_for_avg_calc stk = (if Nat.eqb k 0 then rx_count_for_avg_calc st else k).
Proof.
  intros Hc Hp Hfresh Hn HF Hk.
  destruct k as [| k].
  - exists st. cbn. auto.
  - rewrite firstn_cons. cbn [_radium_sample_stream]. rewrite Hc.
    unfold _radium_sample_stream_step.
    rewrite Hp, accumulate_fresh by exact Hfresh.
    destruct (Nat.eqb_spec 1 (_waveform_average_count st)) as [E | _]; [lia |].
    destruct f as [fs f1 f2 f3 f4].
    assert (HF' : Forall (joins (mkSampleStream fs f1 f2 f3 f4)) (firstn k rest)).
    { rewrite <- (firstn_skipn k rest) in HF.
      apply Forall_app in HF. tauto. }
    assert (Hlen : length (firstn k rest) = k) by (rewrite length_firstn; lia).
    rewrite run_accumulating
      with (f := mkSampleStream fs f1 f2 f3 f4) (s := fs); cbn; try easy.
    + eexists. split; [reflexivity |]. cbn. now rewrite Hlen.
    + lia.
Qed.

End IngestFacts.

Section AveragingClaims.
Import Ingest.

Lemma times_Fin n r : times n (Fin r) = Fin (r * INR (S n))%R.
Proof.
  induction n as [| n IH].
  - cbn. f_equal. lra.
  - cbn [times]. rewrite IH. cbn [fadd]. f_equal.
    rewrite (S_INR (S n)). ring.
Qed.

Lemma times_PInf n : times n PInf = PInf.
Proof. induction n as [| n IH]; cbn [times]; [| rewrite IH]; reflexivity. Qed.

Lemma times_NInf n : times n NInf = NInf.
Proof. induction n as [| n IH]; cbn [times]; [| rewrite IH]; reflexivity. Qed.

Lemma times_NaN n : times n NaN = NaN.
Proof. induction n as [| n IH]; cbn [times]; [| rewrite IH]; reflexivity. Qed.

(** The sum of [n + 1] copies of a value divided by [n + 1] is the
    value (exact arithmetic). *)
Lemma times_div n x : fdiv (times n x) (of_nat (S n)) = x.
Proof.
  pose proof (INR_S_neq_0 n) as Hn.
  pose proof (pos_INR (S n)) as Hpos.
  unfold of_nat. destruct x as [r | | |].
  - rewrite times_Fin, fdiv_Fin by exact Hn. f_equal. now field.
  - rewrite times_PInf. cbn. now rewrite Rltb_false.
  - rewrite times_NInf. cbn. now rewrite Rltb_false.
  - now rewrite times_NaN.
Qed.

Lemma zip_with_times k : forall xs,
  Numpy.zip_with fadd (map (times k) xs) xs = map (times (S k)) xs.
Proof.
  induction xs as [| x xs IH]; cbn [map Numpy.zip_with]; [reflexivity |].
  now rewrite IH.
Qed.

Lemma sum_into_copies xs : forall rest k,
  Forall (fun g => sample g = xs) rest ->
  sum_into (map (times k) xs) rest = map (times (k + length rest)) xs.
Proof.
  induction rest as [| g rest IH]; intros k HF; cbn [sum_into fold_left length].
  - now rewrite Nat.add_0_r.
  - inversion HF as [| ? ? Hg HF']; subst.
    rewrite zip_with_times. fold (sum_into (map (times (S k)) (sample g)) rest).
    rewrite IH by exact HF'. now rewrite Nat.add_succ_r.
Qed.

(** Averaging identical messages gives back their samples. *)
Lemma mean_of_copies f rest :
  Forall (fun g => g = f) rest -> sample (mean_of f rest) = sample f.
Proof.
  intros HF. unfold mean_of, averaged, Numpy.div_int. cbn [sample set_sample].
  assert (H0 : sample f = map (times 0) (sample f)).
  { cbn [times]. now rewrite map_id. }
  rewrite H0 at 1. rewrite sum_into_copies.
  - rewrite map_map. cbn [Nat.add]. rewrite <- (map_id (sample f)) at 2.
    apply map_ext. intros x. apply times_div.
  - eapply Forall_impl; [| exact HF]. now intros g ->.
Qed.

(** Averaging factor 2, two messages of one epoch with reference
    levels 0 and 5: the message put on the queue carries the reference
    level of the first message, not that of the most recent one. *)
Lemma averaged_metadata_not_most_recent :
  option_map _sample_stream_queue
    (_radium_sample_stream (_on_connect 2) [msg_first; msg_last])
  = Some [mean_of msg_first [msg_last]]
  /\ sample (mean_of msg_first [msg_last]) = [Fin 2%R; Fin 3%R]
  /\ ref_50ohm (mean_of msg_first [msg_last]) = Fin 0%R
  /\ ref_50ohm msg_last = Fin 5%R
  /\ ref_50ohm (mean_of msg_first [msg_last]) <> ref_50ohm msg_last.
Proof.
  assert (HJ : Forall (joins msg_first) [msg_last]).
  { repeat constructor. unfold same_epoch. now float_eval. }
  repeat split.
  - rewrite run_window; try easy; auto.
  - float_eval. repeat f_equal; lra.
  - cbn. intros H. injection H. lra.
Qed.

(** C1 (counterexample).  The averaged message differs from what the
    claim says in two respects.  Its metadata are those of the first
    message of the window, not of the most recent one (factor 2,
    reference levels 0 and 5).  And its samples are not the input when
    the messages are identical: with the factor 8, which the combo box
    offers, eight messages of the one sample 0.003 are added up and
    divided in float64 (lines 748 and 755) to 0.0029999999999999996. *)
Lemma averaged_frame_differs_from_claim :
  (option_map _sample_stream_queue
     (_radium_sample_stream (_on_connect 2) [msg_first; msg_last])
   = Some [mean_of msg_first [msg_last]]
   /\ ref_50ohm (mean_of msg_first [msg_last]) = Fin 0%R
   /\ ref_50ohm msg_last = Fin 5%R
   /\ ref_50ohm (mean_of msg_first [msg_last]) <> ref_50ohm msg_last)
  /\ In 8 (map snd _waveform_average_map)
  /\ Binary64.mean_of [Binary64.of_literal "0.003"]
       (repeat [Binary64.of_literal "0.003"] 7)
     = [Binary64.of_literal "0.0029999999999999996"]
  /\ Binary64.of_literal "0.0029999999999999996" <> Binary64.of_literal "0.003".
Proof.
  split; [| split; [| split]].
  - pose proof averaged_metadata_not_most_recent as (H1 & _ & H3 & H4 & H5).
    auto.
  - cbn. tauto.
  - vm_compute. reflexivity.
  - vm_compute. discriminate.
Qed.

(** C1 (as amended).  From a state in which no accumulation is in
    progress, connected and not paused, let the averaging factor be N
    and let N messages arrive, the later ones passing the epoch test
    against the first and having as many samples.  Then nothing is put
    on the queue before the N-th message; at the N-th message exactly
    one message is offered to the queue with the non-blocking push
    (appended when the queue has room, dropped when it is full) and the
    counter is back to 0.  Its samples are the elementwise sum of the N
    messages, added in the order of arrival, divided by N.  Its four
    metadata fields are those of the FIRST message of the
    accumulation; the two epoch fields compare equal to those of every
    message of the accumulation. *)
Theorem averaging_window_emits_mean st f rest :
  _connected st = true -> _paused st = false ->
  _buffered_sample_stream st = None \/ rx_count_for_avg_calc st = 0 ->
  _waveform_average_count st = S (length rest) ->
  Forall (joins f) rest ->
  (forall k, k <= length rest ->
     exists stk,
       _radium_sample_stream st (firstn k (f :: rest)) = Some stk
       /\ _sample_stream_queue stk = _sample_stream_queue st
       /\ signals stk = signals st)
  /\ (exists st',
        _radium_sample_stream st (f :: rest) = Some st'
        /\ _sample_stream_queue st'
           = HandoffQueue.push (_sample_stream_queue st) (mean_of f rest)
        /\ (length (_sample_stream_queue st) < HandoffQueue.maxsize ->
            _sample_stream_queue st' = _sample_stream_queue st ++ [mean_of f rest])
        /\ rx_count_for_avg_calc st' = 0)
  /\ sample (mean_of f rest)
     = map (fun x => fdiv x (of_nat (_waveform_average_count st)))
         (sum_into (sample f) rest)
  /\ sample_spacing_ps (mean_of f rest) = sample_spacing_ps f
  /\ pulse_period_ns (mean_of f rest) = pulse_period_ns f
  /\ ref_50ohm (mean_of f rest) = ref_50ohm f
  /\ ref_unit_amp (mean_of f rest) = ref_unit_amp f
  /\ Forall (fun g =>
               feqb (sample_spacing_ps (mean_of f rest)) (sample_spacing_ps g) = true
               /\ feqb (pulse_period_ns (mean_of f rest)) (pulse_period_ns g) = true)
       rest.
Proof.
  intros Hc Hp Hfresh Hn HF. repeat split; try reflexivity.
  - intros k Hk.
    destruct (run_window_prefix st f rest k Hc Hp Hfresh Hn HF Hk)
      as (stk & Hrun & Hq & Hs & _).
    now exists stk.
  - exists (emit st (mean_of f rest)). repeat split.
    + now apply run_window.
    + apply emit_queue.
    + intros Hroom. rewrite emit_queue. now apply push_room.
    + apply emit_fields.
  - unfold mean_of, averaged, Numpy.div_int. cbn [sample set_sample].
    now rewrite Hn.
  - eapply Forall_impl; [| exact HF]. intros g [He _].
    unfold same_epoch in He. apply andb_true_iff in He. exact He.
Qed.

Lemma averaging_window_emits_mean_witness :
  exists st',
    _radium_sample_stream (_on_connect 2) [msg_first; msg_last] = Some st'
    /\ _sample_stream_queue st' = [mean_of msg_first [msg_last]]
    /\ rx_count_for_avg_calc st' = 0.
Proof.
  assert (HJ : Forall (joins msg_first) [msg_last]).
  { repeat constructor. unfold same_epoch. now float_eval. }
  destruct (averaging_window_emits_mean (_on_connect 2) msg_first [msg_last]
              eq_refl eq_refl (or_introl eq_refl) eq_refl HJ)
    as (_ & (st' & Hrun & Hq & _ & Hcount) & _).
  exists st'. repeat split; [exact Hrun | rewrite Hq; reflexivity | exact Hcount].
Defined.

End AveragingClaims.

Section ReconfigurationClaims.
Import Ingest.

Lemma run_cons st m msgs :
  _connected st = true ->
  _radium_sample_stream st (m :: msgs)
  = match _radium_sample_stream_step st m with
    | Some st' => _radium_sample_stream st' msgs
    | None => None
    end.
Proof. intros Hc. cbn [_radium_sample_stream]. now rewrite Hc. Qed.

(** The step at which the epoch test fails while a sum is being
    accumulated (lines 750-752): the new message replaces the buffered
    one and the counter becomes 0. *)
Lemma step_other_epoch st b m :
  _paused st = false ->
  _buffered_sample_stream st = Some b ->
  rx_count_for_avg_calc st <> 0 ->
  same_epoch b m = false ->
  _waveform_average_count st <> 0 ->
  _radium_sample_stream_step st m = Some (with_accumulator st (Some m) 0).
Proof.
  intros Hp Hb Hc He Hn. unfold _radium_sample_stream_step.
  rewrite Hp, Hb, accumulate_other_epoch by assumption.
  destruct (Nat.eqb_spec 0 (_waveform_average_count st)); [congruence | reflexivity].
Qed.

(** After that step the message that changed the epoch is itself
    replaced by the next message: it takes part in no average. *)
Lemma step_after_other_epoch st m g :
  _paused st = false ->
  _waveform_average_count st <> 1 ->
  _radium_sample_stream_step (with_accumulator st (Some m) 0) g
  = Some (with_accumulator st (Some g) 1).
Proof.
  intros Hp Hn. unfold _radium_sample_stream_step.
  cbn [_paused with_accumulator _buffered_sample_stream rx_count_for_avg_calc
       _waveform_average_count].
  rewrite Hp, accumulate_fresh by (right; reflexivity).
  destruct (Nat.eqb_spec 1 (_waveform_average_count st)); [congruence | reflexivity].
Qed.

(** C2 (the code at the failing input).  Averaging factor 3.  One
    message of epoch (1 ps, 16 ns) is accumulated, then [msg_new] of
    epoch (2 ps, 32 ns) arrives: the buffered message becomes [msg_new]
    but the counter becomes 0, not 1.  Two further messages of the new
    epoch do not complete the average; a third one does, and the
    average is that of the three further messages alone ([4], whereas
    [msg_new] holds [10]). *)
Theorem epoch_change_leaves_counter_at_zero :
  _radium_sample_stream (_on_connect 3) [msg_old]
  = Some (with_accumulator (_on_connect 3) (Some msg_old) 1)
  /\ same_epoch msg_old msg_new = false
  /\ _radium_sample_stream (_on_connect 3) [msg_old; msg_new]
     = Some (with_accumulator (_on_connect 3) (Some msg_new) 0)
  /\ option_map (fun st => (_sample_stream_queue st, rx_count_for_avg_calc st))
       (_radium_sample_stream (_on_connect 3) [msg_old; msg_new; msg_next; msg_next])
     = Some ([], 2)
  /\ _radium_sample_stream (_on_connect 3)
       [msg_old; msg_new; msg_next; msg_next; msg_next]
     = Some (emit (_on_connect 3) (mean_of msg_next [msg_next; msg_next]))
  /\ sample (mean_of msg_next [msg_next; msg_next]) = [Fin 4%R].
Proof.
  assert (Hold : _radium_sample_stream (_on_connect 3) [msg_old]
                 = Some (with_accumulator (_on_connect 3) (Some msg_old) 1))
    by reflexivity.
  assert (Hne : same_epoch msg_old msg_new = false)
    by (unfold same_epoch; now float_eval).
  assert (Hnew : _radium_sample_stream_step
                   (with_accumulator (_on_connect 3) (Some msg_old) 1) msg_new
                 = Some (with_accumulator (_on_connect 3) (Some msg_new) 0)).
  { now rewrite step_other_epoch with (b := msg_old). }
  assert (Hnext : _radium_sample_stream_step
                    (with_accumulator (_on_connect 3) (Some msg_new) 0) msg_next
                  = Some (with_accumulator (_on_connect 3) (Some msg_next) 1))
    by reflexivity.
  assert (HJ : joins msg_next msg_next).
  { split; [| reflexivity]. unfold same_epoch. now float_eval. }
  assert (HF1 : Forall (joins msg_next) [msg_next])
    by (constructor; [exact HJ | constructor]).
  assert (HF2 : Forall (joins msg_next) [msg_next; msg_next])
    by (constructor; [exact HJ | exact HF1]).
  assert (Hstep : _radium_sample_stream_step (_on_connect 3) msg_old
                  = Some (with_accumulator (_on_connect 3) (Some msg_old) 1))
    by reflexivity.
  assert (Hprefix : forall tl,
            _radium_sample_stream (_on_connect 3) (msg_old :: msg_new :: tl)
            = _radium_sample_stream
                (with_accumulator (_on_connect 3) (Some msg_new) 0) tl).
  { intros tl. rewrite run_cons, Hstep by reflexivity.
    now rewrite run_cons, Hnew by reflexivity. }
  repeat split.
  - exact Hne.
  - now rewrite Hprefix.
  - rewrite Hprefix, run_cons, Hnext by reflexivity.
    rewrite run_accumulating with (f := msg_next) (s := sample msg_next);
      cbn; try easy; try lia.
  - rewrite Hprefix, run_window; try easy; auto.
  - rewrite mean_of_copies; [reflexivity | now repeat constructor].
Qed.

(** C3.  Changing the averaging factor drops the buffered message at
    once.  Whatever had been accumulated before (for instance one
    message under the old factor), with the new factor M the next M
    matching messages - and no fewer - produce the next average, and
    that average is the mean of those M messages alone: with M = 2,
    the first message after the change puts nothing on the queue and
    the second one completes the average. *)
Theorem average_change_discards_partial_sum st count f rest :
  _connected st = true -> _paused st = false ->
  count = S (length rest) ->
  Forall (joins f) rest ->
  _buffered_sample_stream (_on_waveform_average_changed st count) = None
  /\ _waveform_average_count (_on_waveform_average_changed st count) = count
  /\ _sample_stream_queue (_on_waveform_average_changed st count)
     = _sample_stream_queue st
  /\ (forall k, k <= length rest ->
        exists stk,
          _radium_sample_stream (_on_waveform_average_changed st count)
            (firstn k (f :: rest)) = Some stk
          /\ _sample_stream_queue stk = _sample_stream_queue st
          /\ signals stk = signals st)
  /\ (exists st',
        _radium_sample_stream (_on_waveform_average_changed st count) (f :: rest)
        = Some st'
        /\ _sample_stream_queue st'
           = HandoffQueue.push (_sample_stream_queue st) (mean_of f rest)
        /\ rx_count_for_avg_calc st' = 0)
  /\ sample (mean_of f rest)
     = map (fun x => fdiv x (of_nat count)) (sum_into (sample f) rest).
Proof.
  intros Hc Hp Hn HF.
  set (st1 := _on_waveform_average_changed st count).
  assert (Hc1 : _connected st1 = true) by exact Hc.
  assert (Hp1 : _paused st1 = false) by exact Hp.
  assert (Hf1 : _buffered_sample_stream st1 = None
                \/ rx_count_for_avg_calc st1 = 0) by (left; reflexivity).
  assert (Hn1 : _waveform_average_count st1 = S (length rest)) by exact Hn.
  repeat split.
  - intros k Hk.
    destruct (run_window_prefix st1 f rest k Hc1 Hp1 Hf1 Hn1 HF Hk)
      as (stk & Hrun & Hq & Hs & _).
    now exists stk.
  - exists (emit st1 (mean_of f rest)). repeat split.
    + now apply run_window.
    + rewrite emit_queue. reflexivity.
    + apply emit_fields.
  - unfold mean_of, averaged, Numpy.div_int. cbn [sample set_sample].
    now rewrite Hn.
Qed.

(** One message accumulated under factor 4, then the factor is set to
    2: the next two messages produce the average of those two. *)
Lemma average_change_discards_partial_sum_witness :
  rx_count_for_avg_calc (with_accumulator (_on_connect 4) (Some msg_old) 1) = 1
  /\ (exists stk,
        _radium_sample_stream
          (_on_waveform_average_changed
             (with_accumulator (_on_connect 4) (Some msg_old) 1) 2)
          [msg_first] = Some stk
        /\ _sample_stream_queue stk = [])
  /\ (exists st',
        _radium_sample_stream
          (_on_waveform_average_changed
             (with_accumulator (_on_connect 4) (Some msg_old) 1) 2)
          [msg_first; msg_last] = Some st'
        /\ _sample_stream_queue st' = [mean_of msg_first [msg_last]]).
Proof.
  assert (HJ : Forall (joins msg_first) [msg_last]).
  { repeat constructor. unfold same_epoch. now float_eval. }
  destruct (average_change_discards_partial_sum
              (with_accumulator (_on_connect 4) (Some msg_old) 1) 2
              msg_first [msg_last] eq_refl eq_refl eq_refl HJ)
    as (_ & _ & _ & Hpre & (st' & Hrun & Hq & _) & _).
  split; [reflexivity | split].
  - destruct (Hpre 1 (le_n 1)) as (stk & Hk & Hqk & _).
    exists stk. split; [exact Hk | exact Hqk].
  - exists st'. split; [exact Hrun | rewrite Hq; reflexivity].
Defined.

(** C10.  Pausing (while connected) empties the queue and sets the
    pause flag, and leaves the buffered message, the counter and the
    averaging factor as they were; every message received while paused
    is consumed with no change of state at all; resuming only clears
    the pause flag.  So the state after resuming is the state at the
    moment of pausing with an empty queue, and the accumulator treats
    the next message exactly as it would have then. *)
Theorem pause_preserves_accumulator st :
  _connected st = true -> _paused st = false ->
  _paused (_on_play_pause_plot_updates st) = true
  /\ _sample_stream_queue (_on_play_pause_plot_updates st) = []
  /\ _buffered_sample_stream (_on_play_pause_plot_updates st)
     = _buffered_sample_stream st
  /\ rx_count_for_avg_calc (_on_play_pause_plot_updates st)
     = rx_count_for_avg_calc st
  /\ _waveform_average_count (_on_play_pause_plot_updates st)
     = _waveform_average_count st
  /\ (forall msgs,
        _radium_sample_stream (_on_play_pause_plot_updates st) msgs
        = Some (_on_play_pause_plot_updates st))
  /\ _on_play_pause_plot_updates (_on_play_pause_plot_updates st)
     = with_queue st [] (signals st)
  /\ (forall m,
        accumulate
          (_buffered_sample_stream
             (_on_play_pause_plot_updates (_on_play_pause_plot_updates st)))
          (rx_count_for_avg_calc
             (_on_play_pause_plot_updates (_on_play_pause_plot_updates st))) m
        = accumulate (_buffered_sample_stream st) (rx_count_for_avg_calc st) m).
Proof.
  intros Hc Hp.
  assert (E1 : _on_play_pause_plot_updates st
               = with_queue
                   (mkState true true (_buffered_sample_stream st)
                      (rx_count_for_avg_calc st) (_waveform_average_count st)
                      (_sample_stream_queue st) (signals st))
                   [] (signals st)).
  { unfold _on_play_pause_plot_updates, _clear_sample_stream_queue.
    rewrite Hc, Hp. cbn -[HandoffQueue.drain]. now rewrite drain_all. }
  assert (E2 : _on_play_pause_plot_updates (_on_play_pause_plot_updates st)
               = with_queue st [] (signals st)).
  { rewrite E1. destruct st; cbn in *. now subst. }
  rewrite E2. rewrite E1. cbn. repeat split.
  induction msgs as [| m msgs IH]; [reflexivity | exact IH].
Qed.

Lemma pause_preserves_accumulator_witness :
  _buffered_sample_stream
    (_on_play_pause_plot_updates
       (with_accumulator (_on_connect 4) (Some msg_old) 1)) = Some msg_old
  /\ rx_count_for_avg_calc
       (_on_play_pause_plot_updates
          (with_accumulator (_on_connect 4) (Some msg_old) 1)) = 1.
Proof.
  destruct (pause_preserves_accumulator
              (with_accumulator (_on_connect 4) (Some msg_old) 1)
              eq_refl eq_refl)
    as (_ & _ & Hb & Hk & _).
  split; [exact Hb | exact Hk].
Defined.

End ReconfigurationClaims.

Section HandoffClaims.
Import Ingest.

Lemma fdiv_one x : fdiv x (of_nat 1) = x.
Proof.
  unfold of_nat. destruct x as [r | | |]; cbn; try reflexivity.
  - rewrite Reqb_false by lra. f_equal. field.
  - now rewrite Rltb_false by lra.
  - now rewrite Rltb_false by lra.
Qed.

(** With no averaging the message put on the queue is the message
    received. *)
Lemma averaged_one m : averaged m 1 = m.
Proof.
  destruct m as [s a b c d]. unfold averaged, set_sample, Numpy.div_int.
  cbn [sample sample_spacing_ps pulse_period_ns ref_50ohm ref_unit_amp].
  f_equal. rewrite <- (map_id s) at 2. apply map_ext, fdiv_one.
Qed.

(** With averaging factor 1 the thread offers every message it receives
    to the queue, in order. *)
Lemma run_factor_one : forall msgs st,
  _connected st = true -> _paused st = false ->
  _waveform_average_count st = 1 ->
  _buffered_sample_stream st = None \/ rx_count_for_avg_calc st = 0 ->
  exists st',
    _radium_sample_stream st msgs = Some st'
    /\ _sample_stream_queue st'
       = fold_left HandoffQueue.push msgs (_sample_stream_queue st).
Proof.
  induction msgs as [| m msgs IH]; intros st Hc Hp Hn Hfresh.
  - exists st. now split.
  - rewrite run_cons by exact Hc. unfold _radium_sample_stream_step.
    rewrite Hp, accumulate_fresh, Hn by exact Hfresh. cbn [Nat.eqb].
    rewrite averaged_one.
    destruct (emit_fields st m) as (Ec & Ep & _ & Ek & En).
    destruct (IH (emit st m)) as (st' & Hrun & Hq); try congruence.
    { right. exact Ek. }
    exists st'. split; [exact Hrun |].
    rewrite Hq, emit_queue. reflexivity.
Qed.

(** C4.  The queue holds at most [maxsize = 10] items.  Ten messages
    followed by an eleventh, nothing being consumed meanwhile: the ten
    are queued in order; the eleventh [put] meets [queue.Full], which
    the producer swallows, and the queue is left as it was; draining
    then yields exactly the first ten, in the order they were queued,
    and leaves the queue empty.  The same through the thread itself,
    with averaging factor 1 from a fresh connection: it survives the
    eleventh message and its queue holds the first ten. *)
Theorem handoff_queue_overflow_drops_newest msgs m :
  length msgs = HandoffQueue.maxsize ->
  HandoffQueue.maxsize = 10
  /\ fold_left HandoffQueue.push msgs HandoffQueue.empty = msgs
  /\ HandoffQueue.put_nowait msgs m = None
  /\ HandoffQueue.push msgs m = msgs
  /\ fold_left HandoffQueue.push (msgs ++ [m]) HandoffQueue.empty = msgs
  /\ HandoffQueue.drain
       (fold_left HandoffQueue.push (msgs ++ [m]) HandoffQueue.empty)
     = (msgs, [])
  /\ (exists st',
        _radium_sample_stream (_on_connect 1) (msgs ++ [m]) = Some st'
        /\ _sample_stream_queue st' = msgs
        /\ HandoffQueue.drain (_sample_stream_queue st') = (msgs, [])).
Proof.
  intros Hlen.
  destruct (queue_overflow msgs m Hlen) as (Hl & Hfull & Hx & Hd).
  repeat split; try assumption.
  - unfold HandoffQueue.push. now rewrite Hfull.
  - destruct (run_factor_one (msgs ++ [m]) (_on_connect 1))
      as (st' & Hrun & Hq); try reflexivity.
    { now left. }
    exists st'. split; [exact Hrun |].
    change (_sample_stream_queue (_on_connect 1)) with (@HandoffQueue.empty SampleStream) in Hq.
    rewrite Hq, Hx. split; [reflexivity | apply drain_all].
Qed.

Lemma handoff_queue_overflow_drops_newest_witness :
  length (repeat msg_old 10) = HandoffQueue.maxsize
  /\ HandoffQueue.drain
       (fold_left HandoffQueue.push (repeat msg_old 10 ++ [msg_new])
          HandoffQueue.empty)
     = (repeat msg_old 10, []).
Proof.
  split; [reflexivity |].
  apply (handoff_queue_overflow_drops_newest (repeat msg_old 10) msg_new eq_refl).
Defined.

End HandoffClaims.

(** ** The display transform engine *)
Section TransformClaims.
Import Transform.
Local Open Scope R_scope.

Lemma fsub_Fin a b : fsub (Fin a) (Fin b) = Fin (a - b).
Proof. reflexivity. Qed.

(** On one finite sample whose reflection coefficient lies strictly
    between -1 and 1, going to impedance and back is the identity. *)
Lemma convert_elem_sn_impedance_roundtrip x ref50 amp :
  amp <> 0 -> Rabs ((x - ref50) / amp) < 1 ->
  convert_elem
    (convert_elem (Fin x) S_N IMPEDANCE (Fin ref50) (Fin amp))
    IMPEDANCE S_N (Fin ref50) (Fin amp)
  = Fin x.
Proof.
  intros Hamp Hrho. apply Rabs_def2 in Hrho. destruct Hrho as [Hlt Hgt].
  unfold convert_elem, convert_elem_with.
  rewrite fsub_Fin, fdiv_Fin by exact Hamp.
  set (rho := (x - ref50) / amp) in *.
  cbn [fadd fmul]. rewrite fsub_Fin, fdiv_Fin by lra.
  set (z := 50 * (1 + rho) / (1 - rho)).
  assert (Hz : z + 50 = 100 / (1 - rho)) by (unfold z; field; lra).
  assert (Hz0 : z + 50 <> 0).
  { rewrite Hz. unfold Rdiv. apply Rmult_integral_contrapositive_currified;
      [lra | apply Rinv_neq_0_compat; lra]. }
  cbn [fadd]. rewrite fsub_Fin, fdiv_Fin by exact Hz0. cbn [fmul fadd].
  f_equal.
  assert (Hback : (z - 50) / (z + 50) = rho).
  { rewrite Hz. unfold z. field. lra. }
  rewrite Hback. unfold rho. field. exact Hamp.
Qed.

(** The three float64 numbers written 0.5, 0.1 and 0.4. *)
Lemma literal_0_5 :
  Binary64.of_literal "0.5" = SpecFloat.S754_finite false 4503599627370496 (-53).
Proof. vm_compute. reflexivity. Qed.

Lemma literal_0_1 :
  Binary64.of_literal "0.1" = SpecFloat.S754_finite false 7205759403792794 (-56).
Proof. vm_compute. reflexivity. Qed.

Lemma literal_0_4 :
  Binary64.of_literal "0.4" = SpecFloat.S754_finite false 7205759403792794 (-54).
Proof. vm_compute. reflexivity. Qed.

(** In binary64, a sample whose computed reflection coefficient is 1.0
    has the impedance +infinity, and +infinity converted back is NaN:
    [inf - 50] and [inf + 50] are both +infinity, and their quotient
    is NaN. *)
Lemma binary64_roundtrip_at_one x r a :
  Binary64.div (Binary64.sub x r) a = Binary64.of_int 1 ->
  Binary64.sn_to_impedance x r a = SpecFloat.S754_infinity false
  /\ Binary64.impedance_to_sn (Binary64.sn_to_impedance x r a) r a
     = SpecFloat.S754_nan.
Proof.
  intros H.
  assert (Hz : Binary64.sn_to_impedance x r a = SpecFloat.S754_infinity false).
  { unfold Binary64.sn_to_impedance. cbv zeta. rewrite H.
    vm_compute. reflexivity. }
  split; [exact Hz |]. rewrite Hz.
  unfold Binary64.impedance_to_sn. cbv zeta.
  set (q := Binary64.div _ _). vm_compute in q. subst q.
  destruct a; destruct r; reflexivity.
Qed.




Lemma nan_if_nonpositive_spec z :
  (fleb z (Fin 0) = true -> nan_if_nonpositive z = NaN)
  /\ (fleb z (Fin 0) = false -> nan_if_nonpositive z = z)
  /\ fleb (nan_if_nonpositive z) (Fin 0) = false.
Proof.
  unfold nan_if_nonpositive.
  destruct (fleb z (Fin 0)) eqn:E; repeat split; try easy.
Qed.


End TransformClaims.

(** ** The cursor model *)
Section CursorLookup.
Import Cursor.
Local Open Scope R_scope.

Lemma less_Fin a b : Numpy.less (Fin a) (Fin b) = Rltb a b.
Proof. unfold Numpy.less. cbn. now rewrite orb_false_r. Qed.

Lemma searchsorted_before x xs q :
  q <= x -> Numpy.searchsorted (map Fin (x :: xs)) (Fin q) = 0%nat.
Proof. intros H. cbn [map Numpy.searchsorted]. now rewrite less_Fin, Rltb_false. Qed.

Lemma searchsorted_after xs q :
  Forall (fun x => x < q) xs ->
  Numpy.searchsorted (map Fin xs) (Fin q) = length xs.
Proof.
  induction 1 as [| x xs Hx _ IH]; [reflexivity |].
  cbn [map Numpy.searchsorted length]. now rewrite less_Fin, Rltb_true, IH.
Qed.

Lemma searchsorted_at : forall xs i q,
  StronglySorted Rlt xs -> nth_error xs i = Some q ->
  Numpy.searchsorted (map Fin xs) (Fin q) = i.
Proof.
  induction xs as [| x xs IH]; intros i q HS Hi; [now destruct i |].
  apply StronglySorted_inv in HS. destruct HS as [HS Hall].
  destruct i as [| i]; cbn in Hi.
  - injection Hi as ->. apply searchsorted_before. lra.
  - cbn [map Numpy.searchsorted]. rewrite less_Fin, Rltb_true.
    + f_equal. now apply IH.
    + rewrite Forall_forall in Hall. apply Hall. eapply nth_error_In; eauto.
Qed.

Lemma sorted_adjacent : forall xs i a b,
  StronglySorted Rlt xs ->
  nth_error xs i = Some a -> nth_error xs (S i) = Some b -> a < b.
Proof.
  induction xs as [| x xs IH]; intros i a b HS Ha Hb; [now destruct i |].
  apply StronglySorted_inv in HS. destruct HS as [HS Hall].
  destruct i as [| i].
  - cbn in Ha. injection Ha as ->. rewrite Forall_forall in Hall. apply Hall.
    apply (nth_error_In _ 0). exact Hb.
  - eapply IH; eauto.
Qed.

Lemma index_map_Fin (l : list R) i :
  index (map Fin l) i = option_map Fin (nth_error l i).
Proof. unfold index. apply nth_error_map. Qed.

(** A query at or before the first x-coordinate: the first y value as
    stored, in linear and in log scale alike. *)
Lemma y_at_x_before_first x xs y ys log q :
  q <= x ->
  y_at_x (Some (map Fin (x :: xs))) (Some (y :: ys)) log (Fin q) = PyFloat y.
Proof.
  intros H. unfold y_at_x. rewrite searchsorted_before by exact H. reflexivity.
Qed.

(** A query after the last x-coordinate: the last y value as stored, in
    linear and in log scale alike. *)
Lemma y_at_x_after_last xs ys log q :
  xs <> [] -> ys <> [] -> Forall (fun x => x < q) xs ->
  y_at_x (Some (map Fin xs)) (Some ys) log (Fin q) = PyFloat (last ys NaN).
Proof.
  intros Hx Hy H. unfold y_at_x.
  rewrite searchsorted_after by exact H. rewrite length_map.
  destruct xs as [| x xs]; [congruence |].
  destruct ys as [| y ys]; [congruence |].
  cbn [length Nat.eqb Nat.leb]. rewrite Nat.leb_refl. reflexivity.
Qed.

(** A query exactly at the x-coordinate of sample [i], strictly
    ascending finite x, finite y.  In linear scale the stored value is
    returned.  In log scale the stored value is returned as it is for
    the first sample, and ten to its power for every other sample. *)
Lemma y_at_x_at_sample xs ys i x y log :
  StronglySorted Rlt xs -> length ys = length xs ->
  nth_error xs i = Some x -> nth_error ys i = Some y ->
  y_at_x (Some (map Fin xs)) (Some (map Fin ys)) log (Fin x)
  = PyFloat (if log && negb (Nat.eqb i 0) then fpow10 (Fin y) else Fin y).
Proof.
  intros HS Hlen Hx Hy. unfold y_at_x.
  rewrite (searchsorted_at xs i x HS Hx), !length_map.
  assert (Hi : (i < length xs)%nat) by (apply nth_error_Some; congruence).
  destruct xs as [| x0 xs']; [cbn in Hi; lia |].
  cbn [length Nat.eqb].
  destruct i as [| i].
  - cbn [Nat.leb]. rewrite andb_false_r. rewrite index_map_Fin, Hy. reflexivity.
  - cbn [Nat.leb Nat.eqb negb]. rewrite andb_true_r.
    destruct (Nat.leb_spec (length xs') i) as [Hle | _];
      [cbn in Hi; lia |].
    replace (S i - 1)%nat with i by lia.
    rewrite !index_map_Fin, Hx, Hy.
    destruct (nth_error (x0 :: xs') i) as [xp |] eqn:Hxp;
      [| apply nth_error_None in Hxp; cbn in Hi, Hxp; lia].
    destruct (nth_error ys i) as [yp |] eqn:Hyp;
      [| apply nth_error_None in Hyp; cbn in Hi; cbn [length] in Hlen; lia].
    pose proof (sorted_adjacent _ _ _ _ HS Hxp Hx) as Hlt.
    cbn [option_map feqb]. rewrite Reqb_false by lra.
    rewrite !fsub_Fin, fdiv_Fin by lra. cbn [fmul fadd].
    replace (yp + (x - xp) / (x - xp) * (y - yp)) with y by (field; lra).
    now destruct log.
Qed.

Lemma Rpower_10_2 : Rpower 10 2 = 100.
Proof.
  replace 2 with (INR 2) by (simpl; lra).
  rewrite Rpower_pow by lra. simpl. lra.
Qed.

Lemma Rpower_10_3 : Rpower 10 3 = 1000.
Proof.
  replace 3 with (INR 3) by (simpl; lra).
  rewrite Rpower_pow by lra. simpl. lra.
Qed.

(** C7 (the code at the failing input).  Log scale, x = [0, 10] ps and
    stored y = [2, 3] (the logarithms of 100 and 1000 ohms).  A cursor
    on the first sample (x = 0, where cursor 1 is clamped), or before
    it, reads 2, and a cursor past the last sample reads 3: the plotted
    log coordinate, not ten to its power.  A cursor on the last sample
    reads 1000 = 10^3: the early returns of lines 1041-1042 miss the
    exponentiation that line 1047 applies. *)
Theorem vcursor_readout_log_scale_early_returns :
  y_at_x (Some xs_demo) (Some ys_demo) true (Fin 0) = PyFloat (Fin 2)
  /\ y_at_x (Some xs_demo) (Some ys_demo) true (Fin (-5)) = PyFloat (Fin 2)
  /\ y_at_x (Some xs_demo) (Some ys_demo) true (Fin 20) = PyFloat (Fin 3)
  /\ y_at_x (Some xs_demo) (Some ys_demo) true (Fin 10) = PyFloat (Fin 1000)
  /\ fpow10 (Fin 2) = Fin 100
  /\ fpow10 (Fin 3) = Fin 1000
  /\ Fin 2 <> fpow10 (Fin 2)
  /\ Fin 3 <> fpow10 (Fin 3).
Proof.
  assert (HS : StronglySorted Rlt [0; 10]).
  { repeat constructor. lra. }
  assert (H2 : fpow10 (Fin 2) = Fin 100) by (cbn; now rewrite Rpower_10_2).
  assert (H3 : fpow10 (Fin 3) = Fin 1000) by (cbn; now rewrite Rpower_10_3).
  change xs_demo with (map Fin [0; 10]).
  repeat split.
  - apply (y_at_x_before_first 0 [10] (Fin 2) [Fin 3] true 0). lra.
  - apply (y_at_x_before_first 0 [10] (Fin 2) [Fin 3] true (-5)). lra.
  - apply (y_at_x_after_last [0; 10] ys_demo true 20); try easy.
    repeat constructor; lra.
  - change ys_demo with (map Fin [2; 3]).
    rewrite (y_at_x_at_sample [0; 10] [2; 3] 1 10 3 true HS eq_refl eq_refl eq_refl).
    cbn [andb negb Nat.eqb]. now rewrite H3.
  - exact H2.
  - exact H3.
  - rewrite H2. intros H. injection H. lra.
  - rewrite H3. intros H. injection H. lra.
Qed.

End CursorLookup.

Section CursorClamp.
Import Cursor.
Local Open Scope R_scope.

Lemma arange_times_last n s :
  last (Numpy.arange_times (S n) (Fin s)) NaN = Fin (INR n * s).
Proof.
  unfold Numpy.arange_times. rewrite seq_S, map_app. cbn [map Nat.add].
  now rewrite last_last.
Qed.

Lemma arange_times_length n s : length (Numpy.arange_times n s) = n.
Proof. unfold Numpy.arange_times. now rewrite length_map, length_seq. Qed.

(** [setBounds] with finite bounds [lo <= hi] on a finite position. *)
Lemma setBounds_value v b vis lo hi :
  lo <= hi ->
  value (setBounds (mkLine (Fin v) b vis) (Fin lo) (Fin hi))
  = Fin (if Rlt_dec v lo then lo else if Rlt_dec hi v then hi else v).
Proof.
  intros Hle. unfold setBounds, setValue, py_min, py_max.
  cbn [value maxRange fltb].
  destruct (Rlt_dec v lo) as [H1 | H1].
  - rewrite (Rltb_true v lo) by exact H1. cbn [fltb].
    now rewrite Rltb_false by lra.
  - rewrite (Rltb_false v lo) by lra. cbn [fltb].
    destruct (Rlt_dec hi v) as [H2 | H2].
    + now rewrite Rltb_true.
    + now rewrite Rltb_false by lra.
Qed.

Lemma setBounds_maxRange c lo hi : maxRange (setBounds c lo hi) = Some (lo, hi).
Proof. reflexivity. Qed.

(** A position already inside the range is left alone by lines
    1160-1163. *)
Lemma restrict_value_inside c v lo hi :
  value c = Fin v -> lo <= v <= hi -> restrict_value c (Fin lo) (Fin hi) = c.
Proof.
  intros Hv [H1 H2]. unfold restrict_value. rewrite Hv. cbn [fltb].
  now rewrite !Rltb_false.
Qed.

(** What [_update_scatter_plot] does to one vertical cursor: the nearest
    end of [0, max_x]. *)
Lemma new_data_clamps_to_nearest v b vis mx :
  0 <= mx ->
  value (restrict_value (setBounds (mkLine (Fin v) b vis) (Fin 0) (Fin mx))
           (Fin 0) (Fin mx))
  = Fin (if Rlt_dec v 0 then 0 else if Rlt_dec mx v then mx else v).
Proof.
  intros Hmx.
  pose proof (setBounds_value v b vis 0 mx Hmx) as Hv.
  rewrite (restrict_value_inside _ _ 0 mx Hv); [exact Hv |].
  destruct (Rlt_dec v 0); [lra |]. destruct (Rlt_dec mx v); lra.
Qed.

(** C9 (counterexample).  First data after start-up: three samples
    spaced 1 ps, so x = [0, 1, 2], while cursor 1 still sits at its
    initial position 1000.  [_update_scatter_plot] moves cursor 1 to 2,
    the maximum of x, not to its minimum 0. *)
Lemma new_data_moves_cursor1_to_max :
  fst (fst (_update_scatter_plot_cursors 3 (Fin 1) vcursor1_init vcursor2_init))
  = [Fin 0; Fin 1; Fin 2]
  /\ value vcursor1_init = Fin 1000
  /\ value (snd (fst (_update_scatter_plot_cursors 3 (Fin 1)
                        vcursor1_init vcursor2_init))) = Fin 2
  /\ Numpy.min (fst (fst (_update_scatter_plot_cursors 3 (Fin 1)
                            vcursor1_init vcursor2_init))) = Some (Fin 0)
  /\ Numpy.max (fst (fst (_update_scatter_plot_cursors 3 (Fin 1)
                            vcursor1_init vcursor2_init))) = Some (Fin 2)
  /\ Fin 2 <> Fin 0.
Proof.
  unfold _update_scatter_plot_cursors. rewrite arange_times_length.
  cbn [Nat.ltb Nat.leb fst snd]. rewrite arange_times_last.
  unfold vcursor1_init.
  assert (Hmx : INR 2 * 1 = 2) by (simpl; lra).
  repeat split.
  - cbn. repeat f_equal; lra.
  - rewrite new_data_clamps_to_nearest by (simpl; lra). f_equal.
    destruct (Rlt_dec 1000 0); [lra |].
    destruct (Rlt_dec (INR 2 * 1) 1000); lra.
  - unfold Numpy.min, Numpy.fmin2. float_eval. f_equal. f_equal. lra.
  - unfold Numpy.max, Numpy.fmax2. float_eval. f_equal. f_equal. lra.
  - intros H. injection H. lra.
Qed.

(** The smallest and the largest element of a non-empty array of
    finite numbers, as numpy computes them. *)
Lemma fold_fmin2_Fin : forall l a,
  exists m, fold_left Numpy.fmin2 (map Fin l) (Fin a) = Fin m
            /\ m <= a /\ Forall (fun x => m <= x) l /\ (m = a \/ In m l).
Proof.
  induction l as [| x l IH]; intros a; cbn [map fold_left].
  - exists a. repeat split; [lra | constructor | now left].
  - assert (E : Numpy.fmin2 (Fin a) (Fin x) = Fin (if Rle_dec a x then a else x)).
    { unfold Numpy.fmin2. cbn. unfold Rleb. now destruct (Rle_dec a x). }
    rewrite E. destruct (IH (if Rle_dec a x then a else x))
      as (m & Hm & Hle & Hall & Hin).
    exists m. split; [exact Hm |].
    destruct (Rle_dec a x) as [Hax | Hax].
    + repeat split; [lra | constructor; [lra | exact Hall] |].
      destruct Hin as [-> | Hin]; [now left | right; now right].
    + repeat split; [lra | constructor; [lra | exact Hall] |].
      destruct Hin as [-> | Hin]; [right; now left | right; now right].
Qed.

Lemma fold_fmax2_Fin : forall l a,
  exists m, fold_left Numpy.fmax2 (map Fin l) (Fin a) = Fin m
            /\ a <= m /\ Forall (fun x => x <= m) l /\ (m = a \/ In m l).
Proof.
  induction l as [| x l IH]; intros a; cbn [map fold_left].
  - exists a. repeat split; [lra | constructor | now left].
  - assert (E : Numpy.fmax2 (Fin a) (Fin x) = Fin (if Rle_dec a x then x else a)).
    { unfold Numpy.fmax2. cbn. unfold Rleb. now destruct (Rle_dec a x). }
    rewrite E. destruct (IH (if Rle_dec a x then x else a))
      as (m & Hm & Hle & Hall & Hin).
    exists m. split; [exact Hm |].
    destruct (Rle_dec a x) as [Hax | Hax].
    + repeat split; [lra | constructor; [lra | exact Hall] |].
      destruct Hin as [-> | Hin]; [right; now left | right; now right].
    + repeat split; [lra | constructor; [lra | exact Hall] |].
      destruct Hin as [-> | Hin]; [now left | right; now right].
Qed.

(** An array of finite numbers and NaN: its non-NaN part. *)
(** What lines 1154-1163 make of a vertical cursor at a finite
    position. *)
Lemma new_data_cursor c p mx :
  value c = Fin p -> 0 <= mx ->
  restrict_value (setBounds c (Fin 0) (Fin mx)) (Fin 0) (Fin mx)
  = mkLine (Fin (if Rlt_dec p 0 then 0 else if Rlt_dec mx p then mx else p))
      (Some (Fin 0, Fin mx)) (isVisible c).
Proof.
  intros Hv Hmx. destruct c as [val b vis]. cbn in Hv. subst val.
  pose proof (setBounds_value p b vis 0 mx Hmx) as Hs.
  rewrite (restrict_value_inside _ _ 0 mx Hs).
  - transitivity (mkLine (value (setBounds (mkLine (Fin p) b vis) (Fin 0) (Fin mx)))
                    (Some (Fin 0, Fin mx)) vis); [reflexivity |].
    now rewrite Hs.
  - destruct (Rlt_dec p 0); [lra |]. destruct (Rlt_dec mx p); lra.
Qed.

Lemma arange_times_Fin n s :
  Numpy.arange_times n (Fin s) = map Fin (map (fun i => INR i * s) (seq 0 n)).
Proof.
  unfold Numpy.arange_times. rewrite map_map. apply map_ext.
  intros i. reflexivity.
Qed.

(** With a spacing that is not negative the x-array ascends from 0 to
    its last element. *)
Lemma arange_times_min_max n s :
  0 <= s ->
  Numpy.min (Numpy.arange_times (S n) (Fin s)) = Some (Fin 0)
  /\ Numpy.max (Numpy.arange_times (S n) (Fin s)) = Some (Fin (INR n * s)).
Proof.
  intros Hs. rewrite arange_times_Fin.
  change (seq 0 (S n)) with (0%nat :: seq 1 n). cbn [map Numpy.min Numpy.max].
  set (l := map (fun i => INR i * s) (seq 1 n)).
  assert (Hl : forall x, In x l -> exists i, (i <= n)%nat /\ x = INR i * s).
  { intros x Hx. unfold l in Hx. apply in_map_iff in Hx.
    destruct Hx as (i & <- & Hi). apply in_seq in Hi. exists i. split; [lia | reflexivity]. }
  assert (Hpos : forall i, 0 <= INR i * s).
  { intros i. apply Rmult_le_pos; [apply pos_INR | exact Hs]. }
  assert (Hle : forall i, (i <= n)%nat -> INR i * s <= INR n * s).
  { intros i Hi. apply Rmult_le_compat_r; [exact Hs | now apply le_INR]. }
  assert (Hn : INR n * s = INR 0 * s \/ In (INR n * s) l).
  { destruct n as [| n]; [now left |]. right. unfold l.
    apply in_map_iff. exists (S n). split; [reflexivity |].
    apply in_seq. lia. }
  split.
  - destruct (fold_fmin2_Fin l (INR 0 * s)) as (m & -> & Hm & _ & Hin).
    do 2 f_equal. cbn [INR] in *.
    destruct Hin as [-> | Hin]; [ring |].
    destruct (Hl m Hin) as (i & _ & ->). specialize (Hpos i). lra.
  - destruct (fold_fmax2_Fin l (INR 0 * s)) as (m & -> & Hm & Hall & Hin).
    do 2 f_equal. rewrite Forall_forall in Hall.
    assert (H1 : INR n * s <= m).
    { destruct Hn as [E | Hn]; [rewrite E; exact Hm | now apply Hall]. }
    assert (H2 : m <= INR n * s).
    { destruct Hin as [-> | Hin]; [apply Hle; lia |].
      destruct (Hl m Hin) as (i & Hi & ->). now apply Hle. }
    lra.
Qed.

(** C9 (as amended).  When new data arrives, [_update_scatter_plot]
    gives both vertical cursors the bounds [0, max_x], with max_x the
    last x-coordinate; 0 and max_x are the minimum and the maximum of
    the x-array.  Each cursor - cursor 1 and cursor 2 alike - goes to
    the nearest end: to 0 from below, to max_x from above, and it
    stays where it is when inside.  Switching a vertical cursor on or
    off after that never moves it, since it lies inside
    [min(x), max(x)].  The per-cursor assignment of [_toggle_cursor]
    (lines 540-541 and 1002-1006: cursor 1 to min(x), cursor 2 to
    max(x)) applies to a cursor whose position lies outside
    [min(x), max(x)] and whose bounds, if it has any, contain that
    end - a state no redraw leaves behind. *)
Theorem vcursor_clamp_policy n s v1 v2 b1 b2 vis1 vis2 :
  0 < s ->
  let r := _update_scatter_plot_cursors (S n) (Fin s)
             (mkLine (Fin v1) b1 vis1) (mkLine (Fin v2) b2 vis2) in
  let xs := fst (fst r) in
  let c1 := snd (fst r) in
  let c2 := snd r in
  let max_x := INR n * s in
  (last xs NaN = Fin max_x
   /\ Numpy.min xs = Some (Fin 0) /\ Numpy.max xs = Some (Fin max_x))
  /\ (value c1
      = Fin (if Rlt_dec v1 0 then 0 else if Rlt_dec max_x v1 then max_x else v1)
      /\ value c2
         = Fin (if Rlt_dec v2 0 then 0 else if Rlt_dec max_x v2 then max_x else v2)
      /\ maxRange c1 = Some (Fin 0, Fin max_x)
      /\ maxRange c2 = Some (Fin 0, Fin max_x))
  /\ (forall last_y state,
        toggle_vcursor1 (Some xs) last_y c1 state = Some (setVisible c1 state)
        /\ toggle_vcursor2 (Some xs) last_y c2 state = Some (setVisible c2 state))
  /\ (forall xs' last_y c mn mx pos,
        Numpy.min xs' = Some (Fin mn) -> Numpy.max xs' = Some (Fin mx) ->
        value c = Fin pos -> pos < mn \/ mx < pos ->
        (admits c mn ->
         exists c1', toggle_vcursor1 (Some xs') last_y c true = Some c1'
                     /\ value c1' = Fin mn /\ isVisible c1' = true)
        /\ (admits c mx ->
            exists c2', toggle_vcursor2 (Some xs') last_y c true = Some c2'
                        /\ value c2' = Fin mx /\ isVisible c2' = true)).
Proof.
  intros Hs. cbv zeta.
  assert (Hmx : 0 <= INR n * s).
  { apply Rmult_le_pos; [apply pos_INR | lra]. }
  destruct (arange_times_min_max n s ltac:(lra)) as [Hmin Hmax].
  unfold _update_scatter_plot_cursors. rewrite arange_times_length.
  cbn [Nat.ltb Nat.leb fst snd]. rewrite arange_times_last.
  rewrite (new_data_cursor (mkLine (Fin v1) b1 vis1) v1 _ eq_refl Hmx).
  rewrite (new_data_cursor (mkLine (Fin v2) b2 vis2) v2 _ eq_refl Hmx).
  cbn [value maxRange isVisible].
  set (q1 := if Rlt_dec v1 0 then 0
             else if Rlt_dec (INR n * s) v1 then INR n * s else v1).
  set (q2 := if Rlt_dec v2 0 then 0
             else if Rlt_dec (INR n * s) v2 then INR n * s else v2).
  assert (Hq1 : 0 <= q1 <= INR n * s).
  { subst q1. destruct (Rlt_dec v1 0); [lra |].
    destruct (Rlt_dec (INR n * s) v1); lra. }
  assert (Hq2 : 0 <= q2 <= INR n * s).
  { subst q2. destruct (Rlt_dec v2 0); [lra |].
    destruct (Rlt_dec (INR n * s) v2); lra. }
  split; [auto |]. split; [auto |]. split.
  - intros last_y state.
    unfold toggle_vcursor1, toggle_vcursor2, _toggle_cursor.
    rewrite Hmin, Hmax. cbn [setVisible value fltb].
    rewrite (Rltb_false q1 0), (Rltb_false (INR n * s) q1) by lra.
    rewrite (Rltb_false q2 0), (Rltb_false (INR n * s) q2) by lra.
    cbn [orb clip]. now destruct state.
  - intros xs' last_y c mn mx pos Hmin' Hmax' Hpos Hout.
    assert (Hclip : fltb (Fin pos) (Fin mn) || fltb (Fin mx) (Fin pos) = true).
    { cbn [fltb]. destruct Hout as [H | H].
      - now rewrite Rltb_true.
      - rewrite (Rltb_true mx pos) by exact H. apply orb_true_r. }
    assert (Hset : forall v, admits c v ->
              value (setValue (setVisible c true) (Fin v)) = Fin v).
    { intros v Hadm. unfold admits in Hadm. unfold setValue, setVisible.
      cbn [value maxRange].
      destruct (maxRange c) as [[[lo | | |] [hi | | |]] |]; try easy.
      unfold py_min, py_max. cbn [fltb].
      rewrite (Rltb_false v lo) by lra. cbn [fltb].
      now rewrite Rltb_false by lra. }
    split; intros Hadm.
    + unfold toggle_vcursor1, _toggle_cursor. rewrite Hmin', Hmax'.
      cbn [value setVisible]. rewrite Hpos, Hclip. cbn [clip].
      eexists. split; [reflexivity |]. split; [now apply Hset | reflexivity].
    + unfold toggle_vcursor2, _toggle_cursor. rewrite Hmin', Hmax'.
      cbn [value setVisible]. rewrite Hpos, Hclip. cbn [clip].
      eexists. split; [reflexivity |]. split; [now apply Hset | reflexivity].
Qed.

(** First data after start-up: three samples spaced 1 ps, cursor 1 at
    1000 and cursor 2 at -4. *)
Lemma vcursor_clamp_policy_witness :
  value (snd (fst (_update_scatter_plot_cursors 3 (Fin 1)
                     (mkLine (Fin 1000) None true)
                     (mkLine (Fin (-4)) None true))))
  = Fin (if Rlt_dec 1000 0 then 0
         else if Rlt_dec (INR 2 * 1) 1000 then INR 2 * 1 else 1000)
  /\ toggle_vcursor1
       (Some (fst (fst (_update_scatter_plot_cursors 3 (Fin 1)
                          (mkLine (Fin 1000) None true)
                          (mkLine (Fin (-4)) None true)))))
       None
       (snd (fst (_update_scatter_plot_cursors 3 (Fin 1)
                    (mkLine (Fin 1000) None true)
                    (mkLine (Fin (-4)) None true))))
       true
     = Some (setVisible
               (snd (fst (_update_scatter_plot_cursors 3 (Fin 1)
                            (mkLine (Fin 1000) None true)
                            (mkLine (Fin (-4)) None true))))
               true).
Proof.
  destruct (vcursor_clamp_policy 2 1 1000 (-4) None None true true)
    as (_ & (Hv1 & _) & Htoggle & _); [lra |].
  split; [exact Hv1 |]. apply (Htoggle None true).
Defined.

End CursorClamp.

(** ** Preset aliases *)
Section PresetClaims.
Import Preset.
Local Open Scope string_scope.

Lemma span_digits_length : forall s d r,
  span_digits s = (d, r) ->
  String.length s = String.length d + String.length r.
Proof.
  induction s as [| c s IH]; intros d r H; cbn in H.
  - now injection H as <- <-.
  - destruct (is_digit c).
    + destruct (span_digits s) as [d' r'] eqn:E. injection H as <- <-.
      cbn. f_equal. now apply IH.
    + now injection H as <- <-.
Qed.

Lemma span_digits_digit c s d r :
  is_digit c = true -> span_digits (String c s) = (d, r) ->
  String.length r <= String.length s.
Proof.
  intros Hc H. apply span_digits_length in H as Hlen.
  cbn in H. rewrite Hc in H. destruct (span_digits s) as [d' r']. 
  injection H as <- <-. cbn in Hlen. lia.
Qed.

(** The scan of [findall] never runs out of fuel: more fuel than the
    length of the string changes nothing. *)
Lemma findall_fuel_enough : forall n m s,
  String.length s < n -> String.length s < m ->
  findall_fuel n s = findall_fuel m s.
Proof.
  induction n as [| n IH]; intros m s Hn Hm; [lia |].
  destruct m as [| m]; [lia |].
  destruct s as [| c s]; [reflexivity |].
  cbn [findall_fuel]. cbn [String.length] in Hn, Hm.
  destruct (is_digit c) eqn:Hc; [| apply IH; lia].
  destruct (span_digits (String c s)) as [d1 r1] eqn:E1.
  pose proof (span_digits_digit c s d1 r1 Hc E1) as Hr1.
  destruct r1 as [| c1 r2]; [f_equal; apply IH; cbn; lia |].
  assert (Hr : findall_fuel n (String c1 r2) = findall_fuel m (String c1 r2))
    by (apply IH; lia).
  destruct (Ascii.eqb_spec c1 ".") as [-> | Hne].
  - destruct (span_digits r2) as [d2 r3] eqn:E2.
    apply span_digits_length in E2. cbn [String.length] in Hr1.
    destruct d2; [now rewrite Hr |].
    f_equal. apply IH; lia.
  - assert (Hshape : forall X (k1 k2 : X),
              match c1 with
              | "."%char => k1
              | _ => k2
              end = k2).
    { intros X k1 k2.
      destruct c1 as [[] [] [] [] [] [] [] []]; try reflexivity.
      now contradiction Hne. }
    rewrite !Hshape. now rewrite Hr.
Qed.

(** Whenever [_normalize_preset] raises, [configure_tdr_preset] has
    sent nothing to the instrument, and the message is the one that
    lists the sorted keys of the alias table. *)
Lemma configure_tdr_preset_error s msg :
  _normalize_preset s = inr msg ->
  configure_tdr_preset s = ([], Some msg) /\ msg = unrecognized s.
Proof.
  intros H. unfold configure_tdr_preset. rewrite H. split; [reflexivity |].
  unfold _normalize_preset in H.
  destruct (lookup _PRESET_ALIASES (lower (strip s))); [discriminate |].
  destruct (map float_of_token (findall (lower (strip s)))) as [| ns [| ps tl]];
    try (injection H as <-; reflexivity).
  destruct (lookup _PRESET_ALIASES _); [discriminate |].
  now injection H as <-.
Qed.

Lemma sorted_keys_complete k :
  In k (keys _PRESET_ALIASES) <-> In k (sorted (keys _PRESET_ALIASES)).
Proof.
  vm_compute. tauto.
Qed.

(** C8.  The three spellings resolve to the same preset, the one the
    canonical key "16.0ns/1.0ps" names: the first is itself a key of the
    table; for the other two the first two numeric tokens, 16 and 1,
    are formatted with one decimal into that key.  "xyz" holds no
    numeric token: [_normalize_preset] raises a [ValueError] whose
    message lists every key of the table (sorted, comma separated), and
    [configure_tdr_preset] sends no request to the instrument - as for
    every input [_normalize_preset] rejects. *)
Theorem preset_alias_resolution :
  _normalize_preset "16.0ns/1.0ps"
  = inl TDR_CONFIGURATION_PRESET_PULSE_PERIOD_16P0_NS_SAMPLE_SPACING_1P0_PS
  /\ _normalize_preset "16ns/1ps"
     = inl TDR_CONFIGURATION_PRESET_PULSE_PERIOD_16P0_NS_SAMPLE_SPACING_1P0_PS
  /\ _normalize_preset "16/1"
     = inl TDR_CONFIGURATION_PRESET_PULSE_PERIOD_16P0_NS_SAMPLE_SPACING_1P0_PS
  /\ lookup _PRESET_ALIASES "16.0ns/1.0ps"
     = Some TDR_CONFIGURATION_PRESET_PULSE_PERIOD_16P0_NS_SAMPLE_SPACING_1P0_PS
  /\ lookup _PRESET_ALIASES "16ns/1ps" = None
  /\ lookup _PRESET_ALIASES "16/1" = None
  /\ findall "16.0ns/1.0ps" = ["16.0"; "1.0"]
  /\ findall "16ns/1ps" = ["16"; "1"]
  /\ findall "16/1" = ["16"; "1"]
  /\ format_1f (float_of_token "16.0") ++ "ns/" ++ format_1f (float_of_token "1.0") ++ "ps"
     = "16.0ns/1.0ps"
  /\ format_1f (float_of_token "16") ++ "ns/" ++ format_1f (float_of_token "1") ++ "ps"
     = "16.0ns/1.0ps"
  /\ findall "xyz" = []
  /\ _normalize_preset "xyz"
     = inr ("Unrecognized preset 'xyz'. Try one of: "
            ++ join ", " (sorted (keys _PRESET_ALIASES)))
  /\ join ", " (sorted (keys _PRESET_ALIASES))
     = "12.8ns/0.8ps, 128.0ns/8.0ps, 16.0ns/1.0ps, 16.0ns/100.0ps, 16.0ns/50.0ps, 160.0ns/10.0ps, 3.2ns/0.2ps, 32.0ns/2.0ps, 6.4ns/0.4ps, 64.0ns/4.0ps, 80.0ns/5.0ps"
  /\ (forall k, In k (keys _PRESET_ALIASES) <-> In k (sorted (keys _PRESET_ALIASES)))
  /\ configure_tdr_preset "xyz" = ([], Some (unrecognized "xyz"))
  /\ (forall s msg,
        _normalize_preset s = inr msg ->
        configure_tdr_preset s = ([], Some msg) /\ msg = unrecognized s).
Proof.
  repeat match goal with |- _ /\ _ => split end.
  all: try (intros s msg; apply configure_tdr_preset_error).
  all: try (intros k; apply sorted_keys_complete).
  all: vm_compute; reflexivity.
Qed.

End PresetClaims.

(* ================================================================== *)
(** * Part III - further properties of the code                        *)
(* ================================================================== *)

(** ** More on the display transform engine *)
Section TransformMore.
Import Transform.
Local Open Scope R_scope.

(** X6.  From the reflection coefficient the impedance is computed
    through S_n (lines 799-801): converting an array from Rho to
    impedance, to log-scale impedance or to S_n gives what converting
    it from Rho to S_n and the result from S_n to that display gives -
    for every array and all reference values, NaN and infinities
    included.  So the reference levels are read on the way to an
    impedance that, mathematically, does not depend on them, and with
    a unit amplitude of zero every finite reflection coefficient comes
    out as NaN, in both impedance displays. *)
Theorem rho_to_impedance_reads_references :
  (forall ys out_mode r a,
      out_mode <> RHO ->
      _convert_y_to ys RHO out_mode r a
      = _convert_y_to (_convert_y_to ys RHO S_N r a) S_N out_mode r a)
  /\ (forall rho r,
        convert_elem (Fin rho) RHO IMPEDANCE (Fin r) (Fin 0) = NaN
        /\ convert_elem (Fin rho) RHO IMPEDANCE_LOG_SCALE (Fin r) (Fin 0) = NaN).
Proof.
  split.
  - intros ys out_mode r a Hout. unfold _convert_y_to. rewrite map_map.
    apply map_ext. intros y.
    destruct out_mode; try reflexivity. congruence.
  - intros rho r.
    assert (H0 : fdiv (fsub (fadd (fmul (Fin rho) (Fin 0)) (Fin r)) (Fin r)) (Fin 0)
                 = NaN).
    { cbn [fmul fadd]. rewrite fsub_Fin. cbn [fdiv].
      rewrite (Reqb_true 0 0) by reflexivity.
      now rewrite (Reqb_true (rho * 0 + r - r) 0) by lra. }
    split; unfold convert_elem, convert_elem_with; rewrite H0; reflexivity.
Qed.

End TransformMore.

(** ** More on the cursor model *)
Section CursorMore.
Import Cursor.
Local Open Scope R_scope.

Lemma searchsorted_le xs q : (Numpy.searchsorted xs q <= length xs)%nat.
Proof.
  induction xs as [| x xs IH]; cbn; [lia |].
  destruct (Numpy.less x q); lia.
Qed.

(** With as many y values as x values the lookup indexes inside both
    arrays, whatever they hold. *)
Lemma y_at_x_total xs ys log xq :
  length ys = length xs ->
  y_at_x (Some xs) (Some ys) log xq <> PyIndexError.
Proof.
  intros Hlen. unfold y_at_x.
  destruct (Nat.eqb_spec (length xs) 0) as [| Hne]; [discriminate |].
  pose proof (searchsorted_le xs xq) as Hle.
  set (idx := Numpy.searchsorted xs xq) in *.
  destruct (Nat.leb_spec idx 0) as [H0 | H0].
  - destruct ys as [| y ys]; [cbn in Hlen; lia | discriminate].
  - destruct (Nat.leb_spec (length xs) idx) as [H1 | H1].
    + destruct ys as [| y ys]; [cbn in Hlen; lia | discriminate].
    + unfold index.
      destruct (nth_error xs (idx - 1)) as [x0 |] eqn:E0;
        [| apply nth_error_None in E0; lia].
      destruct (nth_error xs idx) as [x1 |] eqn:E1;
        [| apply nth_error_None in E1; lia].
      destruct (nth_error ys (idx - 1)) as [y0 |] eqn:E2;
        [| apply nth_error_None in E2; lia].
      destruct (nth_error ys idx) as [y1 |] eqn:E3;
        [| apply nth_error_None in E3; lia].
      destruct (feqb x1 x0); [discriminate |]. destruct log; discriminate.
Qed.

(** X8.  The vertical cursor lookup never fails on an index: with no
    data it returns [None], and with as many y values as x values it
    returns a float - whatever the arrays hold (NaN, infinities,
    unsorted x) and wherever the cursor is. *)
Theorem y_at_x_never_index_error o_x o_y log xq :
  (forall xs ys, o_x = Some xs -> o_y = Some ys -> length ys = length xs) ->
  y_at_x o_x o_y log xq <> PyIndexError
  /\ (o_x = None \/ o_y = None \/ o_x = Some [] ->
      y_at_x o_x o_y log xq = PyNone).
Proof.
  intros Hlen. split.
  - destruct o_x as [xs |], o_y as [ys |]; try discriminate.
    apply y_at_x_total. now apply Hlen.
  - intros [-> | [-> | ->]]; try reflexivity.
    + now destruct o_x.
    + now destruct o_y.
Qed.

Lemma y_at_x_never_index_error_witness :
  y_at_x (Some [Fin 10; NaN; Fin 0]) (Some [NaN; PInf; Fin 3]) true NaN
  <> PyIndexError.
Proof.
  apply (y_at_x_never_index_error (Some [Fin 10; NaN; Fin 0])
           (Some [NaN; PInf; Fin 3]) true NaN).
  intros xs ys Hx Hy. injection Hx as <-. injection Hy as <-. reflexivity.
Defined.

Lemma searchsorted_between : forall xs i x0 x1 q,
  StronglySorted Rlt xs ->
  nth_error xs i = Some x0 -> nth_error xs (S i) = Some x1 ->
  x0 < q <= x1 ->
  Numpy.searchsorted (map Fin xs) (Fin q) = S i.
Proof.
  induction xs as [| x xs IH]; intros i x0 x1 q HS H0 H1 Hq;
    [now destruct i |].
  apply StronglySorted_inv in HS. destruct HS as [HS Hall].
  cbn [map Numpy.searchsorted]. rewrite less_Fin.
  destruct i as [| i].
  - cbn in H0. injection H0 as ->. rewrite Rltb_true by lra. f_equal.
    destruct xs as [| x' xs]; [discriminate |].
    cbn in H1. injection H1 as ->. apply searchsorted_before. lra.
  - assert (Hx : x < x0).
    { rewrite Forall_forall in Hall. apply Hall.
      apply (nth_error_In _ i). exact H0. }
    rewrite Rltb_true by lra. f_equal. eapply IH; eauto.
Qed.

(** X9.  On a strictly ascending x-array, a cursor after sample i and
    not after sample i+1 is looked up between exactly these two
    samples: [searchsorted] returns i+1 and, in linear scale, the
    readout is [y0 + t * (y1 - y0)] with [t = (q - x0) / (x1 - x0)],
    computed from these two samples and no other, whatever the y
    values are (NaN and infinities included). *)
Theorem y_at_x_interpolates xs (ys : list float64) i x0 x1 y0 y1 q :
  StronglySorted Rlt xs ->
  nth_error xs i = Some x0 -> nth_error xs (S i) = Some x1 ->
  nth_error ys i = Some y0 -> nth_error ys (S i) = Some y1 ->
  x0 < q <= x1 ->
  Numpy.searchsorted (map Fin xs) (Fin q) = S i
  /\ y_at_x (Some (map Fin xs)) (Some ys) false (Fin q)
     = PyFloat (fadd y0
                  (fmul (fdiv (fsub (Fin q) (Fin x0)) (fsub (Fin x1) (Fin x0)))
                     (fsub y1 y0))).
Proof.
  intros HS Hx0 Hx1 Hy0 Hy1 Hq.
  pose proof (sorted_adjacent _ _ _ _ HS Hx0 Hx1) as Hlt.
  pose proof (searchsorted_between xs i x0 x1 q HS Hx0 Hx1 Hq) as Hidx.
  split; [exact Hidx |].
  unfold y_at_x. rewrite Hidx, !length_map.
  assert (Hi : (S i < length xs)%nat) by (apply nth_error_Some; congruence).
  destruct (Nat.eqb_spec (length xs) 0) as [E | _]; [lia |].
  cbn [Nat.leb].
  destruct (Nat.leb_spec (length xs) (S i)) as [E | _]; [lia |].
  replace (S i - 1)%nat with i by lia.
  rewrite !index_map_Fin, Hx0, Hx1. unfold index. rewrite Hy0, Hy1.
  cbn [option_map feqb]. rewrite Reqb_false by lra. reflexivity.
Qed.

Lemma y_at_x_interpolates_witness :
  y_at_x (Some (map Fin [0; 10])) (Some [Fin 2; NaN]) false (Fin 5)
  = PyFloat (fadd (Fin 2)
               (fmul (fdiv (fsub (Fin 5) (Fin 0)) (fsub (Fin 10) (Fin 0)))
                  (fsub NaN (Fin 2)))).
Proof.
  apply (y_at_x_interpolates [0; 10] [Fin 2; NaN] 0 0 10 (Fin 2) NaN 5);
    try reflexivity; try lra.
  repeat constructor. lra.
Defined.

Lemma nan_filter_finite ys :
  Forall (fun y => y = NaN \/ exists r, y = Fin r) ys ->
  exists rs, nan_filter ys = map Fin rs
             /\ forall r, In r rs <-> In (Fin r) ys.
Proof.
  unfold nan_filter.
  induction 1 as [| y ys Hy _ (rs & Hrs & Hin)].
  - exists []. split; [reflexivity | intros r; tauto].
  - destruct Hy as [-> | [r0 ->]]; cbn [filter isnan negb].
    + exists rs. split; [exact Hrs |]. intros r. rewrite Hin.
      split; [now right | intros [H | H]; [discriminate | exact H]].
    + exists (r0 :: rs). split; [now rewrite Hrs |].
      intros r. cbn [In]. rewrite Hin.
      split; intros [H | H]; auto; left; congruence.
Qed.

Lemma nanmin_nanmax_finite ys r0 :
  Forall (fun y => y = NaN \/ exists r, y = Fin r) ys ->
  In (Fin r0) ys ->
  exists mn mx,
    nanmin ys = Some (Fin mn) /\ nanmax ys = Some (Fin mx)
    /\ mn <= mx /\ In (Fin mn) ys /\ In (Fin mx) ys
    /\ forall r, In (Fin r) ys -> mn <= r <= mx.
Proof.
  intros HF Hr0.
  destruct (nan_filter_finite ys HF) as (rs & Hrs & Hin).
  assert (Hne : ys <> []) by (intros ->; contradiction).
  destruct rs as [| a l].
  { apply Hin in Hr0. contradiction. }
  destruct (fold_fmin2_Fin l a) as (mn & Hmn & Hmna & Hmnall & Hmnin).
  destruct (fold_fmax2_Fin l a) as (mx & Hmx & Hmxa & Hmxall & Hmxin).
  exists mn, mx.
  assert (Emin : nanmin ys = Some (Fin mn)).
  { unfold nanmin. destruct ys; [congruence |]. rewrite Hrs. cbn. now rewrite Hmn. }
  assert (Emax : nanmax ys = Some (Fin mx)).
  { unfold nanmax. destruct ys; [congruence |]. rewrite Hrs. cbn. now rewrite Hmx. }
  repeat split; try assumption; try lra.
  - apply Hin. destruct Hmnin as [-> | H]; [now left | now right].
  - apply Hin. destruct Hmxin as [-> | H]; [now left | now right].
  - apply Hin in H. destruct H as [<- | H]; [exact Hmna |].
    rewrite Forall_forall in Hmnall. now apply Hmnall.
  - apply Hin in H. destruct H as [<- | H]; [exact Hmxa |].
    rewrite Forall_forall in Hmxall. now apply Hmxall.
Qed.



End CursorMore.

(** ** More on the hand-off queue and the accumulator *)
Section PipelineMore.
Import Ingest Transform Cursor View.

Lemma firstn_full {A} (q l : list A) n :
  length q = n -> firstn n (q ++ l) = q.
Proof.
  intros <-. rewrite firstn_app, firstn_all, Nat.sub_diag, firstn_0.
  apply app_nil_r.
Qed.

Lemma fold_push_firstn {A} (msgs : list A) : forall q,
  length q <= HandoffQueue.maxsize ->
  fold_left HandoffQueue.push msgs q
  = firstn HandoffQueue.maxsize (q ++ msgs).
Proof.
  induction msgs as [| m msgs IH]; intros q Hq; cbn [fold_left].
  - rewrite app_nil_r. symmetry. now apply firstn_all2.
  - destruct (Nat.lt_ge_cases (length q) HandoffQueue.maxsize) as [Hlt | Hge].
    + rewrite push_room by exact Hlt. rewrite IH.
      * now rewrite <- app_assoc.
      * rewrite length_app. cbn. lia.
    + rewrite push_full by exact Hge. rewrite IH by exact Hq.
      rewrite !firstn_full by lia. reflexivity.
Qed.

(** X11.  The queue keeps the oldest messages: whatever is offered to a
    queue that is within its capacity, with nothing consumed meanwhile,
    the queue ends up holding the first ten of what it held followed by
    what was offered.  So it is for the loop of the quick-look script
    and for the thread of the application run without averaging. *)
Theorem queue_keeps_oldest (q msgs : list SampleStream) :
  length q <= HandoffQueue.maxsize ->
  Stream.radium_sample_stream q msgs
  = firstn HandoffQueue.maxsize (q ++ msgs)
  /\ length (Stream.radium_sample_stream q msgs)
     = Nat.min HandoffQueue.maxsize (length q + length msgs)
  /\ (exists st',
        _radium_sample_stream (_on_connect 1) msgs = Some st'
        /\ _sample_stream_queue st' = firstn HandoffQueue.maxsize msgs).
Proof.
  intros Hq. unfold Stream.radium_sample_stream.
  rewrite fold_push_firstn by exact Hq. repeat split.
  - now rewrite length_firstn, length_app.
  - destruct (run_factor_one msgs (_on_connect 1)) as (st' & Hrun & Hst');
      try reflexivity.
    { now left. }
    exists st'. split; [exact Hrun |].
    rewrite Hst'. apply fold_push_firstn. cbn. lia.
Qed.

Lemma queue_keeps_oldest_witness :
  Stream.radium_sample_stream [msg_old] (repeat msg_new 12)
  = firstn HandoffQueue.maxsize ([msg_old] ++ repeat msg_new 12).
Proof.
  apply (queue_keeps_oldest [msg_old] (repeat msg_new 12)).
  unfold HandoffQueue.maxsize. cbn. lia.
Defined.

Lemma offered_positive count : offered count -> 1 <= count.
Proof.
  unfold offered. cbn. intros H.
  repeat (destruct H as [<- | H]; [lia |]). contradiction.
Qed.

Lemma emit_ok st avg :
  accumulator_ok st -> accumulator_ok (emit st avg).
Proof.
  intros (HN & _ & Hq). unfold accumulator_ok.
  destruct (emit_fields st avg) as (_ & _ & _ & Ek & En).
  rewrite emit_queue, Ek, En. repeat split.
  - exact HN.
  - right. lia.
  - now apply push_length_le.
Qed.

Lemma step_ok st m st' :
  accumulator_ok st -> _radium_sample_stream_step st m = Some st' ->
  accumulator_ok st'.
Proof.
  intros Hok Hstep. pose proof Hok as (HN & Hacc & Hq).
  unfold _radium_sample_stream_step in Hstep.
  destruct (_paused st); [now injection Hstep as <- |].
  destruct (accumulate (_buffered_sample_stream st) (rx_count_for_avg_calc st) m)
    as [[b count] |] eqn:Eacc; [| discriminate].
  assert (Hcount : count <= _waveform_average_count st).
  { unfold accumulate in Eacc.
    destruct (_buffered_sample_stream st) as [b0 |].
    - destruct (Nat.eqb_spec (rx_count_for_avg_calc st) 0).
      + injection Eacc as <- <-. exact HN.
      + destruct (same_epoch b0 m).
        * destruct (Numpy.add (sample b0) (sample m)); [| discriminate].
          injection Eacc as <- <-.
          destruct Hacc as [Hacc | Hacc]; [discriminate | lia].
        * injection Eacc as <- <-. lia.
    - injection Eacc as <- <-. exact HN. }
  destruct (Nat.eqb_spec count (_waveform_average_count st)) as [E | E];
    injection Hstep as <-.
  - now apply emit_ok.
  - unfold accumulator_ok. cbn. repeat split; try assumption. right. lia.
Qed.

Lemma pop_loop_drains : forall q fuel st v,
  _paused st = false -> _sample_stream_queue st = q -> length q < fuel ->
  pop_loop fuel st v
  = (with_queue st [] (signals st), fold_left display q v).
Proof.
  induction q as [| m q IH]; intros fuel st v Hp Hq Hfuel;
    (destruct fuel as [| fuel]; [cbn in Hfuel; lia |]);
    cbn [pop_loop]; rewrite Hp, Hq; cbn [HandoffQueue.get_nowait fold_left].
  - destruct st; cbn in *. now subst.
  - rewrite IH; [reflexivity | exact Hp | reflexivity | cbn in Hfuel; lia].
Qed.

Lemma pop_paused st v :
  _paused st = true -> _pop_sample_stream_queue st v = (st, v).
Proof.
  intros Hp. unfold _pop_sample_stream_queue. cbn [pop_loop]. now rewrite Hp.
Qed.

Lemma pop_running st v :
  _paused st = false ->
  _pop_sample_stream_queue st v
  = (with_queue st [] (signals st),
     fold_left display (_sample_stream_queue st) v).
Proof.
  intros Hp. unfold _pop_sample_stream_queue.
  apply pop_loop_drains; auto.
Qed.

Lemma handle_ok a e a' :
  accumulator_ok (fst a) -> admissible e -> handle a e = Some a' ->
  accumulator_ok (fst a').
Proof.
  destruct a as [st v]. cbn [fst]. intros Hok Hadm Hh.
  pose proof Hok as (HN & Hacc & Hq).
  destruct e as [m | count | | |]; cbn [handle] in Hh.
  - destruct (_connected st); [| now injection Hh as <-].
    destruct (_radium_sample_stream_step st m) as [st' |] eqn:E; [| discriminate].
    injection Hh as <-. cbn [fst]. eapply step_ok; eauto.
  - injection Hh as <-. cbn [fst]. unfold accumulator_ok. cbn.
    repeat split; [now apply offered_positive | now left | exact Hq].
  - injection Hh as <-. cbn [fst]. unfold _on_play_pause_plot_updates.
    destruct (_connected st); cbn [negb]; [| exact Hok].
    cbn [_paused]. destruct (_paused st); cbn [negb].
    + unfold accumulator_ok. cbn. auto.
    + unfold _clear_sample_stream_queue, accumulator_ok.
      cbn -[HandoffQueue.drain]. rewrite drain_all. cbn.
      repeat split; try assumption. lia.
  - injection Hh as <-. cbn [fst _on_clear_display].
    unfold _clear_sample_stream_queue, accumulator_ok.
    cbn -[HandoffQueue.drain]. rewrite drain_all. cbn.
    repeat split; [exact HN | now left | lia].
  - injection Hh as <-. destruct (_paused st) eqn:Hp.
    + now rewrite pop_paused.
    + rewrite pop_running by exact Hp. cbn [fst].
      unfold accumulator_ok. cbn. repeat split; try assumption. lia.
Qed.

(** X12.  Whatever the application goes through after a connection -
    messages of any epoch, changes of the averaging factor to any value
    the combo box offers, pause and resume, clearing the display, the
    consumer draining the queue - as long as the thread lives, the
    averaging factor is at least 1, the counter is below the factor
    whenever a message is buffered (so an accumulation can always be
    completed: the counter never runs past the factor), and the queue
    holds at most ten messages. *)
Theorem accumulator_invariant (es : list event) count v a' :
  offered count ->
  Forall admissible es ->
  View.run (_on_connect count, v) es = Some a' ->
  accumulator_ok (fst a').
Proof.
  intros Hoff HF.
  assert (H0 : accumulator_ok (fst (_on_connect count, v))).
  { unfold accumulator_ok. cbn.
    repeat split; [now apply offered_positive | now left | lia]. }
  revert H0. generalize (_on_connect count, v) as a.
  induction HF as [| e es He _ IH]; intros a Hok Hrun; cbn [View.run] in Hrun.
  - now injection Hrun as <-.
  - destruct (handle a e) as [a1 |] eqn:E; [| discriminate].
    apply (IH a1); [| exact Hrun]. eapply handle_ok; eauto.
Qed.

Lemma accumulator_invariant_witness :
  exists a',
    View.run (_on_connect 2, View.initial)
      [Received msg_first; AverageChanged 4; Received msg_last; PlayPause;
       FrameReady]
    = Some a'
    /\ accumulator_ok (fst a').
Proof.
  eexists. split.
  - reflexivity.
  - apply (accumulator_invariant
             [Received msg_first; AverageChanged 4; Received msg_last;
              PlayPause; FrameReady] 2 View.initial).
    + unfold offered. cbn. tauto.
    + repeat (apply Forall_cons;
              [first [exact I | unfold admissible, offered; cbn; tauto] |]).
      apply Forall_nil.
    + reflexivity.
Defined.

Lemma display_fields v m :
  _last_displayed_sample_stream (display v m) = Some m
  /\ _last_x_as_array (display v m)
     = Some (Numpy.arange_times (length (sample m)) (sample_spacing_ps m))
  /\ _last_y_as_array (display v m)
     = Some (_convert_y_to (sample m) S_N (_y_display_mode v)
               (ref_50ohm m) (ref_unit_amp m))
  /\ _y_display_mode (display v m) = _y_display_mode v
  /\ _sample_stream_count (display v m) = S (_sample_stream_count v).
Proof.
  unfold display, _update_scatter_plot, _update_scatter_plot_cursors.
  cbn [_last_displayed_sample_stream _y_display_mode _vcursor1 _vcursor2
       _sample_stream_count].
  destruct (Nat.ltb 0 _); cbn; auto.
Qed.

Lemma fold_display_fields q : forall v,
  _y_display_mode (fold_left display q v) = _y_display_mode v
  /\ _sample_stream_count (fold_left display q v)
     = _sample_stream_count v + length q.
Proof.
  induction q as [| m q IH]; intros v; cbn [fold_left length].
  - split; [reflexivity | lia].
  - destruct (IH (display v m)) as [E1 E2].
    destruct (display_fields v m) as (_ & _ & _ & D1 & D2).
    rewrite E1, E2, D1, D2. split; [reflexivity | lia].
Qed.

(** X13.  A frame of the GUI thread, when not paused, empties the queue
    and shows the newest queued message: the x-array is the sample
    index times the message's own spacing, the y-array its samples in
    the current display mode, and the frame counter has grown by the
    number of messages taken, the older ones having been drawn and
    overdrawn on the way.  When paused the frame changes nothing, and
    the queue is left as it is. *)
Theorem frame_shows_newest_queued st v q0 m :
  _paused st = false ->
  _sample_stream_queue st = q0 ++ [m] ->
  let st' := fst (_pop_sample_stream_queue st v) in
  let v' := snd (_pop_sample_stream_queue st v) in
  _sample_stream_queue st' = []
  /\ _buffered_sample_stream st' = _buffered_sample_stream st
  /\ _last_displayed_sample_stream v' = Some m
  /\ _last_x_as_array v'
     = Some (Numpy.arange_times (length (sample m)) (sample_spacing_ps m))
  /\ _last_y_as_array v'
     = Some (_convert_y_to (sample m) S_N (_y_display_mode v)
               (ref_50ohm m) (ref_unit_amp m))
  /\ _sample_stream_count v' = _sample_stream_count v + S (length q0)
  /\ (forall st0 v0, _paused st0 = true ->
        _pop_sample_stream_queue st0 v0 = (st0, v0)).
Proof.
  intros Hp Hq. rewrite pop_running by exact Hp. cbn [fst snd].
  rewrite Hq, fold_left_app. cbn [fold_left].
  destruct (display_fields (fold_left display q0 v) m)
    as (D1 & D2 & D3 & D4 & D5).
  destruct (fold_display_fields q0 v) as [E1 E2].
  rewrite D1, D2, D3, D5, E1, E2.
  repeat match goal with |- _ /\ _ => split end; try reflexivity.
  - lia.
  - intros st0 v0. apply pop_paused.
Qed.

Lemma frame_shows_newest_queued_witness :
  _last_displayed_sample_stream
    (snd (_pop_sample_stream_queue
            (with_queue (_on_connect 1) [msg_old; msg_new] 2) View.initial))
  = Some msg_new.
Proof.
  apply (frame_shows_newest_queued
           (with_queue (_on_connect 1) [msg_old; msg_new] 2) View.initial
           [msg_old] msg_new); reflexivity.
Defined.

(** X14.  Clear Display starts the averaging over: the queue is empty,
    nothing is displayed any more (a redraw is a no-op and the cursor
    readouts have no data), and the next full window of matching
    messages is averaged from those messages alone, whatever had been
    accumulated before. *)
Theorem clear_display_restarts_window st v f rest :
  _connected st = true -> _paused st = false ->
  _waveform_average_count st = S (length rest) ->
  Forall (joins f) rest ->
  let st1 := fst (_on_clear_display st v) in
  let v1 := snd (_on_clear_display st v) in
  _sample_stream_queue st1 = []
  /\ _update_scatter_plot v1 = v1
  /\ (forall log xq, vcursor_readout v1 log xq = PyNone)
  /\ (exists st2,
        _radium_sample_stream st1 (f :: rest) = Some st2
        /\ _sample_stream_queue st2 = [mean_of f rest]
        /\ signals st2 = S (signals st)).
Proof.
  intros Hc Hp Hn HF. cbn [_on_clear_display fst snd].
  unfold _clear_sample_stream_queue. rewrite drain_all.
  cbn [snd with_queue with_accumulator _sample_stream_queue _connected
       _paused _buffered_sample_stream rx_count_for_avg_calc
       _waveform_average_count signals].
  repeat match goal with |- _ /\ _ => split end; try reflexivity.
  eexists. split.
  - apply run_window; cbn; auto.
  - unfold emit. cbn. auto.
Qed.

Lemma clear_display_restarts_window_witness :
  exists st2,
    _radium_sample_stream
      (fst (_on_clear_display
              (with_accumulator (_on_connect 2) (Some msg_old) 1) View.initial))
      [msg_first; msg_last] = Some st2
    /\ _sample_stream_queue st2 = [mean_of msg_first [msg_last]]
    /\ signals st2 = 1.
Proof.
  apply (clear_display_restarts_window
           (with_accumulator (_on_connect 2) (Some msg_old) 1) View.initial
           msg_first [msg_last]); try reflexivity.
  repeat constructor; unfold same_epoch; cbn; now rewrite !Reqb_true.
Defined.

End PipelineMore.

(** ** More on the redraw: [_update_scatter_plot] *)
Section RedrawMore.
Import Ingest Transform Cursor View.
Local Open Scope R_scope.

Lemma redraw_fields v m :
  _last_displayed_sample_stream v = Some m ->
  _last_x_as_array (_update_scatter_plot v)
  = Some (Numpy.arange_times (length (sample m)) (sample_spacing_ps m))
  /\ _last_y_as_array (_update_scatter_plot v)
     = Some (_convert_y_to (sample m) S_N (_y_display_mode v)
               (ref_50ohm m) (ref_unit_amp m))
  /\ _y_display_mode (_update_scatter_plot v) = _y_display_mode v
  /\ _last_displayed_sample_stream (_update_scatter_plot v) = Some m
  /\ _prev_displayed_mode (_update_scatter_plot v) = Some (_y_display_mode v).
Proof.
  intros Hm. unfold _update_scatter_plot, _update_scatter_plot_cursors.
  rewrite Hm. destruct (Nat.ltb 0 _); cbn; auto.
Qed.

(** X16.  Every redraw leaves the two arrays the cursor readout works
    on with one length, that of the displayed message, so that a cursor
    readout after a redraw never fails on an index - whatever the
    message holds and wherever the cursor is. *)
Theorem redraw_keeps_readout_safe v m :
  _last_displayed_sample_stream v = Some m ->
  exists xs ys,
    _last_x_as_array (_update_scatter_plot v) = Some xs
    /\ _last_y_as_array (_update_scatter_plot v) = Some ys
    /\ length xs = length (sample m)
    /\ length ys = length (sample m)
    /\ (forall log xq,
          vcursor_readout (_update_scatter_plot v) log xq <> PyIndexError).
Proof.
  intros Hm. destruct (redraw_fields v m Hm) as (Ex & Ey & _).
  do 2 eexists. split; [exact Ex |]. split; [exact Ey |].
  assert (Hx : length (Numpy.arange_times (length (sample m))
                         (sample_spacing_ps m)) = length (sample m))
    by apply arange_times_length.
  assert (Hy : length (_convert_y_to (sample m) S_N (_y_display_mode v)
                         (ref_50ohm m) (ref_unit_amp m)) = length (sample m))
    by (unfold _convert_y_to; apply length_map).
  repeat split; try assumption.
  intros log xq. unfold vcursor_readout. rewrite Ex, Ey.
  apply y_at_x_total. congruence.
Qed.

Lemma redraw_keeps_readout_safe_witness :
  vcursor_readout
    (_update_scatter_plot (display View.initial msg_first)) true NaN
  <> PyIndexError.
Proof.
  destruct (redraw_keeps_readout_safe (display View.initial msg_first) msg_first)
    as (xs & ys & _ & _ & _ & _ & H); [reflexivity | exact (H true NaN)].
Defined.

Lemma DisplayMode_eqb_refl mode : _DisplayMode_eqb mode mode = true.
Proof. now destruct mode. Qed.

Lemma new_data_cursors_idempotent n s c1 c2 p1 p2 :
  0 <= s -> value c1 = Fin p1 -> value c2 = Fin p2 ->
  let r := _update_scatter_plot_cursors n (Fin s) c1 c2 in
  _update_scatter_plot_cursors n (Fin s) (snd (fst r)) (snd r) = r.
Proof.
  intros Hs H1 H2. unfold _update_scatter_plot_cursors.
  rewrite arange_times_length. destruct n as [| n]; [reflexivity |].
  cbn [Nat.ltb Nat.leb fst snd]. rewrite arange_times_last.
  assert (Hmx : 0 <= INR n * s).
  { apply Rmult_le_pos; [apply pos_INR | exact Hs]. }
  rewrite (new_data_cursor c1 p1 _ H1 Hmx), (new_data_cursor c2 p2 _ H2 Hmx).
  set (q1 := if Rlt_dec p1 0 then 0 else if Rlt_dec (INR n * s) p1 then INR n * s else p1).
  set (q2 := if Rlt_dec p2 0 then 0 else if Rlt_dec (INR n * s) p2 then INR n * s else p2).
  assert (Hq1 : 0 <= q1 <= INR n * s).
  { subst q1. destruct (Rlt_dec p1 0); [lra |].
    destruct (Rlt_dec (INR n * s) p1); lra. }
  assert (Hq2 : 0 <= q2 <= INR n * s).
  { subst q2. destruct (Rlt_dec p2 0); [lra |].
    destruct (Rlt_dec (INR n * s) p2); lra. }
  rewrite (new_data_cursor (mkLine (Fin q1) _ _) q1 _ eq_refl Hmx).
  rewrite (new_data_cursor (mkLine (Fin q2) _ _) q2 _ eq_refl Hmx).
  cbn [isVisible].
  destruct (Rlt_dec q1 0); [lra |]. destruct (Rlt_dec (INR n * s) q1); [lra |].
  destruct (Rlt_dec q2 0); [lra |]. destruct (Rlt_dec (INR n * s) q2); [lra |].
  reflexivity.
Qed.

(** X17.  A redraw is idempotent: with a message displayed whose sample
    spacing is finite and not negative, and the vertical cursors at
    finite positions, drawing a second time changes nothing - neither
    the arrays, nor the vertical cursors and their bounds, nor the
    horizontal cursors, which are converted on the first redraw after a
    change of display mode only. *)
Theorem redraw_is_idempotent v m s p1 p2 :
  _last_displayed_sample_stream v = Some m ->
  sample_spacing_ps m = Fin s -> 0 <= s ->
  value (_vcursor1 v) = Fin p1 -> value (_vcursor2 v) = Fin p2 ->
  _update_scatter_plot (_update_scatter_plot v) = _update_scatter_plot v.
Proof.
  intros Hm Hs Hs0 H1 H2.
  pose proof (new_data_cursors_idempotent (length (sample m)) s
                (_vcursor1 v) (_vcursor2 v) p1 p2 Hs0 H1 H2) as Hid.
  cbv zeta in Hid.
  unfold _update_scatter_plot at 2 3. rewrite Hm, Hs.
  destruct (_update_scatter_plot_cursors (length (sample m)) (Fin s)
              (_vcursor1 v) (_vcursor2 v)) as [[xs c1] c2] eqn:E.
  cbn [fst snd] in Hid.
  unfold _update_scatter_plot.
  cbn [_last_displayed_sample_stream _y_display_mode _vcursor1 _vcursor2
       _prev_displayed_mode _hcursor1 _hcursor2 _sample_stream_count].
  rewrite Hs, Hid. unfold mode_differs. rewrite DisplayMode_eqb_refl.
  cbn [negb]. reflexivity.
Qed.

Lemma redraw_is_idempotent_witness :
  _update_scatter_plot (_update_scatter_plot (display View.initial msg_first))
  = _update_scatter_plot (display View.initial msg_first).
Proof.
  apply (redraw_is_idempotent (display View.initial msg_first) msg_first
           1 (1 * 1) (1 * 1)); try reflexivity.
  - lra.
  - unfold display, _update_scatter_plot, _update_scatter_plot_cursors.
    float_eval.
    change (setVisible vcursor1_init false) with (mkLine (Fin 1000) None false).
    rewrite new_data_clamps_to_nearest by lra.
    destruct (Rlt_dec 1000 0); [lra |].
    destruct (Rlt_dec (1 * 1) 1000); [reflexivity | lra].
  - unfold display, _update_scatter_plot, _update_scatter_plot_cursors.
    float_eval.
    change (setVisible vcursor2_init false) with (mkLine (Fin 2000) None false).
    rewrite new_data_clamps_to_nearest by lra.
    destruct (Rlt_dec 2000 0); [lra |].
    destruct (Rlt_dec (1 * 1) 2000); [reflexivity | lra].
Defined.

(** X18.  A horizontal cursor stays on the level it marks when the
    display leaves S_n: sitting, in the S_n display, on the value of a
    sample, it sits after the change to another mode on the value that
    sample is displayed with in the new mode - cursor and samples are
    converted by the same function from the same mode. *)
Theorem hcursor_follows_sample_level v m x mode :
  _last_displayed_sample_stream v = Some m ->
  In x (sample m) ->
  _prev_displayed_mode v = Some S_N ->
  mode <> S_N ->
  value (_hcursor1 v) = x ->
  maxRange (_hcursor1 v) = None ->
  let v' := _update_scatter_plot (with_display_mode v mode) in
  value (_hcursor1 v')
  = convert_elem x S_N mode (ref_50ohm m) (ref_unit_amp m)
  /\ exists ys, _last_y_as_array v' = Some ys /\ In (value (_hcursor1 v')) ys.
Proof.
  intros Hm Hin Hprev Hne Hval Hrange.
  assert (Hh : value (_hcursor1 (_update_scatter_plot (with_display_mode v mode)))
               = convert_elem x S_N mode (ref_50ohm m) (ref_unit_amp m)).
  { unfold _update_scatter_plot, with_display_mode.
    cbn [_last_displayed_sample_stream _y_display_mode _vcursor1 _vcursor2
         _prev_displayed_mode _hcursor1 _hcursor2 _sample_stream_count].
    rewrite Hm, Hprev.
    destruct (_update_scatter_plot_cursors _ _ _ _) as [[xs c1] c2].
    assert (Hd : mode_differs (Some S_N) mode = true).
    { destruct mode; try reflexivity. now contradiction Hne. }
    rewrite Hd. cbn [_hcursor1].
    unfold convert_hcursor, setValue. rewrite Hrange, Hval. reflexivity. }
  cbv zeta. split; [exact Hh |].
  assert (Hm' : _last_displayed_sample_stream (with_display_mode v mode) = Some m)
    by exact Hm.
  destruct (redraw_fields _ m Hm') as (_ & Ey & _).
  eexists. split; [exact Ey |].
  rewrite Hh. unfold _convert_y_to. cbn [with_display_mode _y_display_mode].
  apply (in_map (fun y => convert_elem y S_N mode (ref_50ohm m) (ref_unit_amp m))).
  exact Hin.
Qed.

Lemma hcursor_follows_sample_level_witness :
  value (_hcursor1
           (_update_scatter_plot
              (with_display_mode
                 (display View.initial (message [71 / 100; 2] 1 16 0 1)) RHO)))
  = convert_elem (Fin (71 / 100)) S_N RHO (Fin 0) (Fin 1).
Proof.
  apply (hcursor_follows_sample_level
           (display View.initial (message [71 / 100; 2] 1 16 0 1))
           (message [71 / 100; 2] 1 16 0 1) (Fin (71 / 100)) RHO);
    try reflexivity.
  - now left.
  - discriminate.
Defined.

End RedrawMore.

(** ** The connection: [_on_connect] *)
Section ConnectionMore.
Import Connection.
Local Open Scope string_scope.

Lemma split_nonempty sep s : split sep s <> [].
Proof.
  destruct s as [| c s]; cbn; [discriminate |].
  destruct (Ascii.eqb c sep); [discriminate |].
  destruct (split sep s); discriminate.
Qed.

Lemma split_cons_other sep c s :
  Ascii.eqb c sep = false ->
  split sep (String c s)
  = String c (hd "" (split sep s)) :: tl (split sep s).
Proof.
  intros H. cbn [split]. rewrite H.
  pose proof (split_nonempty sep s). now destruct (split sep s).
Qed.

Lemma split_hd_empty sep s :
  hd "" (split sep s) = "" <-> s = "" \/ exists s', s = String sep s'.
Proof.
  destruct s as [| c s].
  - cbn. split; auto.
  - destruct (Ascii.eqb_spec c sep) as [-> | Hne].
    + cbn [split]. rewrite Ascii.eqb_refl. cbn. split; eauto.
    + rewrite split_cons_other by now apply Ascii.eqb_neq.
      cbn [hd]. split; [discriminate |].
      intros [H | [s' H]]; [discriminate |].
      injection H as -> _. contradiction.
Qed.

Lemma major_is_zero id :
  version_part id 0 = "0" <-> id = "0" \/ exists rest, id = "0." ++ rest.
Proof.
  unfold version_part.
  assert (E : nth 0 (split "." id) "" = hd "" (split "." id))
    by now destruct (split "." id).
  rewrite E. clear E. destruct id as [| c s].
  - cbn. split; [discriminate | intros [H | [r H]]; discriminate].
  - destruct (Ascii.eqb_spec c ".") as [-> | Hne].
    + cbn. split; [discriminate | intros [H | [r H]]; discriminate].
    + rewrite split_cons_other by now apply Ascii.eqb_neq.
      cbn [hd]. split.
      * intros H. injection H as -> H. apply split_hd_empty in H.
        destruct H as [-> | [s' ->]]; [now left | right; now exists s'].
      * intros [H | [r H]].
        -- injection H as -> ->. reflexivity.
        -- cbn in H. injection H as -> ->. cbn [split].
           now rewrite Ascii.eqb_refl.
Qed.

(** X19.  The version check of a connection attempt, on the version id
    as the instrument sends it: the id is accepted exactly when it is
    "0", or starts with "0.", or has "dev" as its fourth dot-separated
    part - the latter whatever its major number is. *)
Theorem version_check_by_prefix id :
  version_supported id = true
  <-> (id = "0" \/ (exists rest, id = "0." ++ rest)
       \/ version_part id 3 = "dev").
Proof.
  unfold version_supported.
  rewrite negb_true_iff, andb_false_iff, !negb_false_iff, !String.eqb_eq.
  rewrite major_is_zero. tauto.
Qed.

Lemma attempt_ok dev :
  snd (attempt dev) = true
  <-> nitrogen_is_ready dev = true
      /\ (exists id, version_id dev = Some id /\ version_supported id = true)
      /\ radium_is_ready dev = true.
Proof.
  unfold attempt. destruct dev as [n [id |] r]; cbn.
  - destruct n, (version_supported id) eqn:E, r; cbn; split;
      try discriminate; try (intros (? & (? & ? & ?) & ?); congruence).
    intros _. repeat split. now exists id.
  - destruct n; split; try discriminate;
      intros (_ & (? & ? & _) & _); discriminate.
Qed.

Lemma attempt_actions dev :
  ~ In StartThreads (fst (attempt dev))
  /\ (In ListenToSampleStream (fst (attempt dev)) -> snd (attempt dev) = true)
  /\ hd_error (fst (attempt dev)) = Some NitrogenIsReady.
Proof.
  unfold attempt. destruct dev as [[] [id |] []]; cbn;
    try destruct (version_supported id); cbn;
    (split; [| split]); try reflexivity; intuition discriminate.
Qed.

(** X20.  A connection attempt reports success exactly when an address
    was given, nitrogen answered, the version id passed the check and
    radium answered.  Only then is the sample stream subscribed to and
    are the work threads started, and the state the sample-stream
    thread starts from is then the fresh one: connected, not paused,
    nothing buffered, an empty queue, the averaging factor kept.  In
    every other case the application is left disconnected with the
    same reset state, and no thread is started.  A previous connection
    is torn down first in all cases. *)
Theorem connect_succeeds_only_when_ready st v ip dev :
  let o := _on_connect st v ip dev in
  (returned o = true
   <-> ip <> ""
       /\ nitrogen_is_ready dev = true
       /\ (exists id, version_id dev = Some id /\ version_supported id = true)
       /\ radium_is_ready dev = true)
  /\ (In StartThreads (actions o) <-> returned o = true)
  /\ (In ListenToSampleStream (actions o) -> returned o = true)
  /\ _running o = returned o
  /\ Ingest._connected (ingest o) = returned o
  /\ (returned o = true ->
      ingest o = Ingest._on_connect (Ingest._waveform_average_count st))
  /\ (returned o = false -> ingest o = reset_ingest st)
  /\ view o = reset_view v
  /\ (Ingest._connected st = true ->
      firstn 2 (actions o) = [CancelListeners; JoinThreads]).
Proof.
  unfold _on_connect.
  pose proof (attempt_ok dev) as Hok.
  pose proof (attempt_actions dev) as (Hno & Hsub & _).
  destruct (String.eqb_spec ip "") as [-> | Hip].
  - cbn. repeat match goal with |- _ /\ _ => split end;
      try reflexivity; try discriminate.
    + split; [discriminate | now intros [? _]].
    + split; [| discriminate].
      destruct (Ingest._connected st); cbn; intuition discriminate.
    + destruct (Ingest._connected st); cbn; intuition discriminate.
    + now intros ->.
  - destruct (attempt dev) as [done ok]. cbn [fst snd] in *.
    destruct ok; cbn [returned actions ingest view _running].
    + repeat match goal with |- _ /\ _ => split end;
        try reflexivity; try discriminate; try tauto.
      * split; [reflexivity | intros _].
        rewrite !in_app_iff. right. right. now left.
      * now intros ->.
    + repeat match goal with |- _ /\ _ => split end;
        try reflexivity; try discriminate.
      * split; [discriminate |]. intros (_ & H). apply Hok in H. discriminate.
      * split; [| discriminate]. rewrite in_app_iff. intros [H | H].
        -- destruct (Ingest._connected st); cbn in H; intuition discriminate.
        -- contradiction.
      * rewrite in_app_iff. intros [H | H].
        -- destruct (Ingest._connected st); cbn in H; intuition discriminate.
        -- now apply Hsub.
      * now intros ->.
Qed.

End ConnectionMore.

(** ** More on the presets: [_normalize_preset], [_on_tdr_preset_changed] *)
Section PresetMore.
Import Preset PresetCombo.
Local Open Scope string_scope.

Lemma is_digit_lower_char c : is_digit (lower_char c) = is_digit c.
Proof.
  destruct c as [[] [] [] [] [] [] [] []]; reflexivity.
Qed.

Lemma no_digit_lower s :
  existsb is_digit (list_ascii_of_string (lower s))
  = existsb is_digit (list_ascii_of_string s).
Proof.
  induction s as [| c s IH]; cbn [lower list_ascii_of_string existsb];
    [reflexivity |].
  now rewrite is_digit_lower_char, IH.
Qed.

Lemma no_digit_lstrip s :
  existsb is_digit (list_ascii_of_string s) = false ->
  existsb is_digit (list_ascii_of_string (lstrip s)) = false.
Proof.
  induction s as [| c s IH]; cbn [lstrip]; [easy |].
  destruct (is_space c); [| easy].
  cbn [list_ascii_of_string existsb]. intros H.
  apply orb_false_iff in H. now apply IH.
Qed.

Lemma no_digit_rev s : forall acc,
  existsb is_digit (list_ascii_of_string (rev_string s acc))
  = existsb is_digit (list_ascii_of_string s)
    || existsb is_digit (list_ascii_of_string acc).
Proof.
  induction s as [| c s IH]; intros acc; cbn [rev_string]; [reflexivity |].
  rewrite IH. cbn [list_ascii_of_string existsb].
  destruct (is_digit c), (existsb is_digit (list_ascii_of_string s)),
    (existsb is_digit (list_ascii_of_string acc)); reflexivity.
Qed.

Lemma no_digit_strip s :
  existsb is_digit (list_ascii_of_string s) = false ->
  existsb is_digit (list_ascii_of_string (strip s)) = false.
Proof.
  intros H. unfold strip, rstrip. rewrite no_digit_rev. cbn [list_ascii_of_string existsb].
  rewrite orb_false_r. apply no_digit_lstrip.
  rewrite no_digit_rev. cbn [list_ascii_of_string existsb].
  rewrite orb_false_r. now apply no_digit_lstrip.
Qed.

Lemma no_digit_findall : forall fuel s,
  existsb is_digit (list_ascii_of_string s) = false ->
  findall_fuel fuel s = [].
Proof.
  induction fuel as [| fuel IH]; intros s H; [reflexivity |].
  destruct s as [| c s]; [reflexivity |].
  cbn [list_ascii_of_string existsb] in H. apply orb_false_iff in H.
  destruct H as [Hc Hs]. cbn [findall_fuel]. rewrite Hc. now apply IH.
Qed.

Lemma no_digit_not_key s :
  existsb is_digit (list_ascii_of_string s) = false ->
  lookup _PRESET_ALIASES s = None.
Proof.
  intros H. unfold _PRESET_ALIASES. cbn [lookup].
  repeat match goal with
  | |- context [String.eqb s ?k] =>
      destruct (String.eqb_spec s k) as [E | _];
        [rewrite E in H; vm_compute in H; discriminate |]
  end.
  reflexivity.
Qed.

(** X21.  Every input made of characters with code points below 256 -
    which is what a [string] here holds; among them only 0 to 9 are
    decimal digits - that holds none of the digits 0 to 9 is rejected:
    it is no key of the table and holds no numeric token, so
    [_normalize_preset] raises its [ValueError] and
    [configure_tdr_preset] sends nothing to the instrument. *)
Theorem digit_free_preset_rejected s :
  existsb is_digit (list_ascii_of_string s) = false ->
  _normalize_preset s = inr (unrecognized s)
  /\ configure_tdr_preset s = ([], Some (unrecognized s)).
Proof.
  intros H.
  assert (H0 : existsb is_digit (list_ascii_of_string (lower (strip s))) = false).
  { rewrite no_digit_lower. now apply no_digit_strip. }
  assert (E : _normalize_preset s = inr (unrecognized s)).
  { unfold _normalize_preset. rewrite (no_digit_not_key _ H0).
    unfold findall. now rewrite (no_digit_findall _ _ H0). }
  split; [exact E |]. unfold configure_tdr_preset. now rewrite E.
Qed.

Lemma digit_free_preset_rejected_witness :
  _normalize_preset "sixteen ns / one ps"
  = inr (unrecognized "sixteen ns / one ps").
Proof.
  apply (digit_free_preset_rejected "sixteen ns / one ps"). reflexivity.
Defined.

Lemma combo_get_is_alias_lookup name :
  get _tdr_cfg_preset_map name = lookup _PRESET_ALIASES name.
Proof.
  unfold get, _tdr_cfg_preset_map, _PRESET_ALIASES. cbn [lookup].
  repeat match goal with
  | |- context [String.eqb name ?k] =>
      destruct (String.eqb_spec name k) as [E | _];
        [subst name; vm_compute; reflexivity |]
  end.
  reflexivity.
Qed.

(** X22.  The preset combo box of the application and the alias table
    of the MCP server name the same presets: choosing a name in the
    combo box while connected sends [ConfigureTDRPreset] with exactly
    the preset the MCP table gives for that name, and nothing for a
    name the table does not hold (the place holders "--" and "Custom"
    among them); nothing is sent while disconnected.  A name that
    selects a preset in the combo box selects the same preset through
    [configure_tdr_preset]. *)
Theorem combo_and_alias_table_agree name :
  _on_tdr_preset_changed true name
  = match lookup _PRESET_ALIASES name with
    | Some p => [ConfigureTDRPreset p]
    | None => []
    end
  /\ _on_tdr_preset_changed false name = []
  /\ _on_tdr_preset_changed true "--" = []
  /\ _on_tdr_preset_changed true "Custom" = []
  /\ (forall p,
        In (name, Some p) _tdr_cfg_preset_map ->
        _on_tdr_preset_changed true name = [ConfigureTDRPreset p]
        /\ configure_tdr_preset name
           = ([ConfigureTDRPreset p; GetTDRConfiguration], None)).
Proof.
  repeat match goal with |- _ /\ _ => split end; try reflexivity.
  - unfold _on_tdr_preset_changed. cbn [negb].
    now rewrite combo_get_is_alias_lookup.
  - intros p Hin. unfold _tdr_cfg_preset_map in Hin. cbn [In] in Hin.
    repeat (destruct Hin as [Hin | Hin];
            [injection Hin as <- <- || discriminate Hin;
             vm_compute; split; reflexivity |]).
    contradiction.
Qed.

(** X23.  The numeric path agrees with the table: every key of the
    alias table, stripped of its units and written as its two numbers
    separated by a blank, resolves to the preset of that key - each
    number read as a float and printed with one decimal gives back the
    number as the key writes it. *)
Theorem numbers_of_a_key_resolve_to_it :
  Forall (fun kp : string * TDRConfigurationPreset =>
            match findall (fst kp) with
            | [ns; ps] =>
                lookup _PRESET_ALIASES (ns ++ " " ++ ps) = None
                /\ format_1f (float_of_token ns) = ns
                /\ format_1f (float_of_token ps) = ps
                /\ _normalize_preset (ns ++ " " ++ ps) = inl (snd kp)
            | _ => False
            end)
    _PRESET_ALIASES.
Proof.
  unfold _PRESET_ALIASES.
  repeat (apply Forall_cons; [vm_compute; repeat split; reflexivity |]).
  apply Forall_nil.
Qed.

End PresetMore.

(** ** The MCP tool [get_one_sample_stream] *)
Section ToolsMore.
Import Ingest Cursor Tools.
Local Open Scope R_scope.

Lemma fold_py_min_Fin : forall l a,
  exists m, fold_left py_min (map Fin l) (Fin a) = Fin m
            /\ m <= a /\ Forall (fun x => m <= x) l /\ (m = a \/ In m l).
Proof.
  induction l as [| x l IH]; intros a; cbn [map fold_left].
  - exists a. repeat split; [lra | constructor | now left].
  - assert (E : py_min (Fin a) (Fin x) = Fin (if Rlt_dec x a then x else a)).
    { unfold py_min. cbn. unfold Rltb. now destruct (Rlt_dec x a). }
    rewrite E. destruct (IH (if Rlt_dec x a then x else a))
      as (m & Hm & Hle & Hall & Hin).
    exists m. split; [exact Hm |].
    destruct (Rlt_dec x a) as [Hxa | Hxa].
    + repeat split; [lra | constructor; [lra | exact Hall] |].
      destruct Hin as [-> | Hin]; [right; now left | right; now right].
    + repeat split; [lra | constructor; [lra | exact Hall] |].
      destruct Hin as [-> | Hin]; [now left | right; now right].
Qed.

Lemma fold_py_max_Fin : forall l a,
  exists m, fold_left py_max (map Fin l) (Fin a) = Fin m
            /\ a <= m /\ Forall (fun x => x <= m) l /\ (m = a \/ In m l).
Proof.
  induction l as [| x l IH]; intros a; cbn [map fold_left].
  - exists a. repeat split; [lra | constructor | now left].
  - assert (E : py_max (Fin a) (Fin x) = Fin (if Rlt_dec a x then x else a)).
    { unfold py_max. cbn. unfold Rltb. now destruct (Rlt_dec a x). }
    rewrite E. destruct (IH (if Rlt_dec a x then x else a))
      as (m & Hm & Hle & Hall & Hin).
    exists m. split; [exact Hm |].
    destruct (Rlt_dec a x) as [Hax | Hax].
    + repeat split; [lra | constructor; [lra | exact Hall] |].
      destruct Hin as [-> | Hin]; [right; now left | right; now right].
    + repeat split; [lra | constructor; [lra | exact Hall] |].
      destruct Hin as [-> | Hin]; [now left | right; now right].
Qed.

(** X24.  The summary of a message whose samples are all finite: the
    minimum and the maximum are samples of the message and bound every
    sample, and the count is the number of samples. *)
Theorem summary_of_finite_samples msg r rs include_samples max_samples :
  sample msg = map Fin (r :: rs) ->
  exists mn mx,
    option_map smin
      (stats (get_one_sample_stream msg include_samples max_samples))
    = Some (Fin mn)
    /\ option_map smax
         (stats (get_one_sample_stream msg include_samples max_samples))
       = Some (Fin mx)
    /\ count (get_one_sample_stream msg include_samples max_samples)
       = S (length rs)
    /\ In mn (r :: rs) /\ In mx (r :: rs)
    /\ (forall x, In x (r :: rs) -> mn <= x <= mx).
Proof.
  intros Hs. unfold get_one_sample_stream. rewrite Hs.
  cbn [map]. cbn [stats count length option_map smin smax]. rewrite length_map.
  destruct (fold_py_min_Fin rs r) as (mn & Emn & Hmn & Amn & Imn).
  destruct (fold_py_max_Fin rs r) as (mx & Emx & Hmx & Amx & Imx).
  unfold builtin_min, builtin_max. rewrite Emn, Emx.
  exists mn, mx.
  repeat match goal with |- _ /\ _ => split end; try reflexivity.
  - destruct Imn as [-> | H]; [now left | now right].
  - destruct Imx as [-> | H]; [now left | now right].
  - intros x [<- | Hx]; [lra |]. rewrite Forall_forall in Amn, Amx.
    split; [now apply Amn | now apply Amx].
Qed.

Lemma summary_of_finite_samples_witness :
  exists mn mx,
    option_map smin (stats (get_one_sample_stream msg_first false 100))
    = Some (Fin mn)
    /\ option_map smax (stats (get_one_sample_stream msg_first false 100))
       = Some (Fin mx)
    /\ count (get_one_sample_stream msg_first false 100) = 2%nat
    /\ In mn [1; 2] /\ In mx [1; 2]
    /\ (forall x, In x [1; 2] -> mn <= x <= mx).
Proof.
  apply (summary_of_finite_samples msg_first 1 [2] false 100). reflexivity.
Defined.

Lemma fold_fadd_NaN l : fold_left fadd l NaN = NaN.
Proof. induction l as [| x l IH]; [reflexivity | exact IH]. Qed.

Lemma fold_py_min_NaN l : fold_left py_min l NaN = NaN.
Proof.
  induction l as [| x l IH]; [reflexivity |]. cbn [fold_left].
  now destruct x.
Qed.

Lemma fold_py_max_NaN l : fold_left py_max l NaN = NaN.
Proof.
  induction l as [| x l IH]; [reflexivity |]. cbn [fold_left].
  now destruct x.
Qed.

Lemma py_min_NaN_r a : py_min a NaN = a.
Proof. now destruct a. Qed.

Lemma py_max_NaN_r a : py_max a NaN = a.
Proof. now destruct a. Qed.

(** X25.  What a NaN sample does to the summary.  As the first sample
    it turns minimum, maximum and mean into NaN.  Anywhere else it is
    skipped by the minimum and the maximum, which are those of the
    other samples, while the mean is NaN: the order of the samples
    decides what the summary says. *)
Theorem summary_with_nan_sample msg include_samples max_samples :
  (forall xs, sample msg = NaN :: xs ->
     stats (get_one_sample_stream msg include_samples max_samples)
     = Some {| smin := NaN; smax := NaN; smean := NaN |})
  /\ (forall x xs1 xs2, sample msg = x :: xs1 ++ NaN :: xs2 ->
        stats (get_one_sample_stream msg include_samples max_samples)
        = Some {| smin := builtin_min x (xs1 ++ xs2);
                  smax := builtin_max x (xs1 ++ xs2);
                  smean := NaN |}).
Proof.
  split.
  - intros xs Hs. unfold get_one_sample_stream. rewrite Hs. cbn [stats].
    unfold builtin_min, builtin_max, builtin_sum. cbn [fold_left fadd].
    now rewrite fold_py_min_NaN, fold_py_max_NaN, fold_fadd_NaN.
  - intros x xs1 xs2 Hs. unfold get_one_sample_stream. rewrite Hs.
    cbn [stats]. unfold builtin_min, builtin_max, builtin_sum.
    rewrite !fold_left_app. cbn [fold_left].
    rewrite py_min_NaN_r, py_max_NaN_r.
    rewrite fold_left_app. cbn [fold_left].
    rewrite fadd_NaN_r, fold_fadd_NaN. reflexivity.
Qed.

(** X26.  The samples the tool returns on request are as many as the
    message has, whatever [max_samples] says - the cap of the
    docstring is not applied, and the whole reply does not depend on
    it.  A NaN sample is returned as NaN.  Without the request no
    samples are returned. *)
Theorem returned_samples_not_capped msg include_samples max_samples max_samples' :
  sample msg <> [] ->
  (exists l,
      samples (get_one_sample_stream msg true max_samples) = Some l
      /\ length l = length (sample msg)
      /\ count (get_one_sample_stream msg true max_samples) = length l
      /\ forall i, nth_error (sample msg) i = Some NaN -> nth_error l i = Some NaN)
  /\ samples (get_one_sample_stream msg false max_samples) = None
  /\ get_one_sample_stream msg include_samples max_samples
     = get_one_sample_stream msg include_samples max_samples'.
Proof.
  intros Hne. unfold get_one_sample_stream.
  destruct (sample msg) as [| x xs] eqn:Hs; [congruence |].
  cbn [samples count]. repeat split.
  eexists. split; [reflexivity |]. rewrite length_map.
  repeat split. intros i Hi. now rewrite nth_error_map, Hi.
Qed.

Lemma returned_samples_not_capped_witness :
  exists l,
    samples (get_one_sample_stream msg_first true 1) = Some l
    /\ length l = 2%nat.
Proof.
  destruct (returned_samples_not_capped msg_first true 1 1)
    as ((l & Hl & Hlen & _) & _); [discriminate |].
  exists l. split; [exact Hl | exact Hlen].
Defined.

End ToolsMore.

(** ** The service table: [_trim_service_list], [_populate],
    [_on_add_entry] *)
Section BrowserMore.
Import Browser.
Local Open Scope string_scope.

(** The loop of [_trim_service_list] for the key ["ip"]. *)
Lemma trim_loop_ip : forall l merged,
  trim_loop merged l "ip"
  = Some (fold_left (fun m e => merge_entry m (Str (ip e)) e) l merged).
Proof.
  induction l as [| e l IH]; intros merged; [reflexivity |].
  cbn [trim_loop fold_left].
  change (getitem e "ip") with (Some (Str (ip e))). apply IH.
Qed.

Lemma merge_entry_keyed merged e :
  keyed_by_ip merged -> keyed_by_ip (merge_entry merged (Str (ip e)) e).
Proof.
  unfold keyed_by_ip. induction 1 as [| [k e0] merged Hk HF IH];
    cbn [merge_entry].
  - now repeat constructor.
  - destruct (value_eqb k (Str (ip e))).
    + constructor; [| exact HF]. cbn in *. now destruct (name e).
    + constructor; assumption.
Qed.

Lemma value_eqb_Str s t : value_eqb (Str s) (Str t) = String.eqb s t.
Proof. reflexivity. Qed.

Lemma merge_entry_ips merged e :
  keyed_by_ip merged ->
  map (fun ke => ip (snd ke)) (merge_entry merged (Str (ip e)) e)
  = if existsb (String.eqb (ip e)) (map (fun ke => ip (snd ke)) merged)
    then map (fun ke => ip (snd ke)) merged
    else (map (fun ke => ip (snd ke)) merged ++ [ip e])%list.
Proof.
  unfold keyed_by_ip. induction 1 as [| [k e0] merged Hk _ IH];
    cbn [merge_entry map existsb app fst snd]; [reflexivity |].
  cbn [fst snd] in Hk. subst k. rewrite value_eqb_Str.
  rewrite (String.eqb_sym (ip e) (ip e0)).
  destruct (String.eqb (ip e0) (ip e)); cbn [orb map snd].
  - now destruct (name e).
  - rewrite IH. now destruct (existsb _ _).
Qed.

Lemma existsb_eqb_In x l : existsb (String.eqb x) l = true <-> In x l.
Proof.
  rewrite existsb_exists. split.
  - intros (y & Hy & E). apply String.eqb_eq in E. now subst.
  - intros H. exists x. split; [exact H | apply String.eqb_refl].
Qed.

Lemma first_occurrences_ext l : forall seen seen',
  (forall x, In x seen <-> In x seen') ->
  first_occurrences seen l = first_occurrences seen' l.
Proof.
  induction l as [| x l IH]; intros seen seen' H; cbn [first_occurrences];
    [reflexivity |].
  assert (E : existsb (String.eqb x) seen = existsb (String.eqb x) seen').
  { apply eq_true_iff_eq. rewrite !existsb_eqb_In. apply H. }
  rewrite E. destruct (existsb (String.eqb x) seen').
  - now apply IH.
  - f_equal. apply IH. intros y. cbn [In]. now rewrite H.
Qed.

Lemma fold_merge_ips : forall l merged,
  keyed_by_ip merged ->
  let merged' := fold_left (fun m e => merge_entry m (Str (ip e)) e) l merged in
  keyed_by_ip merged'
  /\ map (fun ke => ip (snd ke)) merged'
     = (map (fun ke => ip (snd ke)) merged
        ++ first_occurrences (map (fun ke => ip (snd ke)) merged) (map ip l))%list.
Proof.
  induction l as [| e l IH]; intros merged Hk; cbn [fold_left map first_occurrences].
  - split; [exact Hk | now rewrite app_nil_r].
  - destruct (IH (merge_entry merged (Str (ip e)) e) (merge_entry_keyed _ e Hk))
      as [Hk' E].
    split; [exact Hk' |]. cbv zeta in E. rewrite E.
    rewrite (merge_entry_ips merged e Hk).
    destruct (existsb (String.eqb (ip e)) (map (fun ke => ip (snd ke)) merged))
      eqn:Ex; [reflexivity |].
    rewrite <- app_assoc. cbn [app]. do 2 f_equal.
    apply first_occurrences_ext. intros x.
    rewrite in_app_iff. cbn [In]. tauto.
Qed.

Lemma first_occurrences_spec l : forall seen,
  NoDup (first_occurrences seen l)
  /\ forall x, In x (first_occurrences seen l) <-> In x l /\ ~ In x seen.
Proof.
  induction l as [| y l IH]; intros seen; cbn [first_occurrences].
  - split; [constructor | intros x; cbn; tauto].
  - destruct (existsb (String.eqb y) seen) eqn:Ex.
    + destruct (IH seen) as [Hnd Hin]. split; [exact Hnd |].
      intros x. rewrite Hin. cbn [In]. apply existsb_eqb_In in Ex.
      split; [tauto |]. intros [[-> | H] Hn]; tauto.
    + destruct (IH (y :: seen)) as [Hnd Hin].
      assert (Hy : ~ In y seen).
      { intros H. apply existsb_eqb_In in H. congruence. }
      split.
      * constructor; [| exact Hnd]. rewrite Hin. cbn [In]. tauto.
      * intros x. cbn [In]. rewrite Hin. cbn [In].
        destruct (String.eqb_spec y x) as [-> | Hne]; [tauto |].
        split; [tauto |]. intros [[E | H] Hn]; [contradiction | tauto].
Qed.

Lemma trim_by_ip l :
  exists merged,
    _trim_service_list l "ip" = Some (map snd merged)
    /\ merged = fold_left (fun m e => merge_entry m (Str (ip e)) e) l []
    /\ map ip (map snd merged) = first_occurrences [] (map ip l).
Proof.
  unfold _trim_service_list. rewrite trim_loop_ip. cbn [option_map].
  eexists. split; [reflexivity |]. split; [reflexivity |].
  destruct (fold_merge_ips l [] (Forall_nil _)) as [_ E].
  cbv zeta in E. cbn [map app] in E. now rewrite map_map.
Qed.

(** X27.  Trimming the service list by address never fails and leaves
    one row per address: the addresses of the rows are the distinct
    addresses of the list in the order of their first occurrence.
    Trimming by a key the entries do not have raises [KeyError] as soon
    as there is an entry. *)
Theorem trim_leaves_one_row_per_address l :
  exists rows,
    _trim_service_list l "ip" = Some rows
    /\ map ip rows = first_occurrences [] (map ip l)
    /\ NoDup (map ip rows)
    /\ (forall a, In a (map ip rows) <-> In a (map ip l))
    /\ (forall e l', _trim_service_list (e :: l') "address" = None).
Proof.
  destruct (trim_by_ip l) as (merged & E & _ & Hips).
  exists (map snd merged). split; [exact E |]. split; [exact Hips |].
  destruct (first_occurrences_spec (map ip l) []) as [Hnd Hin].
  rewrite Hips. split; [exact Hnd |]. split.
  - intros a. rewrite Hin. cbn [In]. tauto.
  - reflexivity.
Qed.

Lemma merge_entry_absent merged e :
  keyed_by_ip merged ->
  ~ In (ip e) (map (fun ke => ip (snd ke)) merged) ->
  merge_entry merged (Str (ip e)) e = (merged ++ [(Str (ip e), e)])%list.
Proof.
  unfold keyed_by_ip. induction 1 as [| [k e0] merged Hk _ IH];
    intros Hn; cbn [merge_entry app]; [reflexivity |].
  cbn [fst snd] in Hk. subst k. rewrite value_eqb_Str.
  cbn [map In snd] in Hn.
  destruct (String.eqb_spec (ip e0) (ip e)) as [E | _]; [tauto |].
  rewrite IH; tauto.
Qed.

Lemma merge_entry_present_unnamed merged e :
  keyed_by_ip merged ->
  In (ip e) (map (fun ke => ip (snd ke)) merged) ->
  name e = "" ->
  merge_entry merged (Str (ip e)) e = merged.
Proof.
  unfold keyed_by_ip. induction 1 as [| [k e0] merged Hk _ IH];
    intros Hin Hname; [contradiction |].
  cbn [merge_entry]. cbn [fst snd] in Hk. subst k. rewrite value_eqb_Str.
  destruct (String.eqb_spec (ip e0) (ip e)) as [E | Hne].
  - now rewrite Hname.
  - f_equal. apply IH; [| exact Hname].
    cbn [map In snd] in Hin. tauto.
Qed.

(** X28.  Adding an entry by hand: an address that is already in the
    table - discovered or entered before - adds no row and changes
    none; a new address adds exactly one row, at the end, with that
    address and nothing else.  A cancelled dialog or an empty text
    changes nothing. *)
Theorem manual_entry_adds_at_most_one_row d address :
  address <> "" ->
  let known := (map ip (_prev_auto_discovered_services d)
                ++ _manual_entry_services d)%list in
  exists before after,
    _populate d (_prev_auto_discovered_services d) = Some before
    /\ _on_add_entry d address true = Some after
    /\ (In address known -> rows after = rows before)
    /\ (~ In address known ->
        rows after = (rows before ++ [manual_entry address])%list)
    /\ _on_add_entry d address false = Some d
    /\ _on_add_entry d "" true = Some d.
Proof.
  intros Hne. cbv zeta.
  unfold _on_add_entry. cbn [andb negb String.eqb].
  destruct (String.eqb_spec address "") as [E | _]; [contradiction |].
  cbn [negb]. unfold _populate.
  cbn [_manual_entry_services _prev_auto_discovered_services].
  set (auto := _prev_auto_discovered_services d).
  set (manual := _manual_entry_services d).
  rewrite map_app, app_assoc. cbn [map app].
  set (all := (auto ++ map manual_entry manual)%list).
  unfold _trim_service_list. rewrite !trim_loop_ip. cbn [option_map].
  do 2 eexists. split; [reflexivity |]. split; [reflexivity |].
  cbn [rows]. rewrite fold_left_app. cbn [fold_left].
  destruct (fold_merge_ips all [] (Forall_nil _)) as [Hk Hips].
  cbv zeta in Hips. cbn [map app] in Hips.
  set (merged := fold_left (fun m e => merge_entry m (Str (ip e)) e) all []) in *.
  change address with (ip (manual_entry address)) at 1 3.
  assert (Hknown : forall a,
             In a (map (fun ke => ip (snd ke)) merged)
             <-> In a (map ip auto ++ manual)%list).
  { intros a. rewrite Hips.
    destruct (first_occurrences_spec (map ip all) []) as [_ Hin].
    rewrite Hin. unfold all. rewrite map_app, map_map. cbn [ip manual_entry].
    rewrite map_id. cbn [In]. tauto. }
  repeat match goal with |- _ /\ _ => split end; try reflexivity.
  - intros Hin. rewrite merge_entry_present_unnamed; auto.
    now apply Hknown.
  - intros Hnin. rewrite merge_entry_absent; auto.
    + now rewrite map_app.
    + cbn [ip manual_entry]. now rewrite Hknown.
Qed.

Lemma manual_entry_adds_at_most_one_row_witness :
  exists before after,
    _populate dialog_demo (_prev_auto_discovered_services dialog_demo)
    = Some before
    /\ _on_add_entry dialog_demo "192.168.1.92" true = Some after
    /\ rows after = rows before
    /\ length (rows after) = 2.
Proof.
  destruct (manual_entry_adds_at_most_one_row dialog_demo "192.168.1.92")
    as (before & after & Hb & Ha & Hin & _); [discriminate |].
  exists before, after. split; [exact Hb |]. split; [exact Ha |].
  assert (E : rows after = rows before) by (apply Hin; now left).
  split; [exact E |]. rewrite E.
  vm_compute in Hb. injection Hb as <-. reflexivity.
Defined.

End BrowserMore.

(** ** The zoom axis *)
Section ZoomMore.
Import Zoom.
Local Open Scope string_scope.

Lemma react_preserves st i :
  consistent st /\ In (_zoom_axis_store st) ["x"; "y"; "both"; "none"] ->
  consistent (react st i)
  /\ In (_zoom_axis_store (react st i)) ["x"; "y"; "both"; "none"].
Proof.
  intros [Hc Hs]. unfold consistent, _update_zoom_mode in Hc.
  destruct st as [x y axis store]. cbn in Hc, Hs. subst axis.
  destruct i as [| | k | k]; [| | destruct k | destruct k];
    destruct x, y;
    repeat (destruct Hs as [<- | Hs]; [| try contradiction]);
    try contradiction; vm_compute; tauto.
Qed.

(** X29.  Whatever the user does with the two zoom check boxes and the
    X, Y and Shift keys, starting from the state the constructor
    leaves, the zoom axis is the one the check boxes show: "x" with
    only X checked, "y" with only Y checked, "both" with both and
    "none" with neither. *)
Theorem zoom_axis_follows_check_boxes (inputs : list input) :
  let st := fold_left react inputs initial in
  consistent st
  /\ _zoom_axis st
     = (if zoom_x_checked st && negb (zoom_y_checked st) then "x"
        else if zoom_y_checked st && negb (zoom_x_checked st) then "y"
        else if zoom_y_checked st && zoom_x_checked st then "both"
        else "none").
Proof.
  cbv zeta.
  assert (H : consistent (fold_left react inputs initial)
              /\ In (_zoom_axis_store (fold_left react inputs initial))
                   ["x"; "y"; "both"; "none"]).
  { assert (H0 : consistent initial
                 /\ In (_zoom_axis_store initial) ["x"; "y"; "both"; "none"])
      by (vm_compute; tauto).
    revert H0. generalize initial.
    induction inputs as [| i inputs IH]; intros st H; [exact H |].
    cbn [fold_left]. apply IH. now apply react_preserves. }
  destruct H as [H _]. split; [exact H | exact H].
Qed.

(** X30.  Pressing and releasing X, Y or Shift restores the zoom axis
    and the check boxes the user had.  When a second press event of the
    key arrives before the release, the stored axis is overwritten, and
    the release then leaves the axis of the key, not the one the user
    had. *)
Theorem zoom_key_restores_unless_repeated st k :
  consistent st -> k <> Key_other ->
  let st' := keyReleaseEvent (keyPressEvent st k) k in
  let st'' := keyReleaseEvent (keyPressEvent (keyPressEvent st k) k) k in
  _zoom_axis st' = _zoom_axis st
  /\ zoom_x_checked st' = zoom_x_checked st
  /\ zoom_y_checked st' = zoom_y_checked st
  /\ _zoom_axis st''
     = match k with Key_X => "x" | Key_Y => "y" | _ => "both" end.
Proof.
  intros Hc Hk. unfold consistent, _update_zoom_mode in Hc.
  destruct st as [x y axis store]. cbn in Hc. subst axis.
  destruct k; [| | | contradiction]; destruct x, y; vm_compute; tauto.
Qed.

Lemma zoom_key_restores_unless_repeated_witness :
  _zoom_axis (keyReleaseEvent (keyPressEvent (click_x initial) Key_X) Key_X)
  = _zoom_axis (click_x initial)
  /\ _zoom_axis
       (keyReleaseEvent
          (keyPressEvent (keyPressEvent (click_x initial) Key_X) Key_X) Key_X)
     = "x".
Proof.
  destruct (zoom_key_restores_unless_repeated (click_x initial) Key_X)
    as (H1 & _ & _ & H2); [reflexivity | discriminate |].
  split; [exact H1 | exact H2].
Defined.

End ZoomMore.
